(** * ExpenseEase backend: handlers, routers and aggregation pipelines

    A shallow embedding of the Express/Mongoose handlers of the repository
    (controllers/expenseController.js, controllers/authController.js, the
    user and admin controllers, routes/expense.js and the older routers that
    carry their handlers inline).

    Conventions.
    - A collection is the list of its documents in insertion order.
    - A handler is a function from the request, the environment (clock,
      fresh identifier) and the store to a response and the new store.
    - An exception raised inside a handler's [try] block is a value
      [Throw msg]; the handler's [catch] turns it into a 500 response.
    - Dates are milliseconds since the epoch.  Amounts are integers: the
      whole numbers among the store's doubles.  What is stated of sums
      carries the bound under which their arithmetic is exact
      ([exact_sums]); an amount with a fraction is outside the model.
    - Strings are byte strings.  Lengths and white space are those of
      ASCII text, where a byte is a character ([ascii_text]).
    - The server's time zone has one offset from UTC all year. *)

From Stdlib Require Import ZArith List String Ascii Bool Lia Permutation.
Import ListNotations.

Local Open Scope string_scope.
Local Open Scope list_scope.
Local Open Scope Z_scope.

(** ** JavaScript values used by the handlers *)

(** Truthiness of an optional string: [undefined] and the empty string
    are falsy. *)
Definition truthy (s : option string) : bool :=
  match s with
  | None => false
  | Some EmptyString => false
  | Some _ => true
  end.

(** [a || b] on optional strings. *)
Definition or_default (s : option string) (d : string) : string :=
  if truthy s then match s with Some v => v | None => d end else d.

(** What a [catch (error)] receives, known by its [error.message]: a text,
    or the message of Mongoose's [CastError] for an ObjectId, which quotes
    the value that could not be cast (the rest of that message is the path
    and the model of the query that cast it). *)
Inductive Error : Type :=
| Message (text : string)
| CastError (value : string).

Coercion Message : string >-> Error.

(** Result of a store round trip inside [try { ... }]. *)
Inductive Except (A : Type) : Type :=
| Ok (a : A)
| Throw (err : Error).
Arguments Ok {A} a.
Arguments Throw {A} err.

Definition bindE {A B} (m : Except A) (k : A -> Except B) : Except B :=
  match m with
  | Ok a => k a
  | Throw e => Throw e
  end.

Notation "'tryE' x <- m ; k" := (bindE m (fun x => k))
  (at level 60, x name, m at next level, right associativity).

(** ** Strings *)

(** White space, lengths and case, as they are on ASCII text: the white
    space of [String.prototype.trim] and of validator's [trim], and the
    count of characters of [isLength] and [maxlength]. *)

Definition is_space (c : ascii) : bool :=
  let n := nat_of_ascii c in
  (Nat.eqb n 32 || Nat.eqb n 9 || Nat.eqb n 10 || Nat.eqb n 11
   || Nat.eqb n 12 || Nat.eqb n 13)%bool.

Fixpoint trim_left (s : string) : string :=
  match s with
  | String c r => if is_space c then trim_left r else s
  | EmptyString => EmptyString
  end.

(** Drops trailing white space: a character is kept when it is not a space
    or when something survives after it. *)
Fixpoint trim_right (s : string) : string :=
  match s with
  | EmptyString => EmptyString
  | String c r =>
      match trim_right r with
      | EmptyString => if is_space c then EmptyString else String c EmptyString
      | r' => String c r'
      end
  end.

Definition trim (s : string) : string := trim_right (trim_left s).

Definition len (s : string) : Z := Z.of_nat (String.length s).

Definition to_lower (c : ascii) : ascii :=
  let n := nat_of_ascii c in
  if (Nat.leb 65 n && Nat.leb n 90)%bool then ascii_of_nat (n + 32) else c.

Fixpoint lowercase (s : string) : string :=
  match s with
  | EmptyString => EmptyString
  | String c r => String (to_lower c) (lowercase r)
  end.

(** What a sanitizer of an express-validator chain without [optional()]
    leaves in the body: it runs on the text of the field, which is the
    empty text for an absent field, and its result is written back. *)
Definition sanitized (f : string -> string) (v : option string)
    : option string :=
  Some (f (match v with Some s => s | None => EmptyString end)).

(** ** Identifiers *)

(** A BSON ObjectId, kept as its 24-digit hexadecimal text. *)
Inductive ObjectId : Type := Oid (hex : string).

Definition toString (o : ObjectId) : string :=
  match o with Oid h => h end.

Definition oid_eqb (a b : ObjectId) : bool :=
  String.eqb (toString a) (toString b).

Definition is_hex_digit (c : ascii) : bool :=
  let n := nat_of_ascii c in
  ((Nat.leb 48 n && Nat.leb n 57) || (Nat.leb 97 n && Nat.leb n 102)
   || (Nat.leb 65 n && Nat.leb n 70))%bool.

Fixpoint all_hex (s : string) : bool :=
  match s with
  | EmptyString => true
  | String c r => (is_hex_digit c && all_hex r)%bool
  end.

(** Mongoose's cast of a string to an ObjectId: 24 hexadecimal digits, or a
    [CastError] that carries the string. *)
Definition castObjectId (s : string) : Except ObjectId :=
  if (Nat.eqb (String.length s) 24 && all_hex s)%bool
  then Ok (Oid (lowercase s))
  else Throw (CastError s).

(** A BSON value as the aggregation pipeline compares it: an ObjectId and
    the string of its digits are different values. *)
Inductive Bson : Type :=
| BObjectId (o : ObjectId)
| BString (s : string)
| BUndefined.

Definition bson_eqb (a b : Bson) : bool :=
  match a, b with
  | BObjectId x, BObjectId y => oid_eqb x y
  | BString x, BString y => String.eqb x y
  | BUndefined, BUndefined => true
  | _, _ => false
  end.

(** ** Data model *)

Inductive Role : Type := RoleUser | RoleAdmin.

Definition role_eqb (a b : Role) : bool :=
  match a, b with
  | RoleUser, RoleUser | RoleAdmin, RoleAdmin => true
  | _, _ => false
  end.

Module User.

Record t : Type := mk {
  _id : ObjectId;
  name : string;
  email : string;
  password : string;          (* the stored hash *)
  role : Role;
  monthlyBudget : Z;
  currency : string;
  isActive : bool;
  lastLogin : option Z;
  createdAt : Z
}.

(** [user.lastLogin = d] on a loaded document. *)
Definition set_lastLogin (u : t) (d : Z) : t :=
  mk (_id u) (name u) (email u) (password u) (role u) (monthlyBudget u)
     (currency u) (isActive u) (Some d) (createdAt u).

End User.

Module Expense.

(** The fields the handlers read, [user] being of the schema's type
    ObjectId and [amount] a whole number.  The optional paths of the
    schema (description, paymentMethod, location, tags, isRecurring,
    recurringType, attachments, status) and the timestamps are validated
    where the schema validates them and stored with the document; no
    handler reads them and the record leaves them out. *)
Record t : Type := mk {
  _id : ObjectId;
  user : ObjectId;
  title : string;
  amount : Z;
  category : string;
  date : Z
}.

End Expense.

Record Store : Type := mkStore {
  users : list User.t;
  expenses : list Expense.t
}.

(** What [protect] attaches as [req.user]: the user document, of which the
    handlers read [_id], [id] and [role]. *)
Module ReqUser.

Record t : Type := mk {
  _id : ObjectId;
  role : Role
}.

(** [req.user.id]: the string form of [req.user._id]. *)
Definition id (u : t) : string := toString (_id u).

End ReqUser.

(** [new Date()], the offset of the server's local time from UTC in
    milliseconds, and the identifier the driver generates for a created
    document. *)
Record Env : Type := mkEnv {
  now : Z;
  tzOffset : Z;
  freshId : ObjectId
}.

(** ** Requests and responses *)

(** A date in a JSON body: the instant it is read as, or a value that
    [Date] cannot read. *)
Inductive JsonDate : Type :=
| DateOf (ms : Z)
| NotADate.

(** The JSON body of an expense request, which the handlers hand whole to
    the model: [_id], [user] and the paths of the schema that carry a
    validator, each with a value of its JSON type.  [None] is an absent
    field, and for [amount] also a value that is not a number.  The paths
    [isRecurring] and [attachments] have no validator; they are stored with
    the document and read by no handler. *)
Record ExpenseBody : Type := mkExpenseBody {
  b_title : option string;
  b_amount : option Z;
  b_category : option string;
  b_date : option JsonDate;
  b__id : option string;
  b_user : option string;
  b_description : option string;
  b_paymentMethod : option string;
  b_location : option string;
  b_tags : option (list string);
  b_recurringType : option string;
  b_status : option string
}.

(** A body that carries the title, the amount, the category and the date
    only. *)
Definition plain_body (title : option string) (amount : option Z)
    (category : option string) (date : option JsonDate) : ExpenseBody :=
  mkExpenseBody title amount category date None None None None None None
    None None.

(** The owner of a populated expense: [populate('user', 'name email')]. *)
Record Owner : Type := mkOwner {
  o_id : ObjectId;
  o_name : string;
  o_email : string
}.

(** An expense after [populate]: the owner is [null] when no user document
    has the referenced identifier. *)
Record Populated : Type := mkPopulated {
  p_expense : Expense.t;
  p_user : option Owner
}.

(** [Math.ceil(total / limit)] as a JavaScript number. *)
Inductive JsNumber : Type :=
| Num (z : Z)
| Infinity
| NaN.

Record Pagination : Type := mkPagination {
  currentPage : Z;
  totalPages : JsNumber;
  totalItems : Z;
  itemsPerPage : Z
}.

(** A row of a [$group] stage: the key, [total] and [count]. *)
Record Group (K : Type) : Type := mkGroup {
  g_id : K;
  total : Z;
  count : Z
}.
Arguments mkGroup {K} g_id total count.
Arguments g_id {K} g.
Arguments total {K} g.
Arguments count {K} g.

(** [select('title amount category date')]. *)
Record Recent : Type := mkRecent {
  r_title : string;
  r_amount : Z;
  r_category : string;
  r_date : Z
}.

Record Stats : Type := mkStats {
  totalExpenses : Group unit;
  expensesByCategory : list (Group string);
  monthlyExpenses : list (Group Z);
  recentExpenses : option (list Recent)
}.

(** The user object of the login and register responses. *)
Record UserView : Type := mkUserView {
  v_id : ObjectId;
  v_name : string;
  v_email : string;
  v_role : Role;
  v_monthlyBudget : Z;
  v_currency : string;
  v_lastLogin : option Z
}.

(** [jwt.sign({ id }, secret, { expiresIn })]: the token is known by the
    identifier it carries. *)
Inductive Token : Type := Jwt (id : ObjectId).

Inductive Payload : Type :=
| NoData
| DataExpense (e : Expense.t)
| DataPopulated (e : Populated)
| DataExpenses (es : list Populated) (p : Pagination)
| DataStats (s : Stats)
| DataAuth (u : UserView) (t : Token).

Record Response : Type := mkResponse {
  status : Z;
  message : option string;
  data : Payload;
  error : option Error
}.

Definition success (code : Z) (msg : option string) (d : Payload) : Response :=
  mkResponse code msg d None.

Definition failure (code : Z) (msg : string) : Response :=
  mkResponse code (Some msg) NoData None.

(** The [catch (error)] branch of a handler. *)
Definition caught (msg : string) (err : Error) : Response :=
  mkResponse 500 (Some msg) NoData (Some err).

(** ** The Expense model *)

Definition category_enum : list string :=
  [ "Food & Dining"; "Transportation"; "Shopping"; "Entertainment";
    "Healthcare"; "Education"; "Housing"; "Utilities"; "Insurance";
    "Travel"; "Gifts"; "Personal Care"; "Subscriptions"; "Other" ].

Definition mem_string (s : string) (l : list string) : bool :=
  existsb (String.eqb s) l.

(** Schema validators of the path [title]: required, trimmed, at most 100
    characters. *)
Definition validate_title (t : option string) : Except string :=
  match t with
  | None => Throw "Expense title is required"
  | Some s =>
      let s' := trim s in
      if String.eqb s' EmptyString then Throw "Expense title is required"
      else if 100 <? len s' then Throw "Title cannot exceed 100 characters"
      else Ok s'
  end.

(** Schema validators of the path [amount]: required, [min: 0]. *)
Definition validate_amount (a : option Z) : Except Z :=
  match a with
  | None => Throw "Amount is required"
  | Some z => if z <? 0 then Throw "Amount cannot be negative" else Ok z
  end.

(** Schema validators of the path [category]: required, in the enum. *)
Definition validate_category (c : option string) : Except string :=
  match c with
  | None => Throw "Category is required"
  | Some s =>
      if String.eqb s EmptyString then Throw "Category is required"
      else if mem_string s category_enum then Ok s
      else Throw "`category` is not a valid enum value"
  end.

Definition payment_enum : list string :=
  [ "Cash"; "Credit Card"; "Debit Card"; "Bank Transfer"; "Digital Wallet";
    "Other" ].

Definition recurring_enum : list string :=
  [ "daily"; "weekly"; "monthly"; "yearly" ].

Definition status_enum : list string :=
  [ "pending"; "completed"; "cancelled" ].

(** An optional path with an [enum]. *)
Definition validate_enum (allowed : list string) (msg : string)
    (v : option string) : Except unit :=
  match v with
  | None => Ok tt
  | Some s => if mem_string s allowed then Ok tt else Throw msg
  end.

(** An optional path with [trim] and a [maxlength]. *)
Definition validate_max (n : Z) (msg : string) (v : option string)
    : Except unit :=
  match v with
  | None => Ok tt
  | Some s => if n <? len (trim s) then Throw msg else Ok tt
  end.

(** The validators of the optional paths: [description], [paymentMethod],
    [location], [tags], [recurringType] and [status]. *)
Definition validate_optional (b : ExpenseBody) : Except unit :=
  tryE _ <- validate_max 500 "Description cannot exceed 500 characters"
              (b_description b);
  tryE _ <- validate_enum payment_enum
              "`paymentMethod` is not a valid enum value" (b_paymentMethod b);
  tryE _ <- validate_max 100 "Location cannot exceed 100 characters"
              (b_location b);
  tryE _ <- (match b_tags b with
             | None => Ok tt
             | Some tags =>
                 if forallb (fun t => len (trim t) <=? 20) tags then Ok tt
                 else Throw "Tag cannot exceed 20 characters"
             end);
  tryE _ <- validate_enum recurring_enum
              "`recurringType` is not a valid enum value" (b_recurringType b);
  validate_enum status_enum "`status` is not a valid enum value" (b_status b).

(** The cast of the path [date]; [absent] is what the path holds when the
    body has no date. *)
Definition cast_date (v : option JsonDate) (absent : Z) : Except Z :=
  match v with
  | None => Ok absent
  | Some (DateOf d) => Ok d
  | Some NotADate => Throw "Cast to date failed"
  end.

Fixpoint find_expense (i : ObjectId) (l : list Expense.t) : option Expense.t :=
  match l with
  | [] => None
  | e :: r => if oid_eqb (Expense._id e) i then Some e else find_expense i r
  end.

(** The [_id] of a new document: the one the body names, which has to be
    an ObjectId no stored document has, or else the one the driver
    generates. *)
Definition new_id (env : Env) (st : Store) (v : option string)
    : Except ObjectId :=
  match v with
  | None => Ok (freshId env)
  | Some s =>
      tryE i <- castObjectId s;
      match find_expense i (expenses st) with
      | Some _ => Throw "E11000 duplicate key error"
      | None => Ok i
      end
  end.

(** [Expense.create({ ...req.body, user })]: validate, then insert.  The
    validation error lists every failing path; it is known here by the
    first of them. *)
Definition Expense_create (env : Env) (st : Store) (b : ExpenseBody)
    (owner : string) : Except (Expense.t * Store) :=
  tryE u <- castObjectId owner;
  tryE t <- validate_title (b_title b);
  tryE a <- validate_amount (b_amount b);
  tryE c <- validate_category (b_category b);
  tryE _ <- validate_optional b;
  tryE d <- cast_date (b_date b) (now env);
  tryE i <- new_id env st (b__id b);
  let e := Expense.mk i u t a c d in
  Ok (e, mkStore (users st) (expenses st ++ [e])).

(** [Expense.findById(id)]: the identifier is cast first. *)
Definition Expense_findById (st : Store) (i : string)
    : Except (option Expense.t) :=
  tryE o <- castObjectId i;
  Ok (find_expense o (expenses st)).

Fixpoint find_user (i : ObjectId) (l : list User.t) : option User.t :=
  match l with
  | [] => None
  | u :: r => if oid_eqb (User._id u) i then Some u else find_user i r
  end.

(** [.populate('user', 'name email')]. *)
Definition populate (st : Store) (e : Expense.t) : Populated :=
  mkPopulated e
    (match find_user (Expense.user e) (users st) with
     | Some u => Some (mkOwner (User._id u) (User.name u) (User.email u))
     | None => None
     end).

(** [expense.deleteOne()]. *)
Definition Expense_deleteOne (st : Store) (e : Expense.t) : Store :=
  mkStore (users st)
    (filter (fun x => negb (oid_eqb (Expense._id x) (Expense._id e)))
       (expenses st)).

(** Update validators ([runValidators: true]) run on the paths present in
    the update only. *)
Definition present {A} (v : option A) (check : option A -> Except A) (old : A)
    : Except A :=
  match v with
  | None => Ok old
  | Some _ => check v
  end.

(** An [_id] in an update: the store refuses to change the identifier of
    a document. *)
Definition keep_id (v : option string) (e : Expense.t) : Except unit :=
  match v with
  | None => Ok tt
  | Some s =>
      tryE i <- castObjectId s;
      if oid_eqb i (Expense._id e) then Ok tt
      else Throw "Performing an update on the path '_id' would modify the immutable field '_id'"
  end.

(** The body is the update: every path it carries is set, [user] too. *)
Definition apply_update (b : ExpenseBody) (e : Expense.t) : Except Expense.t :=
  tryE u <- (match b_user b with
             | None => Ok (Expense.user e)
             | Some s => castObjectId s
             end);
  tryE t <- present (b_title b) validate_title (Expense.title e);
  tryE a <- present (b_amount b) validate_amount (Expense.amount e);
  tryE c <- present (b_category b) validate_category (Expense.category e);
  tryE _ <- validate_optional b;
  tryE d <- cast_date (b_date b) (Expense.date e);
  tryE _ <- keep_id (b__id b) e;
  Ok (Expense.mk (Expense._id e) u t a c d).

Fixpoint replace_expense (e' : Expense.t) (l : list Expense.t)
    : list Expense.t :=
  match l with
  | [] => []
  | e :: r =>
      if oid_eqb (Expense._id e) (Expense._id e') then e' :: r
      else e :: replace_expense e' r
  end.

(** [Expense.findByIdAndUpdate(id, body, { new: true, runValidators: true })]. *)
Definition Expense_findByIdAndUpdate (st : Store) (i : string)
    (b : ExpenseBody) : Except (option Expense.t * Store) :=
  tryE o <- castObjectId i;
  match find_expense o (expenses st) with
  | None => Ok (None, st)
  | Some e =>
      tryE e' <- apply_update b e;
      Ok (Some e', mkStore (users st) (replace_expense e' (expenses st)))
  end.

(** ** Expense handlers (controllers/expenseController.js) *)

Record Request : Type := mkRequest {
  user : ReqUser.t;              (* req.user *)
  params_id : string;            (* req.params.id *)
  body : ExpenseBody             (* req.body *)
}.

Definition createExpense (env : Env) (req : Request) (st : Store)
    : Response * Store :=
  match Expense_create env st (body req) (ReqUser.id (user req)) with
  | Ok (e, st') =>
      (success 201 (Some "Expense created successfully") (DataExpense e), st')
  | Throw err => (caught "Failed to create expense" err, st)
  end.

Definition is_admin (u : ReqUser.t) : bool :=
  role_eqb (ReqUser.role u) RoleAdmin.

(** [expense.user._id.toString() !== req.user.id && req.user.role !== 'admin']
    on the populated document: reading [_id] of a [null] owner throws. *)
Definition getExpense (req : Request) (st : Store) : Response :=
  match Expense_findById st (params_id req) with
  | Throw err => caught "Failed to get expense" err
  | Ok None => failure 404 "Expense not found"
  | Ok (Some e) =>
      let p := populate st e in
      match p_user p with
      | None =>
          caught "Failed to get expense"
            "Cannot read properties of null (reading '_id')"
      | Some o =>
          if (negb (String.eqb (toString (o_id o)) (ReqUser.id (user req)))
              && negb (is_admin (user req)))%bool
          then failure 403 "Not authorized to access this expense"
          else success 200 None (DataPopulated p)
      end
  end.

(** The ownership test of the update and delete handlers, on the
    unpopulated document. *)
Definition not_authorized (e : Expense.t) (u : ReqUser.t) : bool :=
  (negb (String.eqb (toString (Expense.user e)) (ReqUser.id u))
   && negb (is_admin u))%bool.

Definition updateExpense (req : Request) (st : Store) : Response * Store :=
  match Expense_findById st (params_id req) with
  | Throw err => (caught "Failed to update expense" err, st)
  | Ok None => (failure 404 "Expense not found", st)
  | Ok (Some e) =>
      if not_authorized e (user req)
      then (failure 403 "Not authorized to update this expense", st)
      else
        match Expense_findByIdAndUpdate st (params_id req) (body req) with
        | Throw err => (caught "Failed to update expense" err, st)
        | Ok (None, st') =>
            (success 200 (Some "Expense updated successfully") NoData, st')
        | Ok (Some e', st') =>
            (success 200 (Some "Expense updated successfully")
               (DataPopulated (populate st' e')), st')
        end
  end.

Definition deleteExpense (req : Request) (st : Store) : Response * Store :=
  match Expense_findById st (params_id req) with
  | Throw err => (caught "Failed to delete expense" err, st)
  | Ok None => (failure 404 "Expense not found", st)
  | Ok (Some e) =>
      if not_authorized e (user req)
      then (failure 403 "Not authorized to delete this expense", st)
      else
        (success 200 (Some "Expense deleted successfully") NoData,
         Expense_deleteOne st e)
  end.

(** ** Dates *)

Definition ms_per_day : Z := 86400000.

(** Days since 1970-01-01 of a proleptic Gregorian date, [m] in 1..12. *)
Definition days_from_civil (y m d : Z) : Z :=
  let y' := if m <=? 2 then y - 1 else y in
  let era := y' / 400 in
  let yoe := y' - era * 400 in
  let mp := if 2 <? m then m - 3 else m + 9 in
  let doy := (153 * mp + 2) / 5 + d - 1 in
  let doe := yoe * 365 + yoe / 4 - yoe / 100 + doy in
  era * 146097 + doe - 719468.

(** Year and month (1..12) of a day number. *)
Definition civil_from_days (z : Z) : Z * Z :=
  let z' := z + 719468 in
  let era := z' / 146097 in
  let doe := z' - era * 146097 in
  let yoe := (doe - doe / 1460 + doe / 36524 - doe / 146096) / 365 in
  let y := yoe + era * 400 in
  let doy := doe - (365 * yoe + yoe / 4 - yoe / 100) in
  let mp := (5 * doy + 2) / 153 in
  let m := if mp <? 10 then mp + 3 else mp - 9 in
  (if m <=? 2 then y + 1 else y, m).

(** [new Date().getFullYear()]: the year in local time. *)
Definition getFullYear (env : Env) : Z :=
  fst (civil_from_days ((now env + tzOffset env) / ms_per_day)).

(** [new Date(year, monthIndex, day)]: local midnight of that day, in a
    zone whose offset is the same on that day as at the clock; a year in
    0..99 stands for 1900 + year. *)
Definition new_Date (env : Env) (year monthIndex day : Z) : Z :=
  let y := if (0 <=? year) && (year <=? 99) then 1900 + year else year in
  ms_per_day * days_from_civil y (monthIndex + 1) day - tzOffset env.

(** The aggregation operator [$month]: the month in UTC. *)
Definition month (d : Z) : Z := snd (civil_from_days (d / ms_per_day)).

(** ** Queries: sorting, paging, grouping *)

Fixpoint insert_by {A} (le : A -> A -> bool) (x : A) (l : list A) : list A :=
  match l with
  | [] => [x]
  | y :: r => if le x y then x :: l else y :: insert_by le x r
  end.

(** A stable insertion sort. *)
Definition sort_by {A} (le : A -> A -> bool) (l : list A) : list A :=
  fold_right (insert_by le) [] l.

(** [.skip(skip).limit(limit)]: the server rejects a negative skip; a
    limit of 0 is no limit and a negative limit returns that many
    documents in a single batch. *)
Definition skip_limit {A} (skip limit : Z) (l : list A) : Except (list A) :=
  if skip <? 0 then Throw "Skip value must be non-negative"
  else
    let rest := skipn (Z.to_nat skip) l in
    Ok (if limit =? 0 then rest else firstn (Z.to_nat (Z.abs limit)) rest).

(** [Math.ceil(total / limit)]. *)
Definition ceil_div (total limit : Z) : JsNumber :=
  if limit =? 0 then (if total =? 0 then NaN else Infinity)
  else Num (- ((- total) / limit)).

Fixpoint add_to_group {K} (eqb : K -> K -> bool) (k : K) (a : Z)
    (gs : list (Group K)) : list (Group K) :=
  match gs with
  | [] => [mkGroup k a 1]
  | g :: r =>
      if eqb (g_id g) k then mkGroup k (total g + a) (count g + 1) :: r
      else g :: add_to_group eqb k a r
  end.

(** [{ $group: { _id: key, total: { $sum: '$amount' }, count: { $sum: 1 } } }];
    groups come out in order of first appearance. *)
Definition group_by {K} (eqb : K -> K -> bool) (key : Expense.t -> K)
    (l : list Expense.t) : list (Group K) :=
  fold_left (fun gs e => add_to_group eqb (key e) (Expense.amount e) gs) l [].

Definition sum_amount (l : list Expense.t) : Z :=
  fold_right (fun e acc => Expense.amount e + acc) 0 l.

(** [{ $group: { _id: null, ... } }]: no row when nothing matched. *)
Definition group_all (l : list Expense.t) : list (Group unit) :=
  match l with
  | [] => []
  | _ => [mkGroup tt (sum_amount l) (Z.of_nat (List.length l))]
  end.

(** [totalExpenses[0] || { total: 0, count: 0 }]. *)
Definition first_or_zero (gs : list (Group unit)) : Group unit :=
  match gs with
  | g :: _ => g
  | [] => mkGroup tt 0 0
  end.

(** ** Filters *)

(** A filter on dates: [{ $gte, $lte }] with either bound optional. *)
Definition in_range (lo hi : option Z) (d : Z) : bool :=
  (match lo with Some a => a <=? d | None => true end
   && match hi with Some b => d <=? b | None => true end)%bool.

Record ListQuery : Type := mkListQuery {
  q_page : option Z;             (* parseInt(page) when given *)
  q_limit : option Z;            (* parseInt(limit) when given *)
  q_userId : option string;      (* admin list only *)
  q_category : option string;
  q_startDate : option Z;
  q_endDate : option Z;
  q_minAmount : option Z;
  q_maxAmount : option Z;
  q_sortBy : option string;
  q_sortOrder : option string
}.

Definition page_of (q : ListQuery) : Z :=
  match q_page q with Some p => p | None => 1 end.

Definition limit_of (q : ListQuery) : Z :=
  match q_limit q with Some l => l | None => 10 end.

(** The filter object of [getExpenses], applied by [find] and
    [countDocuments] after the owner has been cast by the schema. *)
Definition list_filter (owner : ObjectId) (q : ListQuery) (e : Expense.t)
    : bool :=
  (oid_eqb (Expense.user e) owner
   && (if truthy (q_category q)
       then match q_category q with
            | Some c => String.eqb (Expense.category e) c
            | None => true
            end
       else true)
   && in_range (q_startDate q) (q_endDate q) (Expense.date e)
   && in_range (q_minAmount q) (q_maxAmount q) (Expense.amount e))%bool.

(** The field of [sort[sortBy]]. *)
Definition sort_field (q : ListQuery) : string :=
  match q_sortBy q with Some f => f | None => "date" end.

(** The fields of a document that [Expense.t] carries. *)
Definition sort_fields : list string :=
  [ "date"; "amount"; "title"; "category"; "_id"; "user" ].

(** The order of two ObjectIds: that of their twelve bytes. *)
Definition oid_leb (a b : ObjectId) : bool :=
  String.leb (lowercase (toString a)) (lowercase (toString b)).

(** [sort[sortBy] = sortOrder === 'desc' ? -1 : 1] as an ordering on the
    documents, for the fields in [sort_fields].  Any other field (one of
    the schema's that [Expense.t] leaves out, a timestamp, or a name no
    document has) is outside this model: [sort_le] orders nothing then,
    and the properties that speak of an order are stated for
    [sort_fields]. *)
Definition sort_le (q : ListQuery) (a b : Expense.t) : bool :=
  let desc := match q_sortOrder q with
              | Some o => String.eqb o "desc"
              | None => true
              end in
  let field := sort_field q in
  let '(x, y) := if desc then (b, a) else (a, b) in
  if String.eqb field "date" then Expense.date x <=? Expense.date y
  else if String.eqb field "amount" then Expense.amount x <=? Expense.amount y
  else if String.eqb field "title" then String.leb (Expense.title x) (Expense.title y)
  else if String.eqb field "category"
       then String.leb (Expense.category x) (Expense.category y)
  else if String.eqb field "_id"
       then oid_leb (Expense._id x) (Expense._id y)
  else if String.eqb field "user"
       then oid_leb (Expense.user x) (Expense.user y)
  else true.

Record ListRequest : Type := mkListRequest {
  l_user : ReqUser.t;
  l_query : ListQuery
}.

(** [getExpenses]: the caller's expenses, filtered, sorted and paged. *)
Definition getExpenses (req : ListRequest) (st : Store) : Response :=
  let q := l_query req in
  match castObjectId (ReqUser.id (l_user req)) with
  | Throw err => caught "Failed to get expenses" err
  | Ok owner =>
      let matching := filter (list_filter owner q) (expenses st) in
      let skip := (page_of q - 1) * limit_of q in
      match skip_limit skip (limit_of q) (sort_by (sort_le q) matching) with
      | Throw err => caught "Failed to get expenses" err
      | Ok page =>
          let total := Z.of_nat (List.length matching) in
          success 200 None
            (DataExpenses (map (populate st) page)
               (mkPagination (page_of q) (ceil_div total (limit_of q))
                  total (limit_of q)))
      end
  end.

(** The filter of the admin list: owner (when given), category, dates. *)
Definition admin_filter (owner : option ObjectId) (q : ListQuery)
    (e : Expense.t) : bool :=
  (match owner with Some o => oid_eqb (Expense.user e) o | None => true end
   && (if truthy (q_category q)
       then match q_category q with
            | Some c => String.eqb (Expense.category e) c
            | None => true
            end
       else true)
   && in_range (q_startDate q) (q_endDate q) (Expense.date e))%bool.

(** [getAllExpenses] of the admin controller. *)
Definition getAllExpenses (req : ListRequest) (st : Store) : Response :=
  let q := l_query req in
  let owner :=
    if truthy (q_userId q)
    then match q_userId q with
         | Some s => tryE o <- castObjectId s; Ok (Some o)
         | None => Ok None
         end
    else Ok None in
  match owner with
  | Throw err => caught "Failed to get expenses" err
  | Ok owner =>
      let matching := filter (admin_filter owner q) (expenses st) in
      let skip := (page_of q - 1) * limit_of q in
      match skip_limit skip (limit_of q) (sort_by (sort_le q) matching) with
      | Throw err => caught "Failed to get expenses" err
      | Ok page =>
          let total := Z.of_nat (List.length matching) in
          success 200 None
            (DataExpenses (map (populate st) page)
               (mkPagination (page_of q) (ceil_div total (limit_of q))
                  total (limit_of q)))
      end
  end.

(** ** Statistics *)

(** A [$match] stage of [Expense.aggregate]: the pipeline is sent as it is,
    so the [user] field (an ObjectId) is compared with the given value
    without the schema's casts. *)
Definition agg_match (u : Bson) (lo hi : option Z) (e : Expense.t) : bool :=
  (bson_eqb (BObjectId (Expense.user e)) u
   && in_range lo hi (Expense.date e))%bool.

(** [{ $gte: lo, $lt: hi }]. *)
Definition in_half_open (lo hi d : Z) : bool := ((lo <=? d) && (d <? hi))%bool.

(** The two current-year windows found in the source. *)
Definition window_inclusive (env : Env) (d : Z) : bool :=
  let y := getFullYear env in
  in_range (Some (new_Date env y 0 1)) (Some (new_Date env y 11 31)) d.

Definition window_half_open (env : Env) (d : Z) : bool :=
  let y := getFullYear env in
  in_half_open (new_Date env y 0 1) (new_Date env (y + 1) 0 1) d.

(** [$group] by category, then [{ $sort: { total: -1 } }]. *)
Definition by_category (l : list Expense.t) : list (Group string) :=
  sort_by (fun a b => total b <=? total a)
    (group_by String.eqb Expense.category l).

(** [$group] by [{ $month: '$date' }], then [{ $sort: { _id: 1 } }]. *)
Definition by_month (l : list Expense.t) : list (Group Z) :=
  sort_by (fun a b => g_id a <=? g_id b)
    (group_by Z.eqb (fun e => month (Expense.date e)) l).

Definition select_recent (e : Expense.t) : Recent :=
  mkRecent (Expense.title e) (Expense.amount e) (Expense.category e)
    (Expense.date e).

Record StatsRequest : Type := mkStatsRequest {
  s_user : ReqUser.t;
  s_startDate : option Z;
  s_endDate : option Z
}.

(** [getExpenseStats] of controllers/expenseController.js.  The two
    pipelines over [filter] match [user] against [req.user.id]; the monthly
    pipeline matches it against [req.user._id]. *)
Definition getExpenseStats (env : Env) (req : StatsRequest) (st : Store)
    : Response :=
  let u := s_user req in
  let filter_ := agg_match (BString (ReqUser.id u))
                   (s_startDate req) (s_endDate req) in
  let totalExpenses := group_all (filter filter_ (expenses st)) in
  let expensesByCategory := by_category (filter filter_ (expenses st)) in
  let monthlyExpenses :=
    by_month
      (filter (fun e => (bson_eqb (BObjectId (Expense.user e))
                           (BObjectId (ReqUser._id u))
                         && window_inclusive env (Expense.date e))%bool)
         (expenses st)) in
  match castObjectId (ReqUser.id u) with
  | Throw err => caught "Failed to get expense statistics" err
  | Ok owner =>
      let found :=
        filter (fun e => (oid_eqb (Expense.user e) owner
                          && in_range (s_startDate req) (s_endDate req)
                               (Expense.date e))%bool) (expenses st) in
      let recent :=
        firstn 5
          (sort_by (fun a b => Expense.date b <=? Expense.date a) found) in
      success 200 None
        (DataStats (mkStats (first_or_zero totalExpenses) expensesByCategory
                      monthlyExpenses (Some (map select_recent recent))))
  end.

(** The statistics handler written inline in the older expense router
    (router.get('/stats')): every pipeline matches [user] against
    [req.user.id], the monthly one over the half-open window, and there is
    no list of recent expenses. *)
Definition router_stats (env : Env) (req : StatsRequest) (st : Store)
    : Response :=
  let u := s_user req in
  let filter_ := agg_match (BString (ReqUser.id u))
                   (s_startDate req) (s_endDate req) in
  let totalExpenses := group_all (filter filter_ (expenses st)) in
  let expensesByCategory := by_category (filter filter_ (expenses st)) in
  let monthlyExpenses :=
    by_month
      (filter (fun e => (bson_eqb (BObjectId (Expense.user e))
                           (BString (ReqUser.id u))
                         && window_half_open env (Expense.date e))%bool)
         (expenses st)) in
  success 200 None
    (DataStats (mkStats (first_or_zero totalExpenses) expensesByCategory
                  monthlyExpenses None)).

(** The monthly pipelines of the two admin dashboards: no owner in the
    [$match], the controller over the inclusive window and the admin
    router's inline handler over the half-open one. *)
Definition dashboard_monthly (env : Env) (st : Store) : list (Group Z) :=
  by_month (filter (fun e => window_inclusive env (Expense.date e))
              (expenses st)).

Definition router_dashboard_monthly (env : Env) (st : Store)
    : list (Group Z) :=
  by_month (filter (fun e => window_half_open env (Expense.date e))
              (expenses st)).

(** The monthly aggregation as the specification words it, to be compared
    with the pipelines above: of the documents a selection admits, those
    dated inside a window, bucketed by month. *)
Definition monthly_over (window : Z -> bool) (selected : Expense.t -> bool)
    (l : list Expense.t) : list (Group Z) :=
  by_month (filter (fun e => (selected e && window (Expense.date e))%bool) l).

(** The monthly rows of a statistics response. *)
Definition monthly_of (r : Response) : list (Group Z) :=
  match data r with
  | DataStats s => monthlyExpenses s
  | _ => []
  end.

Definition totals_of (r : Response) : option (Group unit) :=
  match data r with
  | DataStats s => Some (totalExpenses s)
  | _ => None
  end.

(** ** The User model and the account handlers *)

Record AuthBody : Type := mkAuthBody {
  a_name : option string;
  a_email : option string;
  a_password : option string;
  a_monthlyBudget : option Z;
  a_currency : option string
}.

(** The document handed to [User.create]. *)
Record NewUser : Type := mkNewUser {
  n_name : option string;
  n_email : option string;
  n_password : option string;
  n_role : option Role;
  n_monthlyBudget : Z;
  n_currency : string
}.

(** [process.env.ADMIN_EMAIL] and [process.env.ADMIN_PASSWORD]. *)
Record Config : Type := mkConfig {
  ADMIN_EMAIL : string;
  ADMIN_PASSWORD : string
}.

Definition currency_enum : list string :=
  [ "USD"; "EUR"; "GBP"; "INR"; "CAD"; "AUD" ].

Fixpoint find_email (e : string) (l : list User.t) : option User.t :=
  match l with
  | [] => None
  | u :: r => if String.eqb (User.email u) e then Some u else find_email e r
  end.

(** [User.findOne({ email })]. *)
Definition User_findOne (st : Store) (e : string) : option User.t :=
  find_email e (users st).

(** [User.findById(id)]. *)
Definition User_findById (st : Store) (i : string) : Except (option User.t) :=
  tryE o <- castObjectId i;
  Ok (find_user o (users st)).

Fixpoint replace_user (u' : User.t) (l : list User.t) : list User.t :=
  match l with
  | [] => []
  | u :: r =>
      if oid_eqb (User._id u) (User._id u') then u' :: r
      else u :: replace_user u' r
  end.

(** [user.save()] of a loaded document whose [lastLogin] was set. *)
Definition User_save (st : Store) (u : User.t) : Except Store :=
  match find_user (User._id u) (users st) with
  | None => Throw "No document found for query"
  | Some _ => Ok (mkStore (replace_user u (users st)) (expenses st))
  end.

(** [user.deleteOne()]. *)
Definition User_deleteOne (st : Store) (u : User.t) : Store :=
  mkStore
    (filter (fun x => negb (oid_eqb (User._id x) (User._id u))) (users st))
    (expenses st).

Definition view (u : User.t) (withLastLogin : bool) : UserView :=
  mkUserView (User._id u) (User.name u) (User.email u) (User.role u)
    (User.monthlyBudget u) (User.currency u)
    (if withLastLogin then User.lastLogin u else None).

Definition generateToken (i : ObjectId) : Token := Jwt i.

Section Accounts.

(** What the handlers take from bcryptjs and validator.js. *)
Variable isEmail : string -> bool.
Variable normalizeEmail : string -> string.
Variable hashPassword : string -> string.
Variable comparePassword : string -> string -> bool.

(** Modelled from the spec: models/User.js is not among the sources.  The
    schema validators of section 3 (name of 2 to 50 characters, trimmed;
    email of valid syntax; non-negative budget; currency in the enum), the
    defaults (role user, active, no lastLogin), the hashing of the password
    on save and the unique index on email, whose violation is the store's
    duplicate-key error. *)
Definition User_create (env : Env) (st : Store) (d : NewUser)
    : Except (User.t * Store) :=
  match n_name d, n_email d, n_password d with
  | Some n, Some e, Some p =>
      let n' := trim n in
      if ((len n' <? 2) || (50 <? len n'))%bool
      then Throw "User validation failed: name"
      else if negb (isEmail e) then Throw "User validation failed: email"
      else if String.eqb p EmptyString
      then Throw "User validation failed: password"
      else if n_monthlyBudget d <? 0
      then Throw "User validation failed: monthlyBudget"
      else if negb (mem_string (n_currency d) currency_enum)
      then Throw "User validation failed: currency"
      else
        match find_email e (users st) with
        | Some _ => Throw "E11000 duplicate key error"
        | None =>
            let u := User.mk (freshId env) n' e (hashPassword p)
                       (match n_role d with Some r => r | None => RoleUser end)
                       (n_monthlyBudget d) (n_currency d) true None
                       (now env) in
            Ok (u, mkStore (users st ++ [u]) (expenses st))
        end
  | _, _, _ => Throw "User validation failed: required"
  end.

(** [monthlyBudget || 0]. *)
Definition budget_or_zero (b : option Z) : Z :=
  match b with Some z => z | None => 0 end.

(** The part of [register] after [User.findOne]: [existingUser] is what
    the lookup returned, [st] the store when [User.create] runs. *)
Definition register_after_lookup (env : Env) (b : AuthBody)
    (existingUser : option User.t) (st : Store) : Response * Store :=
  match existingUser with
  | Some _ => (failure 400 "User already exists with this email", st)
  | None =>
      match User_create env st
              (mkNewUser (a_name b) (a_email b) (a_password b) None
                 (budget_or_zero (a_monthlyBudget b))
                 (or_default (a_currency b) "USD")) with
      | Throw err => (caught "Registration failed" err, st)
      | Ok (u, st') =>
          (success 201 (Some "User registered successfully")
             (DataAuth (view u false) (generateToken (User._id u))), st')
      end
  end.

(** [User.findOne({ email })] of [register]; an absent email is sent as
    [null], which no stored document has. *)
Definition register_lookup (b : AuthBody) (st : Store) : option User.t :=
  match a_email b with
  | Some e => User_findOne st e
  | None => None
  end.

(** [register]: lookup and create with nothing in between. *)
Definition register (env : Env) (b : AuthBody) (st : Store)
    : Response * Store :=
  register_after_lookup env b (register_lookup b st) st.

(** Two [register] requests whose lookups both run before either create:
    the run the unique index arbitrates. *)
Definition register_race (env1 env2 : Env) (b1 b2 : AuthBody) (st : Store)
    : Response * Response * Store :=
  let found1 := register_lookup b1 st in
  let found2 := register_lookup b2 st in
  let '(r1, st1) := register_after_lookup env1 b1 found1 st in
  let '(r2, st2) := register_after_lookup env2 b2 found2 st1 in
  (r1, r2, st2).

Definition login (env : Env) (b : AuthBody) (st : Store) : Response * Store :=
  match a_email b, a_password b with
  | Some e, Some p =>
      if (negb (truthy (Some e)) || negb (truthy (Some p)))%bool
      then (failure 400 "Please provide email and password", st)
      else
        match User_findOne st e with
        | None => (failure 401 "Invalid email or password", st)
        | Some u =>
            if negb (comparePassword p (User.password u))
            then (failure 401 "Invalid email or password", st)
            else if negb (User.isActive u)
            then (failure 401
                    "Account is deactivated. Please contact support.", st)
            else
              let u' := User.set_lastLogin u (now env) in
              match User_save st u' with
              | Throw err => (caught "Login failed" err, st)
              | Ok st' =>
                  (success 200 (Some "Login successful")
                     (DataAuth (view u' true) (generateToken (User._id u'))),
                   st')
              end
        end
  | _, _ => (failure 400 "Please provide email and password", st)
  end.

Definition adminLogin (cfg : Config) (env : Env) (b : AuthBody) (st : Store)
    : Response * Store :=
  match a_email b, a_password b with
  | Some e, Some p =>
      if (negb (truthy (Some e)) || negb (truthy (Some p)))%bool
      then (failure 400 "Please provide email and password", st)
      else if (negb (String.eqb e (ADMIN_EMAIL cfg))
               || negb (String.eqb p (ADMIN_PASSWORD cfg)))%bool
      then (failure 401 "Invalid admin credentials", st)
      else
        match User_findOne st (ADMIN_EMAIL cfg) with
        | None =>
            match User_create env st
                    (mkNewUser (Some "Admin") (Some (ADMIN_EMAIL cfg))
                       (Some (ADMIN_PASSWORD cfg)) (Some RoleAdmin) 0 "USD")
            with
            | Throw err => (caught "Admin login failed" err, st)
            | Ok (u, st') =>
                (success 200 (Some "Admin login successful")
                   (DataAuth (view u true) (generateToken (User._id u))), st')
            end
        | Some u =>
            let u' := User.set_lastLogin u (now env) in
            match User_save st u' with
            | Throw err => (caught "Admin login failed" err, st)
            | Ok st' =>
                (success 200 (Some "Admin login successful")
                   (DataAuth (view u' true) (generateToken (User._id u'))),
                 st')
            end
        end
  | _, _ => (failure 400 "Please provide email and password", st)
  end.

(** [deleteAccount] of the user controller (and the same handler inline in
    routes/user.js). *)
Definition deleteAccount (caller : ReqUser.t) (password : option string)
    (st : Store) : Response * Store :=
  match password with
  | Some p =>
      if negb (truthy (Some p))
      then (failure 400
              "Please provide password to confirm account deletion", st)
      else
        match User_findById st (ReqUser.id caller) with
        | Throw err => (caught "Failed to delete account" err, st)
        | Ok None =>
            (caught "Failed to delete account"
               "Cannot read properties of null (reading 'comparePassword')",
             st)
        | Ok (Some u) =>
            if negb (comparePassword p (User.password u))
            then (failure 400 "Password is incorrect", st)
            else (success 200 (Some "Account deleted successfully") NoData,
                  User_deleteOne st u)
        end
  | None =>
      (failure 400 "Please provide password to confirm account deletion", st)
  end.

(** The express-validator chains of the auth router: the sanitizers rewrite
    the body, the validators only record their findings on the request, and
    the next handler runs in either case. *)
Definition registerValidation (b : AuthBody) : AuthBody * list string :=
  let name' := sanitized trim (a_name b) in
  let email' := sanitized normalizeEmail (a_email b) in
  (mkAuthBody name' email' (a_password b) (a_monthlyBudget b) (a_currency b),
   (match name' with
    | Some n => if ((len n <? 2) || (50 <? len n))%bool
                then ["Name must be between 2 and 50 characters"] else []
    | None => ["Name must be between 2 and 50 characters"]
    end)
   ++ (match a_email b with
       | Some e => if isEmail e then []
                   else ["Please provide a valid email"]
       | None => ["Please provide a valid email"]
       end)
   ++ (match a_password b with
       | Some p => if len p <? 6
                   then ["Password must be at least 6 characters long"]
                   else []
       | None => ["Password must be at least 6 characters long"]
       end)
   ++ (match a_monthlyBudget b with
       | Some m => if m <? 0
                   then ["Monthly budget must be a positive number"] else []
       | None => []
       end)
   ++ (match a_currency b with
       | Some c => if mem_string c currency_enum then []
                   else ["Invalid currency"]
       | None => []
       end)).

Definition loginValidation (b : AuthBody) : AuthBody * list string :=
  (mkAuthBody (a_name b) (sanitized normalizeEmail (a_email b))
     (a_password b) (a_monthlyBudget b) (a_currency b),
   (match a_email b with
    | Some e => if isEmail e then [] else ["Please provide a valid email"]
    | None => ["Please provide a valid email"]
    end)
   ++ (if truthy (a_password b) then [] else ["Password is required"])).

(** [router.post('/register', registerValidation, authController.register)]
    and its neighbours. *)
Definition post_register (env : Env) (b : AuthBody) (st : Store)
    : Response * Store :=
  register env (fst (registerValidation b)) st.

Definition post_login (env : Env) (b : AuthBody) (st : Store)
    : Response * Store :=
  login env (fst (loginValidation b)) st.

Definition post_admin_login (cfg : Config) (env : Env) (b : AuthBody)
    (st : Store) : Response * Store :=
  adminLogin cfg env (fst (loginValidation b)) st.

End Accounts.

(** [deleteUser] of the admin controller (and the same handler inline in
    the admin router). *)
Definition deleteUser (caller : ReqUser.t) (target : string) (st : Store)
    : Response * Store :=
  match User_findById st target with
  | Throw err => (caught "Failed to delete user" err, st)
  | Ok None => (failure 404 "User not found", st)
  | Ok (Some u) =>
      if String.eqb (toString (User._id u)) (ReqUser.id caller)
      then (failure 400 "Cannot delete your own account", st)
      else (success 200 (Some "User deleted successfully") NoData,
            User_deleteOne st u)
  end.

(** ** The expense routers *)

Inductive Method : Type := GET | POST | PUT | DELETE.

Definition method_eqb (a b : Method) : bool :=
  match a, b with
  | GET, GET | POST, POST | PUT, PUT | DELETE, DELETE => true
  | _, _ => false
  end.

Inductive Handler : Type :=
| H_create | H_list | H_getById | H_update | H_delete | H_stats.

(** A route path, segment by segment: ['/'] is [[]], ['/:id'] is
    [[Param "id"]], ['/stats'] is [[Lit "stats"]]. *)
Inductive Segment : Type :=
| Lit (s : string)
| Param (name : string).

Record Route : Type := mkRoute {
  r_method : Method;
  r_path : list Segment;
  r_validation : bool;           (* expenseValidation before the handler *)
  r_handler : Handler
}.

(** Express matches a literal without regard to case and a parameter
    against any non-empty segment. *)
Fixpoint match_path (pat : list Segment) (path : list string)
    : option (list (string * string)) :=
  match pat, path with
  | [], [] => Some []
  | Lit s :: pat', x :: path' =>
      if String.eqb (lowercase s) (lowercase x) then match_path pat' path'
      else None
  | Param n :: pat', x :: path' =>
      if String.eqb x EmptyString then None
      else option_map (cons (n, x)) (match_path pat' path')
  | _, _ => None
  end.

(** The first route, in order of registration, that matches. *)
Fixpoint dispatch (rs : list Route) (m : Method) (path : list string)
    : option (Route * list (string * string)) :=
  match rs with
  | [] => None
  | r :: rest =>
      if method_eqb (r_method r) m
      then match match_path (r_path r) path with
           | Some ps => Some (r, ps)
           | None => dispatch rest m path
           end
      else dispatch rest m path
  end.

Fixpoint param (n : string) (ps : list (string * string)) : string :=
  match ps with
  | [] => EmptyString
  | (k, v) :: r => if String.eqb k n then v else param n r
  end.

(** The two routers of the repository: the older one with its handlers
    inline, and routes/expense.js over the controller. *)
Inductive Version : Type := Inline | Controller.

Definition routes (v : Version) : list Route :=
  match v with
  | Inline =>
      [ mkRoute POST [] true H_create;
        mkRoute GET [] false H_list;
        mkRoute GET [Param "id"] false H_getById;
        mkRoute PUT [Param "id"] true H_update;
        mkRoute DELETE [Param "id"] false H_delete;
        mkRoute GET [Lit "stats"] false H_stats ]
  | Controller =>
      [ mkRoute POST [] true H_create;
        mkRoute GET [] false H_list;
        mkRoute GET [Lit "stats"] false H_stats;
        mkRoute GET [Param "id"] false H_getById;
        mkRoute PUT [Param "id"] true H_update;
        mkRoute DELETE [Param "id"] false H_delete ]
  end.

(** A chain [optional().isIn(allowed)]. *)
Definition finding_enum (allowed : list string) (msg : string)
    (v : option string) : list string :=
  match v with
  | Some s => if mem_string s allowed then [] else [msg]
  | None => []
  end.

(** A chain [optional().trim().isLength({ max: n })], after the trim. *)
Definition finding_max (n : Z) (msg : string) (v : option string)
    : list string :=
  match v with
  | Some s => if n <? len s then [msg] else []
  | None => []
  end.

(** The chains of [expenseValidation].  The sanitizers rewrite the body:
    [title] is trimmed, and written back even when the body had none; the
    fields under [optional()] are trimmed when they are there.  The
    findings are recorded on the request and nothing reads them; those of
    [isISO8601], [isArray] and [isBoolean] depend on the JSON text of the
    value and are not listed. *)
Definition expenseValidation (b : ExpenseBody) : ExpenseBody * list string :=
  let title' := sanitized trim (b_title b) in
  let description' := option_map trim (b_description b) in
  let location' := option_map trim (b_location b) in
  let tags' := option_map (map trim) (b_tags b) in
  (mkExpenseBody title' (b_amount b) (b_category b) (b_date b) (b__id b)
     (b_user b) description' (b_paymentMethod b) location' tags'
     (b_recurringType b) (b_status b),
   (match title' with
    | Some t => if ((len t <? 1) || (100 <? len t))%bool
                then ["Title must be between 1 and 100 characters"] else []
    | None => ["Title must be between 1 and 100 characters"]
    end)
   ++ (match b_amount b with
       | Some a => if a <? 0 then ["Amount must be a positive number"] else []
       | None => ["Amount must be a positive number"]
       end)
   ++ (match b_category b with
       | Some c => if mem_string c category_enum then []
                   else ["Invalid category"]
       | None => ["Invalid category"]
       end)
   ++ finding_max 500 "Description cannot exceed 500 characters" description'
   ++ finding_enum payment_enum "Invalid payment method" (b_paymentMethod b)
   ++ finding_max 100 "Location cannot exceed 100 characters" location'
   ++ (match tags' with
       | Some tags =>
           flat_map (fun t => if 20 <? len t
                              then ["Each tag cannot exceed 20 characters"]
                              else []) tags
       | None => []
       end)
   ++ finding_enum recurring_enum "Invalid recurring type" (b_recurringType b)
   ++ finding_enum status_enum "Invalid status" (b_status b)).

Record HttpRequest : Type := mkHttpRequest {
  h_method : Method;
  h_path : list string;          (* the segments below the mount point *)
  h_user : option ReqUser.t;     (* what [protect] resolves the token to *)
  h_body : ExpenseBody;
  h_query : ListQuery
}.

(** Modelled from the spec: middleware/auth.js is not among the sources.
    [protect] answers 401 unless the bearer token resolves to a user, whom
    it attaches to the request. *)
Definition protect (h : HttpRequest) : Response + ReqUser.t :=
  match h_user h with
  | Some u => inr u
  | None => inl (mkResponse 401 None NoData None)
  end.

Definition run (v : Version) (hd : Handler) (env : Env) (u : ReqUser.t)
    (ps : list (string * string)) (b : ExpenseBody) (q : ListQuery)
    (st : Store) : Response * Store :=
  let req := mkRequest u (param "id" ps) b in
  match hd with
  | H_create => createExpense env req st
  | H_list => (getExpenses (mkListRequest u q) st, st)
  | H_getById => (getExpense req st, st)
  | H_update => updateExpense req st
  | H_delete => deleteExpense req st
  | H_stats =>
      let sreq := mkStatsRequest u (q_startDate q) (q_endDate q) in
      (match v with
       | Inline => router_stats env sreq st
       | Controller => getExpenseStats env sreq st
       end, st)
  end.

(** A request through [router.use(protect)] and the route table; [None]
    when no route of the router answers. *)
Definition serve (v : Version) (env : Env) (h : HttpRequest) (st : Store)
    : option (Response * Store) :=
  match protect h with
  | inl unauthenticated => Some (unauthenticated, st)
  | inr u =>
      match dispatch (routes v) (h_method h) (h_path h) with
      | None => None
      | Some (r, ps) =>
          let b := if r_validation r then fst (expenseValidation (h_body h))
                   else h_body h in
          Some (run v (r_handler r) env u ps b (h_query h) st)
      end
  end.

(** ** Sample data *)

Definition alice : ObjectId := Oid "aaaaaaaaaaaaaaaaaaaaaaaa".
Definition bob : ObjectId := Oid "bbbbbbbbbbbbbbbbbbbbbbbb".
Definition root : ObjectId := Oid "dddddddddddddddddddddddd".
Definition coffee_id : ObjectId := Oid "111111111111111111111111".
Definition lunch_id : ObjectId := Oid "222222222222222222222222".

(** 10 June 2024, 06:13:20 UTC, on a server whose local time is UTC. *)
Definition june_2024 : Env :=
  mkEnv 1718000000000 0 (Oid "cccccccccccccccccccccccc").

Definition sample_hash (p : string) : string := "bcrypt:" ++ p.

Definition sample_compare (candidate stored : string) : bool :=
  String.eqb (sample_hash candidate) stored.

Fixpoint has_at (s : string) : bool :=
  match s with
  | EmptyString => false
  | String c r => (Nat.eqb (nat_of_ascii c) 64 || has_at r)%bool
  end.

Definition alice_doc : User.t :=
  User.mk alice "Alice" "alice@example.com" (sample_hash "wonderland")
    RoleUser 0 "USD" true (Some 1700000000000) 1690000000000.

(** A deactivated account. *)
Definition bob_doc : User.t :=
  User.mk bob "Bob" "bob@example.com" (sample_hash "builder")
    RoleUser 0 "USD" false None 1690000000000.

Definition root_doc : User.t :=
  User.mk root "Admin" "admin@expenseease.com" (sample_hash "admin123456")
    RoleAdmin 0 "USD" true None 1690000000000.

Definition sample_config : Config :=
  mkConfig "admin@expenseease.com" "admin123456".

Definition coffee : Expense.t :=
  Expense.mk coffee_id alice "Coffee" 5 "Food & Dining" 1718000000000.

(** An expense of 31 December 2024, noon UTC. *)
Definition new_years_eve_lunch : Expense.t :=
  Expense.mk lunch_id alice "Lunch" 20 "Food & Dining" 1735646400000.

Definition no_body : ExpenseBody := plain_body None None None None.

Definition no_query : ListQuery :=
  mkListQuery None None None None None None None None None None.

Definition as_user (i : ObjectId) : ReqUser.t := ReqUser.mk i RoleUser.
Definition as_admin (i : ObjectId) : ReqUser.t := ReqUser.mk i RoleAdmin.

Definition carol_body : AuthBody :=
  mkAuthBody (Some "Carol") (Some "carol@example.com") (Some "secret12")
    None None.

(** A second clock reading and identifier, for a request that follows. *)
Definition a_moment_later : Env :=
  mkEnv 1718000000001 0 (Oid "eeeeeeeeeeeeeeeeeeeeeeee").

(** A registration with the operator's email. *)
Definition mallory_body : AuthBody :=
  mkAuthBody (Some "Mallory") (Some "admin@expenseease.com")
    (Some "letmein1") None None.

Definition admin_body : AuthBody :=
  mkAuthBody None (Some "admin@expenseease.com") (Some "admin123456")
    None None.

(** ** Well-formed stores and answers *)

(** The store's own indexes: [_id] is unique in every collection, and the
    user collection has a unique index on [email]. *)
Definition unique_ids (st : Store) : Prop :=
  NoDup (map User._id (users st)).

Definition unique_emails (st : Store) : Prop :=
  NoDup (map User.email (users st)).

(** A page of a list answer that agrees with its pagination block:
    [matching] documents satisfy the filter, [tp] is the ceiling of
    [matching / limit], and a page past [tp] is empty. *)
Definition consistent_page (r : Response) (matching page limit : Z) : Prop :=
  exists items tp,
    r = success 200 None
          (DataExpenses items
             (mkPagination page (Num tp) matching limit))
    /\ (tp - 1) * limit < matching <= tp * limit
    /\ Z.of_nat (List.length items) <= limit
    /\ (tp < page -> items = []).

(** ** The admin dashboard and the user administration *)

(** [select('name email createdAt lastLogin')]. *)
Record RecentUser : Type := mkRecentUser {
  ru_id : ObjectId;
  ru_name : string;
  ru_email : string;
  ru_createdAt : Z;
  ru_lastLogin : option Z
}.

Record Dashboard : Type := mkDashboard {
  totalUsers : Z;
  activeUsers : Z;
  d_totalExpenses : Group unit;
  d_expensesByCategory : list (Group string);
  recentUsers : list RecentUser;
  d_recentExpenses : list Populated;
  d_monthlyExpenses : list (Group Z)
}.

Definition is_user (u : User.t) : bool := role_eqb (User.role u) RoleUser.

Definition select_recent_user (u : User.t) : RecentUser :=
  mkRecentUser (User._id u) (User.name u) (User.email u) (User.createdAt u)
    (User.lastLogin u).

(** [getDashboardStats]: the data of its 200 answer.  The admin controller
    and the handler inline in the admin router differ in the window of the
    monthly pipeline only; no pipeline here has an owner in its [$match]
    and no call can throw. *)
Definition getDashboardStats (v : Version) (env : Env) (st : Store)
    : Dashboard :=
  mkDashboard
    (Z.of_nat (List.length (filter is_user (users st))))
    (Z.of_nat (List.length
                 (filter (fun u => (is_user u && User.isActive u)%bool)
                    (users st))))
    (first_or_zero (group_all (expenses st)))
    (by_category (expenses st))
    (map select_recent_user
       (firstn 5
          (sort_by (fun a b => User.createdAt b <=? User.createdAt a)
             (filter is_user (users st)))))
    (map (populate st)
       (firstn 5
          (sort_by (fun a b => Expense.date b <=? Expense.date a)
             (expenses st))))
    (match v with
     | Controller => dashboard_monthly env st
     | Inline => router_dashboard_monthly env st
     end).

(** An answer of the user administration: status, message and data. *)
Record Reply (A : Type) : Type := mkReply {
  rp_status : Z;
  rp_message : option string;
  rp_data : option A
}.
Arguments mkReply {A} rp_status rp_message rp_data.
Arguments rp_status {A} r.
Arguments rp_message {A} r.
Arguments rp_data {A} r.

(** A user document as a query returns it: the password is excluded. *)
Record PublicUser : Type := mkPublicUser {
  pu_id : ObjectId;
  pu_name : string;
  pu_email : string;
  pu_role : Role;
  pu_monthlyBudget : Z;
  pu_currency : string;
  pu_isActive : bool;
  pu_lastLogin : option Z;
  pu_createdAt : Z
}.

Definition without_password (u : User.t) : PublicUser :=
  mkPublicUser (User._id u) (User.name u) (User.email u) (User.role u)
    (User.monthlyBudget u) (User.currency u) (User.isActive u)
    (User.lastLogin u) (User.createdAt u).

Definition role_name (r : Role) : string :=
  match r with
  | RoleUser => "user"
  | RoleAdmin => "admin"
  end.

Record UserQuery : Type := mkUserQuery {
  uq_page : option Z;            (* parseInt(page) when given *)
  uq_limit : option Z;           (* parseInt(limit) when given *)
  uq_search : option string;
  uq_role : option string;
  uq_isActive : option string
}.

Definition user_page (q : UserQuery) : Z :=
  match uq_page q with Some p => p | None => 1 end.

Definition user_limit (q : UserQuery) : Z :=
  match uq_limit q with Some l => l | None => 10 end.

(** [getUserById]. *)
Definition getUserById (target : string) (st : Store) : Reply PublicUser :=
  match User_findById st target with
  | Throw err => mkReply 500 (Some "Failed to get user") None
  | Ok None => mkReply 404 (Some "User not found") None
  | Ok (Some u) => mkReply 200 None (Some (without_password u))
  end.

Section UserList.

(** [{ $regex: pattern, $options: 'i' }] as the store evaluates it: the
    predicate on the subject, or nothing for a pattern the store rejects. *)
Variable regex_i : string -> option (string -> bool).

(** The filter object of [getAllUsers]. *)
Definition users_filter (q : UserQuery) : Except (User.t -> bool) :=
  tryE by_search <-
    (if truthy (uq_search q)
     then match uq_search q with
          | Some s =>
              match regex_i s with
              | Some m =>
                  Ok (fun u => (m (User.name u) || m (User.email u))%bool)
              | None => Throw "Regular expression is invalid"
              end
          | None => Ok (fun _ => true)
          end
     else Ok (fun _ => true));
  Ok (fun u =>
        (by_search u
         && (if truthy (uq_role q)
             then match uq_role q with
                  | Some r => String.eqb (role_name (User.role u)) r
                  | None => true
                  end
             else true)
         && match uq_isActive q with
            | Some s => Bool.eqb (User.isActive u) (String.eqb s "true")
            | None => true
            end)%bool).

(** [getAllUsers]: newest first, paged, without passwords. *)
Definition getAllUsers (q : UserQuery) (st : Store)
    : Reply (list PublicUser * Pagination) :=
  match users_filter q with
  | Throw err => mkReply 500 (Some "Failed to get users") None
  | Ok f =>
      let matching := filter f (users st) in
      let skip := (user_page q - 1) * user_limit q in
      match skip_limit skip (user_limit q)
              (sort_by (fun a b => User.createdAt b <=? User.createdAt a)
                 matching) with
      | Throw err => mkReply 500 (Some "Failed to get users") None
      | Ok page =>
          let total := Z.of_nat (List.length matching) in
          mkReply 200 None
            (Some (map without_password page,
                   mkPagination (user_page q)
                     (ceil_div total (user_limit q)) total (user_limit q)))
      end
  end.

End UserList.

(** The fields an update of a user may carry. *)
Record UserUpdate : Type := mkUserUpdate {
  up_name : option string;
  up_email : option string;
  up_role : option string;
  up_monthlyBudget : option Z;
  up_currency : option string;
  up_isActive : option bool
}.

(** [User.findOne({ email, _id: { $ne: id } })]. *)
Definition find_other_with_email (st : Store) (e i : string)
    : Except (option User.t) :=
  tryE o <- castObjectId i;
  Ok (find (fun u => (String.eqb (User.email u) e
                      && negb (oid_eqb (User._id u) o))%bool) (users st)).

(** The email check that opens [updateProfile] and [updateUser]. *)
Definition email_taken (st : Store) (email : option string) (i : string)
    : Except (option User.t) :=
  if truthy email
  then match email with
       | Some e => find_other_with_email st e i
       | None => Ok None
       end
  else Ok None.

Section UserUpdates.

(** [User.findByIdAndUpdate(id, update, { new: true, runValidators: true })]:
    what an [undefined] entry of the update does to the stored field differs
    between the versions of the library, so the operation is taken as it
    is. *)
Variable User_findByIdAndUpdate :
  Store -> string -> UserUpdate -> Except (option User.t * Store).

(** [updateProfile]: the update handed to the store holds the name, the
    email, the budget and the currency of the body and nothing else. *)
Definition updateProfile (caller : ReqUser.t) (b : UserUpdate) (st : Store)
    : Reply (option PublicUser) * Store :=
  match email_taken st (up_email b) (ReqUser.id caller) with
  | Throw err => (mkReply 500 (Some "Failed to update profile") None, st)
  | Ok (Some _) => (mkReply 400 (Some "Email is already taken") None, st)
  | Ok None =>
      match User_findByIdAndUpdate st (ReqUser.id caller)
              (mkUserUpdate (up_name b) (up_email b) None
                 (up_monthlyBudget b) (up_currency b) None) with
      | Throw err => (mkReply 500 (Some "Failed to update profile") None, st)
      | Ok (u, st') =>
          (mkReply 200 (Some "Profile updated successfully")
             (Some (option_map without_password u)), st')
      end
  end.

(** [updateUser] of the admin controller. *)
Definition updateUser (target : string) (b : UserUpdate) (st : Store)
    : Reply (option PublicUser) * Store :=
  match email_taken st (up_email b) target with
  | Throw err => (mkReply 500 (Some "Failed to update user") None, st)
  | Ok (Some _) => (mkReply 400 (Some "Email is already taken") None, st)
  | Ok None =>
      match User_findByIdAndUpdate st target b with
      | Throw err => (mkReply 500 (Some "Failed to update user") None, st)
      | Ok (None, st') => (mkReply 404 (Some "User not found") None, st')
      | Ok (Some u, st') =>
          (mkReply 200 (Some "User updated successfully")
             (Some (Some (without_password u))), st')
      end
  end.

End UserUpdates.

Definition set_password (u : User.t) (h : string) : User.t :=
  User.mk (User._id u) (User.name u) (User.email u) h (User.role u)
    (User.monthlyBudget u) (User.currency u) (User.isActive u)
    (User.lastLogin u) (User.createdAt u).

Section Password.

Variable hashPassword : string -> string.
Variable comparePassword : string -> string -> bool.

(** [changePassword].  Modelled from the spec for what models/User.js
    does on save: the new password is stored as its hash. *)
Definition changePassword (caller : ReqUser.t)
    (currentPassword newPassword : option string) (st : Store)
    : Response * Store :=
  match currentPassword, newPassword with
  | Some cur, Some new =>
      if (negb (truthy (Some cur)) || negb (truthy (Some new)))%bool
      then (failure 400 "Please provide current and new password", st)
      else
        match User_findById st (ReqUser.id caller) with
        | Throw err => (caught "Failed to change password" err, st)
        | Ok None =>
            (caught "Failed to change password"
               "Cannot read properties of null (reading 'comparePassword')",
             st)
        | Ok (Some u) =>
            if negb (comparePassword cur (User.password u))
            then (failure 400 "Current password is incorrect", st)
            else
              match User_save st (set_password u (hashPassword new)) with
              | Throw err => (caught "Failed to change password" err, st)
              | Ok st' =>
                  (success 200 (Some "Password changed successfully") NoData,
                   st')
              end
        end
  | _, _ => (failure 400 "Please provide current and new password", st)
  end.

End Password.

(** ** Predicates of the further properties *)

(** The [_id] index of the expense collection. *)
Definition unique_expense_ids (st : Store) : Prop :=
  NoDup (map Expense._id (expenses st)).

(** Neighbours in the list are in the order [le]. *)
Fixpoint ordered {A} (le : A -> A -> bool) (l : list A) : Prop :=
  match l with
  | [] => True
  | x :: r =>
      match r with
      | [] => True
      | y :: _ => le x y = true
      end /\ ordered le r
  end.

(** The items of a list answer. *)
Definition items_of (r : Response) : list Populated :=
  match data r with
  | DataExpenses es _ => es
  | _ => []
  end.

(** The same query for another page. *)
Definition with_page (q : ListQuery) (p : Z) : ListQuery :=
  mkListQuery (Some p) (q_limit q) (q_userId q) (q_category q)
    (q_startDate q) (q_endDate q) (q_minAmount q) (q_maxAmount q)
    (q_sortBy q) (q_sortOrder q).

(** The items of the pages 1 to [n], one after the other. *)
Fixpoint pages_up_to (req : ListRequest) (st : Store) (n : nat)
    : list Populated :=
  match n with
  | O => []
  | S k =>
      pages_up_to req st k
      ++ items_of (getExpenses
                     (mkListRequest (l_user req)
                        (with_page (l_query req) (Z.of_nat (S k)))) st)
  end.

Definition sum_totals {K} (gs : list (Group K)) : Z :=
  fold_right (fun g acc => total g + acc) 0 gs.

Definition sum_counts {K} (gs : list (Group K)) : Z :=
  fold_right (fun g acc => count g + acc) 0 gs.

(** The total and the count of the row of a key, if it has one. *)
Fixpoint row_of {K} (eqb : K -> K -> bool) (k : K) (gs : list (Group K))
    : option (Z * Z) :=
  match gs with
  | [] => None
  | g :: r =>
      if eqb (g_id g) k then Some (total g, count g) else row_of eqb k r
  end.

(** A row after one more document of its key. *)
Definition bump (o : option (Z * Z)) (a : Z) : option (Z * Z) :=
  match o with
  | Some (t, c) => Some (t + a, c + 1)
  | None => Some (a, 1)
  end.

(** The documents of one key. *)
Definition matching_key {K} (eqb : K -> K -> bool) (key : Expense.t -> K)
    (k : K) (l : list Expense.t) : list Expense.t :=
  filter (fun e => eqb (key e) k) l.

(** A row after the documents [l] of its key. *)
Definition row_after (o : option (Z * Z)) (l : list Expense.t)
    : option (Z * Z) :=
  match l, o with
  | [], _ => o
  | _, Some (t, c) =>
      Some (t + sum_amount l, c + Z.of_nat (List.length l))
  | _, None => Some (sum_amount l, Z.of_nat (List.length l))
  end.

(** Text in which a byte is a character: the lengths and the white space
    of the validators and of the schema are then those of [len] and
    [trim]. *)
Fixpoint ascii_text (s : string) : bool :=
  match s with
  | EmptyString => true
  | String c r => (Nat.ltb (nat_of_ascii c) 128 && ascii_text r)%bool
  end.

(** A body that carries a title, an amount, a category and a date (or some
    of them) and beside them at most a [user]: no [_id], none of the
    optional paths, and no date that cannot be read. *)
Definition core_only (b : ExpenseBody) : Prop :=
  b__id b = None
  /\ b_description b = None
  /\ b_paymentMethod b = None
  /\ b_location b = None
  /\ b_tags b = None
  /\ b_recurringType b = None
  /\ b_status b = None
  /\ b_date b <> Some NotADate.

(** [{ $sum: '$amount' }] over the documents of a group: the accumulator
    starts at 0 and takes them in the order the stage receives them. *)
Definition sum_in_order (l : list Expense.t) : Z :=
  fold_left (fun acc e => acc + Expense.amount e) l 0.

(** Amounts on which the store's arithmetic of doubles is that of the
    integers: none is negative and together they stay within 2^53, so that
    every partial sum is a whole number a double holds exactly. *)
Definition exact_sums (l : list Expense.t) : Prop :=
  (forall e, In e l -> 0 <= Expense.amount e)
  /\ sum_amount l <= 2 ^ 53.

(** Every document of the list stands before all that follow it. *)
Fixpoint in_order {A} (le : A -> A -> bool) (l : list A) : Prop :=
  match l with
  | [] => True
  | x :: r => (forall y, In y r -> le x y = true) /\ in_order le r
  end.

(** * Properties *)

(** ** Identifiers and lookups *)

Lemma oid_eqb_refl (o : ObjectId) : oid_eqb o o = true.
Proof. unfold oid_eqb. apply String.eqb_refl. Qed.

Lemma oid_eqb_eq (a b : ObjectId) : oid_eqb a b = true <-> a = b.
Proof.
  unfold oid_eqb. rewrite String.eqb_eq.
  destruct a, b; simpl; split; congruence.
Qed.

Lemma find_user_In (i : ObjectId) (l : list User.t) (u : User.t) :
  find_user i l = Some u -> In u l /\ User._id u = i.
Proof.
  induction l as [|x r IH]; simpl; [discriminate|].
  destruct (oid_eqb (User._id x) i) eqn:E.
  - intros [= <-]. apply oid_eqb_eq in E. auto.
  - intros H. destruct (IH H). auto.
Qed.

Lemma find_expense_In (i : ObjectId) (l : list Expense.t) (e : Expense.t) :
  find_expense i l = Some e -> In e l /\ Expense._id e = i.
Proof.
  induction l as [|x r IH]; simpl; [discriminate|].
  destruct (oid_eqb (Expense._id x) i) eqn:E.
  - intros [= <-]. apply oid_eqb_eq in E. auto.
  - intros H. destruct (IH H). auto.
Qed.

Lemma find_email_In (e : string) (l : list User.t) (u : User.t) :
  find_email e l = Some u -> In u l /\ User.email u = e.
Proof.
  induction l as [|x r IH]; simpl; [discriminate|].
  destruct (String.eqb (User.email x) e) eqn:E.
  - intros [= <-]. apply String.eqb_eq in E. auto.
  - intros H. destruct (IH H). auto.
Qed.

(** ** Ownership (C1) *)

Section Ownership.

Variables (req : Request) (st : Store) (e : Expense.t).
Hypothesis found : Expense_findById st (params_id req) = Ok (Some e).

(** With the owner's document in the store, [getExpense] answers by the
    ownership test alone. *)
Lemma getExpense_owner_present (u : User.t) :
  find_user (Expense.user e) (users st) = Some u ->
  getExpense req st =
    if not_authorized e (user req)
    then failure 403 "Not authorized to access this expense"
    else success 200 None (DataPopulated (populate st e)).
Proof.
  intros Hu. unfold getExpense, populate, not_authorized.
  rewrite found. simpl. rewrite Hu. simpl.
  apply find_user_In in Hu as [_ ->]. reflexivity.
Qed.

Lemma getExpense_forbidden (u : User.t) :
  find_user (Expense.user e) (users st) = Some u ->
  toString (Expense.user e) <> ReqUser.id (user req) ->
  ReqUser.role (user req) <> RoleAdmin ->
  getExpense req st = failure 403 "Not authorized to access this expense".
Proof.
  intros Hu Hne Hr. rewrite (getExpense_owner_present u Hu).
  unfold not_authorized, is_admin.
  apply String.eqb_neq in Hne. rewrite Hne.
  destruct (ReqUser.role (user req)); [reflexivity | congruence].
Qed.

Lemma getExpense_admin (u : User.t) :
  find_user (Expense.user e) (users st) = Some u ->
  ReqUser.role (user req) = RoleAdmin ->
  getExpense req st = success 200 None (DataPopulated (populate st e)).
Proof.
  intros Hu Hr. rewrite (getExpense_owner_present u Hu).
  unfold not_authorized, is_admin. rewrite Hr.
  now rewrite andb_false_r.
Qed.

(** The update and delete handlers test the stored owner, whatever the
    state of the user collection. *)
Lemma updateExpense_forbidden :
  not_authorized e (user req) = true ->
  updateExpense req st =
    (failure 403 "Not authorized to update this expense", st).
Proof. intros H. unfold updateExpense. now rewrite found, H. Qed.

Lemma deleteExpense_forbidden :
  not_authorized e (user req) = true ->
  deleteExpense req st =
    (failure 403 "Not authorized to delete this expense", st).
Proof. intros H. unfold deleteExpense. now rewrite found, H. Qed.

Lemma deleteExpense_admin :
  ReqUser.role (user req) = RoleAdmin ->
  deleteExpense req st =
    (success 200 (Some "Expense deleted successfully") NoData,
     Expense_deleteOne st e).
Proof.
  intros Hr. unfold deleteExpense, not_authorized, is_admin.
  now rewrite found, Hr, andb_false_r.
Qed.

Lemma updateExpense_admin (e' : Expense.t) :
  ReqUser.role (user req) = RoleAdmin ->
  apply_update (body req) e = Ok e' ->
  exists st',
    updateExpense req st =
      (success 200 (Some "Expense updated successfully")
         (DataPopulated (populate st' e')), st').
Proof.
  intros Hr Hup. unfold updateExpense, not_authorized, is_admin.
  rewrite found, Hr, andb_false_r.
  unfold Expense_findByIdAndUpdate.
  unfold Expense_findById in found.
  destruct (castObjectId (params_id req)) as [o|]; simpl in *; [|discriminate].
  injection found as ->. rewrite Hup. simpl. eauto.
Qed.

End Ownership.

(** C1.  When the document of an expense's owner is gone from the user
    collection, [getExpense] answers 500 for every caller: neither the 403
    of a stranger nor the 200 of an admin or of the owner. *)
Theorem getExpense_deleted_owner (req : Request) (st : Store) (e : Expense.t) :
  Expense_findById st (params_id req) = Ok (Some e) ->
  find_user (Expense.user e) (users st) = None ->
  getExpense req st =
    caught "Failed to get expense"
      "Cannot read properties of null (reading '_id')".
Proof.
  intros Hf Hu. unfold getExpense, populate. rewrite Hf. simpl.
  now rewrite Hu.
Qed.

Lemma getExpense_deleted_owner_witness :
  let req := mkRequest (as_admin root) "111111111111111111111111" no_body in
  let st := mkStore [root_doc] [coffee] in
  Expense_findById st (params_id req) = Ok (Some coffee)
  /\ find_user (Expense.user coffee) (users st) = None
  /\ getExpense req st =
       caught "Failed to get expense"
         "Cannot read properties of null (reading '_id')".
Proof.
  intros req st. split; [reflexivity|]. split; [reflexivity|].
  apply (getExpense_deleted_owner req st coffee); reflexivity.
Defined.

(** The state of the lemma above arises from the handlers themselves: Alice
    records an expense, the admin deletes her account, and the expense is
    then out of reach of [getExpense] while [deleteExpense] still serves
    it. *)
Example orphan_expense_scenario :
  let st0 := mkStore [alice_doc; root_doc] [] in
  let create := mkRequest (as_user alice) EmptyString
                  (plain_body (Some "Coffee") (Some 5)
                     (Some "Food & Dining") None) in
  let st1 := snd (createExpense june_2024 create st0) in
  let st2 := snd (deleteUser (as_admin root) "aaaaaaaaaaaaaaaaaaaaaaaa" st1) in
  let get := mkRequest (as_admin root) "cccccccccccccccccccccccc" no_body in
  status (getExpense get st1) = 200
  /\ status (getExpense get st2) = 500
  /\ status (fst (deleteExpense get st2)) = 200.
Proof. repeat split; reflexivity. Qed.

(** ** Validation of a created expense (C2) *)

Lemma create_route (v : Version) :
  dispatch (routes v) POST [] = Some (mkRoute POST [] true H_create, []).
Proof. destruct v; reflexivity. Qed.

Lemma Expense_create_rejects (env : Env) (st : Store) (b : ExpenseBody)
    (owner : string) :
  (exists a, b_amount b = Some a /\ a < 0)
  \/ (exists c, b_category b = Some c /\ mem_string c category_enum = false) ->
  exists err, Expense_create env st b owner = Throw err.
Proof.
  intros H. unfold Expense_create.
  destruct (castObjectId owner); simpl; [|eauto].
  destruct (validate_title (b_title b)); simpl; [|eauto].
  destruct H as [(amt & Ha & Hneg) | (cat & Hc & Hout)].
  - rewrite Ha. simpl. apply Z.ltb_lt in Hneg. rewrite Hneg. simpl. eauto.
  - destruct (validate_amount (b_amount b)); simpl; [|eauto].
    rewrite Hc. unfold validate_category. rewrite Hout.
    destruct (String.eqb cat EmptyString); simpl; eauto.
Qed.

(** C2.  A create request with a negative amount or a category outside
    the enum passes the validation chains, which record the finding without
    answering; the handler runs, the schema rejects the document, and the
    answer is the handler's 500.  Nothing is stored. *)
Theorem create_invalid_answers_500 (v : Version) (env : Env)
    (h : HttpRequest) (u : ReqUser.t) (st : Store) :
  h_method h = POST ->
  h_path h = [] ->
  h_user h = Some u ->
  (exists a, b_amount (h_body h) = Some a /\ a < 0)
  \/ (exists c, b_category (h_body h) = Some c
                /\ mem_string c category_enum = false) ->
  snd (expenseValidation (h_body h)) <> []
  /\ exists err,
       serve v env h st = Some (caught "Failed to create expense" err, st).
Proof.
  intros Hm Hp Hu Hbad. split.
  - unfold expenseValidation. cbn [snd].
    destruct Hbad as [(amt & Ha & Hneg) | (cat & Hc & Hout)].
    + rewrite Ha. apply Z.ltb_lt in Hneg. rewrite Hneg.
      intros E. apply app_eq_nil in E as [_ E].
      apply app_eq_nil in E as [E _]. discriminate.
    + rewrite Hc, Hout.
      intros E. apply app_eq_nil in E as [_ E].
      apply app_eq_nil in E as [_ E]. discriminate.
  - unfold serve, protect. rewrite Hu, Hm, Hp, create_route. simpl.
    unfold createExpense. simpl.
    destruct (Expense_create_rejects env st
                (fst (expenseValidation (h_body h))) (ReqUser.id u))
      as [err Herr]; [exact Hbad|].
    unfold expenseValidation in Herr. simpl in Herr.
    rewrite Herr. eauto.
Qed.

Lemma create_invalid_answers_500_witness :
  let h := mkHttpRequest POST [] (Some (as_user alice))
             (plain_body (Some "Coffee") (Some (-1))
                (Some "Food & Dining") None) no_query in
  let st := mkStore [alice_doc] [] in
  snd (expenseValidation (h_body h)) <> []
  /\ exists err,
       serve Controller june_2024 h st
       = Some (caught "Failed to create expense" err, st).
Proof.
  intros h st.
  apply (create_invalid_answers_500 Controller june_2024 h (as_user alice) st);
    try reflexivity.
  left. exists (-1). split; [reflexivity | lia].
Defined.

(** ** Store invariants *)

Lemma replace_user_ids (u' : User.t) (l : list User.t) :
  map User._id (replace_user u' l) = map User._id l.
Proof.
  induction l as [|x r IH]; simpl; [reflexivity|].
  destruct (oid_eqb (User._id x) (User._id u')) eqn:E; simpl.
  - apply oid_eqb_eq in E. now rewrite E.
  - now rewrite IH.
Qed.

Lemma find_email_replace (l : list User.t) (e : string) (u u' : User.t) :
  NoDup (map User._id l) ->
  find_email e l = Some u ->
  User._id u' = User._id u ->
  User.email u' = User.email u ->
  find_email e (replace_user u' l) = Some u'
  /\ map User.email (replace_user u' l) = map User.email l.
Proof.
  intros Hnd Hf Hid Hem. induction l as [|x r IH]; simpl in *; [discriminate|].
  inversion Hnd as [|? ? Hnotin Hnd']; subst.
  destruct (String.eqb (User.email x) e) eqn:E.
  - injection Hf as ->. rewrite Hid, oid_eqb_refl. simpl.
    rewrite Hem, E. auto.
  - destruct (find_email_In _ _ _ Hf) as [Hin _].
    destruct (oid_eqb (User._id x) (User._id u')) eqn:E'.
    + apply oid_eqb_eq in E'. exfalso. apply Hnotin.
      rewrite E', Hid. now apply in_map.
    + simpl. rewrite E. destruct (IH Hnd' Hf) as [-> ->]. auto.
Qed.

Lemma find_email_app_new (e : string) (l : list User.t) (u : User.t) :
  find_email e l = None -> User.email u = e ->
  find_email e (l ++ [u]) = Some u.
Proof.
  intros Hn He. induction l as [|x r IH]; simpl in *.
  - now rewrite He, String.eqb_refl.
  - destruct (String.eqb (User.email x) e); [discriminate | auto].
Qed.

Lemma find_email_None_notin (e : string) (l : list User.t) :
  find_email e l = None -> ~ In e (map User.email l).
Proof.
  induction l as [|x r IH]; simpl; [tauto|].
  destruct (String.eqb (User.email x) e) eqn:E; [discriminate|].
  apply String.eqb_neq in E. intros Hn [H|H]; [congruence | now apply IH].
Qed.

Lemma NoDup_snoc {A} (l : list A) (a : A) :
  NoDup l -> ~ In a l -> NoDup (l ++ [a]).
Proof.
  intros Hnd Hn. induction Hnd as [|x r Hx Hr IH]; simpl.
  - constructor; [tauto | constructor].
  - constructor.
    + rewrite in_app_iff. simpl. intros [H|[H|[]]]; [tauto|].
      subst. apply Hn. now left.
    + apply IH. intros H. apply Hn. now right.
Qed.

Section AccountProperties.

Variable isEmail : string -> bool.
Variable normalizeEmail : string -> string.
Variable hashPassword : string -> string.
Variable comparePassword : string -> string -> bool.

Lemma User_create_ok (env : Env) (st st' : Store) (d : NewUser) (u : User.t) :
  User_create isEmail hashPassword env st d = Ok (u, st') ->
  n_email d = Some (User.email u)
  /\ find_email (User.email u) (users st) = None
  /\ User._id u = freshId env
  /\ User.role u = match n_role d with Some r => r | None => RoleUser end
  /\ st' = mkStore (users st ++ [u]) (expenses st).
Proof.
  unfold User_create.
  destruct (n_name d) as [n|]; [|discriminate].
  destruct (n_email d) as [e|]; [|discriminate].
  destruct (n_password d) as [p|]; [|discriminate].
  repeat match goal with
         | |- context [if ?c then _ else _] =>
             destruct c eqn:?; [discriminate|]
         end.
  intros [= <- <-]. simpl. auto.
Qed.

Lemma User_create_taken (env : Env) (st : Store) (d : NewUser) (e : string)
    (u : User.t) :
  n_email d = Some e ->
  find_email e (users st) = Some u ->
  exists err, User_create isEmail hashPassword env st d = Throw err.
Proof.
  intros He Hf. unfold User_create. rewrite He, Hf.
  destruct (n_name d); [|eauto]. destruct (n_password d); [|eauto].
  repeat match goal with
         | |- context [if ?c then _ else _] => destruct c; [eauto|]
         end.
  eauto.
Qed.

(** A successful [register] leaves a user with the submitted email. *)
Lemma register_created (env : Env) (b : AuthBody) (st st1 : Store)
    (r : Response) :
  register isEmail hashPassword env b st = (r, st1) ->
  status r = 201 ->
  exists e u,
    a_email b = Some e
    /\ User_findOne st e = None
    /\ User_findOne st1 e = Some u
    /\ st1 = mkStore (users st ++ [u]) (expenses st).
Proof.
  unfold register, register_after_lookup.
  destruct (register_lookup b st) eqn:Hl.
  { intros [= <- <-]. discriminate. }
  destruct (User_create _ _ _ _ _) as [[u st']|err] eqn:Hc.
  2:{ intros [= <- <-]. discriminate. }
  intros [= <- <-] _.
  apply User_create_ok in Hc as (He & Hn & _ & _ & ->). simpl in He.
  exists (User.email u), u. unfold User_findOne. simpl.
  repeat split; auto. now apply find_email_app_new.
Qed.

Lemma register_after_lookup_unique (env : Env) (b : AuthBody)
    (found : option User.t) (st st' : Store) (r : Response) :
  register_after_lookup isEmail hashPassword env b found st = (r, st') ->
  unique_emails st -> unique_emails st'.
Proof.
  unfold register_after_lookup. destruct found.
  { now intros [= <- <-]. }
  destruct (User_create _ _ _ _ _) as [[u st1]|err] eqn:Hc.
  2:{ now intros [= <- <-]. }
  intros [= <- <-] Hu.
  apply User_create_ok in Hc as (_ & Hn & _ & _ & ->).
  unfold unique_emails in *. simpl. rewrite map_app. simpl.
  apply NoDup_snoc; [assumption | now apply find_email_None_notin].
Qed.

End AccountProperties.

(** ** Login (C3) *)

Lemma truthy_Some (s : string) : s <> EmptyString -> truthy (Some s) = true.
Proof. destruct s; [congruence | reflexivity]. Qed.

Lemma find_user_of_In (u : User.t) (l : list User.t) :
  In u l -> exists x, find_user (User._id u) l = Some x.
Proof.
  induction l as [|y r IH]; simpl; [tauto|].
  intros [->|H].
  - rewrite oid_eqb_refl. eauto.
  - destruct (oid_eqb (User._id y) (User._id u)); eauto.
Qed.

Lemma User_save_found (st : Store) (e : string) (u u' : User.t) :
  unique_ids st ->
  User_findOne st e = Some u ->
  User._id u' = User._id u ->
  User.email u' = User.email u ->
  exists st',
    User_save st u' = Ok st'
    /\ User_findOne st' e = Some u'
    /\ expenses st' = expenses st
    /\ map User.email (users st') = map User.email (users st)
    /\ map User._id (users st') = map User._id (users st).
Proof.
  intros Hids Hf Hid Hem. unfold User_save.
  destruct (find_email_In _ _ _ Hf) as [Hin _].
  destruct (find_user_of_In u (users st) Hin) as [x Hx].
  rewrite Hid, Hx. eexists. split; [reflexivity|].
  destruct (find_email_replace (users st) e u u' Hids Hf Hid Hem) as [H1 H2].
  unfold User_findOne. simpl. rewrite replace_user_ids. auto.
Qed.

(** C3, counterexample.  A deactivated account and a wrong password: the
    answer is the one for bad credentials, not the one for a deactivated
    account. *)
Lemma login_inactive_wrong_password :
  let st := mkStore [alice_doc; bob_doc] [] in
  let b := mkAuthBody None (Some "bob@example.com") (Some "guess") None None in
  User_findOne st "bob@example.com" = Some bob_doc
  /\ User.isActive bob_doc = false
  /\ login sample_compare june_2024 b st
     = (failure 401 "Invalid email or password", st)
  /\ fst (login sample_compare june_2024 b st)
     <> failure 401 "Account is deactivated. Please contact support.".
Proof. repeat split; try reflexivity. discriminate. Qed.

Section Login.

Variable comparePassword : string -> string -> bool.

(** C3, amended.  For a login naming an existing user: a wrong password is
    answered 401 "Invalid email or password" whether or not the account
    is active; the right password on a deactivated account is answered 401
    "Account is deactivated"; the right password on an active account
    succeeds and stores the current time as [lastLogin], which is not
    before the previous value when the clock has not run backwards. *)
Theorem login_outcomes (env : Env) (b : AuthBody) (st : Store)
    (e p : string) (u : User.t) :
  a_email b = Some e ->
  a_password b = Some p ->
  e <> EmptyString ->
  p <> EmptyString ->
  unique_ids st ->
  User_findOne st e = Some u ->
  (forall t, User.lastLogin u = Some t -> t <= now env) ->
  (comparePassword p (User.password u) = false ->
   login comparePassword env b st
   = (failure 401 "Invalid email or password", st))
  /\ (comparePassword p (User.password u) = true ->
      User.isActive u = false ->
      login comparePassword env b st
      = (failure 401 "Account is deactivated. Please contact support.", st))
  /\ (comparePassword p (User.password u) = true ->
      User.isActive u = true ->
      exists st' u' n,
        login comparePassword env b st
        = (success 200 (Some "Login successful")
             (DataAuth (view u' true) (generateToken (User._id u))), st')
        /\ User_findOne st' e = Some u'
        /\ User.lastLogin u' = Some n
        /\ n = now env
        /\ (forall t, User.lastLogin u = Some t -> t <= n)
        /\ expenses st' = expenses st).
Proof.
  intros He Hp Hne Hnp Hids Hf Hclock.
  unfold login. rewrite He, Hp, (truthy_Some e Hne), (truthy_Some p Hnp).
  cbn [negb orb]. rewrite Hf.
  split; [|split].
  - intros ->. reflexivity.
  - intros -> ->. reflexivity.
  - intros -> ->. cbn [negb].
    destruct (User_save_found st e u (User.set_lastLogin u (now env)))
      as (st' & Hs & Hf' & Hex & _); auto.
    rewrite Hs. exists st', (User.set_lastLogin u (now env)), (now env).
    repeat split; auto.
Qed.

End Login.

Lemma login_outcomes_witness :
  let st := mkStore [alice_doc; bob_doc] [] in
  let b := mkAuthBody None (Some "alice@example.com") (Some "wonderland")
             None None in
  unique_ids st
  /\ User_findOne st "alice@example.com" = Some alice_doc
  /\ (sample_compare "wonderland" (User.password alice_doc) = true ->
      User.isActive alice_doc = true ->
      exists st' u' n,
        login sample_compare june_2024 b st
        = (success 200 (Some "Login successful")
             (DataAuth (view u' true) (generateToken (User._id alice_doc))),
           st')
        /\ User_findOne st' "alice@example.com" = Some u'
        /\ User.lastLogin u' = Some n
        /\ n = now june_2024
        /\ (forall t, User.lastLogin alice_doc = Some t -> t <= n)
        /\ expenses st' = expenses st).
Proof.
  intros st b.
  assert (Hids : unique_ids st).
  { unfold unique_ids. simpl. repeat constructor; simpl; intuition discriminate. }
  split; [exact Hids|]. split; [reflexivity|].
  apply (login_outcomes sample_compare june_2024 b st
           "alice@example.com" "wonderland" alice_doc);
    try reflexivity; try discriminate; try exact Hids.
  intros t [= <-]. simpl. lia.
Defined.

(** ** Registration (C4) *)

(** C4, counterexample.  Two registrations with one email whose lookups
    both precede the first create: the second create meets the unique
    index and the handler answers its generic 500. *)
Lemma register_race_answers_500 :
  let st := mkStore [alice_doc] [] in
  exists r1 st2,
    register_race has_at sample_hash june_2024 a_moment_later carol_body
      carol_body st
    = (r1, caught "Registration failed" "E11000 duplicate key error", st2)
    /\ status r1 = 201
    /\ status (caught "Registration failed" "E11000 duplicate key error")
       = 500
    /\ List.length (users st2) = 2%nat.
Proof. intros st. do 2 eexists. repeat split. Qed.

Section Register.

Variable isEmail : string -> bool.
Variable normalizeEmail : string -> string.
Variable hashPassword : string -> string.

Lemma registerValidation_email (b : AuthBody) (e : string) :
  a_email b = Some e ->
  a_email (fst (registerValidation isEmail normalizeEmail b))
  = Some (normalizeEmail e).
Proof. intros H. cbn [registerValidation fst a_email]. now rewrite H. Qed.

(** C4, amended.  After a registration that succeeded, a second one whose
    email normalizes to the same value is answered 400 "User already
    exists with this email" when it runs after the first, and the handler's
    500 when both lookups ran before the first create; either way the
    store is the one the first registration left, with exactly one more
    user, and the emails in it stay distinct. *)
Theorem register_same_email_twice (env1 env2 : Env) (b1 b2 : AuthBody)
    (st st1 : Store) (r1 : Response) (e1 e2 : string) :
  a_email b1 = Some e1 ->
  a_email b2 = Some e2 ->
  normalizeEmail e1 = normalizeEmail e2 ->
  post_register isEmail normalizeEmail hashPassword env1 b1 st = (r1, st1) ->
  status r1 = 201 ->
  unique_emails st ->
  post_register isEmail normalizeEmail hashPassword env2 b2 st1
  = (failure 400 "User already exists with this email", st1)
  /\ (exists err,
        register_race isEmail hashPassword env1 env2
          (fst (registerValidation isEmail normalizeEmail b1))
          (fst (registerValidation isEmail normalizeEmail b2)) st
        = (r1, caught "Registration failed" err, st1))
  /\ unique_emails st1
  /\ List.length (users st1) = S (List.length (users st)).
Proof.
  intros H1 H2 Hn Hreg H201 Huniq. unfold post_register in *.
  set (c1 := fst (registerValidation isEmail normalizeEmail b1)) in *.
  set (c2 := fst (registerValidation isEmail normalizeEmail b2)) in *.
  assert (Hc1 : a_email c1 = Some (normalizeEmail e1)).
  { unfold c1. now apply registerValidation_email. }
  assert (Hc2 : a_email c2 = Some (normalizeEmail e1)).
  { unfold c2. rewrite Hn. now apply registerValidation_email. }
  destruct (register_created isEmail hashPassword env1 c1 st st1 r1 Hreg H201)
    as (e & u & He & Hnone & Hsome & Hst1).
  rewrite Hc1 in He. injection He as <-.
  assert (Hl2 : register_lookup c2 st1 = Some u).
  { unfold register_lookup. now rewrite Hc2. }
  assert (Hl2' : register_lookup c2 st = None).
  { unfold register_lookup. now rewrite Hc2. }
  split; [|split; [|split]].
  - unfold register, register_after_lookup. now rewrite Hl2.
  - unfold register_race. fold (register isEmail hashPassword env1 c1 st).
    rewrite Hreg, Hl2'. unfold register_after_lookup.
    destruct (User_create_taken isEmail hashPassword env2 st1
                (mkNewUser (a_name c2) (a_email c2) (a_password c2) None
                   (budget_or_zero (a_monthlyBudget c2))
                   (or_default (a_currency c2) "USD"))
                (normalizeEmail e1) u Hc2 Hsome) as [err ->].
    eauto.
  - eapply register_after_lookup_unique; [exact Hreg | exact Huniq].
  - rewrite Hst1. simpl. rewrite length_app. simpl. lia.
Qed.

End Register.

Lemma register_same_email_twice_witness :
  let st := mkStore [alice_doc] [] in
  let env2 := a_moment_later in
  let shout := mkAuthBody (Some "Carol") (Some "Carol@Example.com")
                 (Some "secret12") None None in
  let '(r1, st1) :=
    post_register has_at lowercase sample_hash june_2024 carol_body st in
  status r1 = 201
  /\ unique_emails st
  /\ post_register has_at lowercase sample_hash env2 shout st1
     = (failure 400 "User already exists with this email", st1)
  /\ unique_emails st1
  /\ List.length (users st1) = S (List.length (users st)).
Proof.
  intros st env2 shout.
  destruct (post_register has_at lowercase sample_hash june_2024 carol_body st)
    as [r1 st1] eqn:Hreg.
  assert (H201 : status r1 = 201).
  { vm_compute in Hreg. injection Hreg as <- <-. reflexivity. }
  assert (Huniq : unique_emails st).
  { unfold unique_emails. simpl. repeat constructor. simpl. tauto. }
  destruct (register_same_email_twice has_at lowercase sample_hash
              june_2024 env2 carol_body shout st st1 r1
              "carol@example.com" "Carol@Example.com")
    as (Hseq & _ & Hu1 & Hlen); try reflexivity; auto.
Defined.

(** ** The email index under the other account handlers *)

Lemma users_without_unique_emails (i : ObjectId) (l : list User.t) :
  NoDup (map User.email l) ->
  NoDup (map User.email
           (filter (fun x => negb (oid_eqb (User._id x) i)) l)).
Proof.
  induction l as [|x r IH]; intros Hnd; simpl; [constructor|].
  inversion Hnd as [|? ? Hx Hr]; subst.
  destruct (negb (oid_eqb (User._id x) i)); [|now apply IH].
  simpl. constructor; [|now apply IH].
  intros Hin. apply Hx. rewrite in_map_iff in *.
  destruct Hin as (y & Hy & Hin). apply filter_In in Hin as [Hin _]. eauto.
Qed.

Lemma User_save_unique_emails (st st' : Store) (e : string) (u : User.t)
    (d : Z) :
  unique_ids st -> unique_emails st ->
  User_findOne st e = Some u ->
  User_save st (User.set_lastLogin u d) = Ok st' ->
  unique_emails st'.
Proof.
  intros Hids Hem Hf Hs.
  destruct (User_save_found st e u (User.set_lastLogin u d))
    as (st1 & Hs1 & _ & _ & Hmap & _); auto.
  rewrite Hs in Hs1. injection Hs1 as <-.
  unfold unique_emails. now rewrite Hmap.
Qed.

Section EmailIndex.

Variable isEmail : string -> bool.
Variable hashPassword : string -> string.
Variable comparePassword : string -> string -> bool.

(** Every handler that writes the user collection leaves the emails in it
    distinct. *)
Lemma account_handlers_keep_unique_emails (cfg : Config) (env : Env)
    (b : AuthBody) (caller : ReqUser.t) (password : option string)
    (target : string) (st : Store) :
  unique_ids st -> unique_emails st ->
  unique_emails (snd (register isEmail hashPassword env b st))
  /\ unique_emails (snd (login comparePassword env b st))
  /\ unique_emails (snd (adminLogin isEmail hashPassword cfg env b st))
  /\ unique_emails (snd (deleteAccount comparePassword caller password st))
  /\ unique_emails (snd (deleteUser caller target st)).
Proof.
  intros Hids Hem. repeat split.
  - destruct (register isEmail hashPassword env b st) as [r st'] eqn:H.
    eapply register_after_lookup_unique; [exact H | exact Hem].
  - unfold login.
    destruct (a_email b) as [e|], (a_password b) as [p|]; try exact Hem.
    destruct (_ || _)%bool; [exact Hem|].
    destruct (User_findOne st e) as [u|] eqn:Hf; [|exact Hem].
    destruct (negb (comparePassword _ _)); [exact Hem|].
    destruct (negb (User.isActive u)); [exact Hem|].
    destruct (User_save st _) as [st'|] eqn:Hs; [|exact Hem].
    simpl. eapply User_save_unique_emails; eauto.
  - unfold adminLogin.
    destruct (a_email b) as [e|], (a_password b) as [p|]; try exact Hem.
    destruct (negb (truthy (Some e)) || negb (truthy (Some p)))%bool;
      [exact Hem|].
    destruct (_ || _)%bool; [exact Hem|].
    destruct (User_findOne st (ADMIN_EMAIL cfg)) as [u|] eqn:Hf.
    + destruct (User_save st _) as [st'|] eqn:Hs; [|exact Hem].
      simpl. eapply User_save_unique_emails; eauto.
    + destruct (User_create _ _ _ _ _) as [[u st']|] eqn:Hc; [|exact Hem].
      apply User_create_ok in Hc as (_ & Hn & _ & _ & ->).
      unfold unique_emails in *. simpl. rewrite map_app. simpl.
      apply NoDup_snoc; [assumption | now apply find_email_None_notin].
  - unfold deleteAccount. destruct password as [p|]; [|exact Hem].
    destruct (negb (truthy (Some p))); [exact Hem|].
    destruct (User_findById st _) as [[u|]|]; try exact Hem.
    destruct (negb (comparePassword _ _)); [exact Hem|].
    apply users_without_unique_emails, Hem.
  - unfold deleteUser.
    destruct (User_findById st target) as [[u|]|]; try exact Hem.
    destruct (String.eqb _ _); [exact Hem|].
    apply users_without_unique_emails, Hem.
Qed.

End EmailIndex.

(** ** Statistics (C5, C7) *)

(** A [$match] of the owner against a string selects nothing, whatever
    the collection holds. *)
Lemma agg_match_string (s : string) (lo hi : option Z) (l : list Expense.t) :
  filter (agg_match (BString s) lo hi) l = [].
Proof. induction l as [|e r IH]; simpl; auto. Qed.

(** With the ObjectId in the [$match], the single group is the sum and
    the number of the owner's expenses in the date range. *)
Lemma agg_match_objectid_totals (o : ObjectId) (lo hi : option Z)
    (l : list Expense.t) :
  let mine := filter (fun e => (oid_eqb (Expense.user e) o
                                && in_range lo hi (Expense.date e))%bool) l in
  first_or_zero (group_all (filter (agg_match (BObjectId o) lo hi) l))
  = mkGroup tt (sum_amount mine) (Z.of_nat (List.length mine)).
Proof.
  intros mine. unfold agg_match. simpl. fold mine.
  destruct mine; reflexivity.
Qed.

(** The statistics handlers answer the same totals and categories whatever
    the store holds. *)
Lemma getExpenseStats_totals (env : Env) (req : StatsRequest) (st : Store) :
  status (getExpenseStats env req st) = 500
  \/ exists months recent,
       getExpenseStats env req st
       = success 200 None
           (DataStats (mkStats (mkGroup tt 0 0) [] months recent)).
Proof.
  unfold getExpenseStats. rewrite !agg_match_string.
  destruct (castObjectId _); [right; eauto | left; reflexivity].
Qed.

Lemma router_stats_empty (env : Env) (req : StatsRequest) (st : Store) :
  router_stats env req st
  = success 200 None (DataStats (mkStats (mkGroup tt 0 0) [] [] None)).
Proof.
  unfold router_stats. rewrite !agg_match_string.
  replace (filter _ (expenses st)) with (@nil Expense.t); [reflexivity|].
  induction (expenses st) as [|e r IH]; simpl; auto.
Qed.

(** The totals of [getExpenseStats] do not depend on the clock: asked
    twice of one store, it answers the same totals. *)
Lemma getExpenseStats_totals_stable (env1 env2 : Env) (req : StatsRequest)
    (st : Store) :
  totals_of (getExpenseStats env1 req st)
  = totals_of (getExpenseStats env2 req st).
Proof.
  unfold getExpenseStats. destruct (castObjectId _); reflexivity.
Qed.

(** C5.  Alice has one expense of 5 and asks for her statistics without a
    date range: the answer is a total of 0 over 0 expenses, where the sum
    and the number of her expenses are 5 and 1.  The list of recent
    expenses of the same answer, read through [find], has the expense. *)
Theorem getExpenseStats_total_misses_expenses :
  let st := mkStore [alice_doc] [coffee] in
  let req := mkStatsRequest (as_user alice) None None in
  let mine := filter (fun e => oid_eqb (Expense.user e) alice) (expenses st) in
  sum_amount mine = 5
  /\ List.length mine = 1%nat
  /\ getExpenseStats june_2024 req st
     = success 200 None
         (DataStats (mkStats (mkGroup tt 0 0) [] [mkGroup 6 5 1]
                       (Some [select_recent coffee]))).
Proof. repeat split. Qed.

Lemma days_from_civil_december_31 (y : Z) :
  days_from_civil y 12 31 + 1 = days_from_civil (y + 1) 1 1.
Proof.
  unfold days_from_civil.
  change (12 <=? 2) with false. change (2 <? 12) with true.
  change (1 <=? 2) with true. change (2 <? 1) with false.
  cbv beta zeta iota. replace (y + 1 - 1) with y by lia.
  change ((153 * (12 - 3) + 2) / 5) with 275.
  change ((153 * (1 + 9) + 2) / 5) with 306. lia.
Qed.

(** The day after [new Date(y, 11, 31)] is [new Date(y + 1, 0, 1)]. *)
Lemma new_Date_december_31 (env : Env) (y : Z) :
  100 <= y ->
  new_Date env y 11 31 + ms_per_day = new_Date env (y + 1) 0 1.
Proof.
  intros Hy. unfold new_Date.
  replace ((0 <=? y) && (y <=? 99))%bool with false by lia.
  replace ((0 <=? y + 1) && (y + 1 <=? 99))%bool with false by lia.
  change (11 + 1) with 12. change (0 + 1) with 1.
  rewrite <- days_from_civil_december_31. unfold ms_per_day. lia.
Qed.

Lemma days_from_civil_january_december (y : Z) :
  days_from_civil y 1 1 + 364 <= days_from_civil y 12 31.
Proof.
  unfold days_from_civil.
  change (12 <=? 2) with false. change (2 <? 12) with true.
  change (1 <=? 2) with true. change (2 <? 1) with false.
  cbv beta zeta iota.
  change ((153 * (12 - 3) + 2) / 5) with 275.
  change ((153 * (1 + 9) + 2) / 5) with 306.
  Z.div_mod_to_equations. lia.
Qed.

(** The windows differ in every year: each instant after midnight of 31
    December and before the new year is inside the half-open window and
    outside the inclusive one. *)
Lemma windows_differ (env : Env) (d : Z) :
  100 <= getFullYear env ->
  new_Date env (getFullYear env) 11 31 < d
  < new_Date env (getFullYear env + 1) 0 1 ->
  window_half_open env d = true /\ window_inclusive env d = false.
Proof.
  intros Hy [Hlo Hhi].
  assert (Hle : new_Date env (getFullYear env) 0 1
                <= new_Date env (getFullYear env) 11 31).
  { unfold new_Date.
    replace ((0 <=? getFullYear env) && (getFullYear env <=? 99))%bool
      with false by lia.
    change (11 + 1) with 12. change (0 + 1) with 1.
    pose proof (days_from_civil_january_december (getFullYear env)).
    unfold ms_per_day. lia. }
  unfold window_half_open, window_inclusive, in_half_open, in_range.
  split.
  - apply andb_true_iff. split; [apply Z.leb_le | apply Z.ltb_lt]; lia.
  - apply andb_false_iff. right. apply Z.leb_gt. lia.
Qed.

(** ** Pagination (C6) *)

Lemma length_insert_by {A} (le : A -> A -> bool) (x : A) (l : list A) :
  List.length (insert_by le x l) = S (List.length l).
Proof.
  induction l as [|y r IH]; simpl; [reflexivity|].
  destruct (le x y); simpl; auto.
Qed.

Lemma length_sort_by {A} (le : A -> A -> bool) (l : list A) :
  List.length (sort_by le l) = List.length l.
Proof.
  induction l as [|x r IH]; simpl; [reflexivity|].
  unfold sort_by in *. simpl. now rewrite length_insert_by, IH.
Qed.

(** For a positive limit [ceil_div] is the ceiling of the quotient. *)
Lemma ceil_div_positive (total limit : Z) :
  1 <= limit ->
  exists tp, ceil_div total limit = Num tp
             /\ (tp - 1) * limit < total <= tp * limit.
Proof.
  intros Hl. unfold ceil_div.
  replace (limit =? 0) with false by lia.
  eexists. split; [reflexivity|].
  Z.div_mod_to_equations. nia.
Qed.

(** The page cut out of [n] sorted documents. *)
Lemma skip_limit_page {A} (page limit : Z) (l : list A) :
  1 <= page -> 1 <= limit ->
  exists items,
    skip_limit ((page - 1) * limit) limit l = Ok items
    /\ Z.of_nat (List.length items) <= limit
    /\ (Z.of_nat (List.length l) <= (page - 1) * limit -> items = []).
Proof.
  intros Hp Hl. unfold skip_limit.
  replace ((page - 1) * limit <? 0) with false by nia.
  replace (limit =? 0) with false by lia.
  eexists. split; [reflexivity|]. split.
  - rewrite length_firstn. lia.
  - intros Hlen. rewrite skipn_all2; [now destruct (Z.to_nat (Z.abs limit))|].
    lia.
Qed.

Lemma paged_answer (st : Store) (q : ListQuery) (matching : list Expense.t) :
  1 <= page_of q -> 1 <= limit_of q ->
  consistent_page
    match skip_limit ((page_of q - 1) * limit_of q) (limit_of q)
            (sort_by (sort_le q) matching) with
    | Throw err => caught "Failed to get expenses" err
    | Ok page =>
        success 200 None
          (DataExpenses (map (populate st) page)
             (mkPagination (page_of q)
                (ceil_div (Z.of_nat (List.length matching)) (limit_of q))
                (Z.of_nat (List.length matching)) (limit_of q)))
    end
    (Z.of_nat (List.length matching)) (page_of q) (limit_of q).
Proof.
  intros Hp Hl.
  destruct (skip_limit_page (page_of q) (limit_of q)
              (sort_by (sort_le q) matching) Hp Hl)
    as (items & -> & Hlen & Hempty).
  destruct (ceil_div_positive (Z.of_nat (List.length matching)) (limit_of q) Hl)
    as (tp & -> & Hlo & Hhi).
  exists (map (populate st) items), tp.
  rewrite length_map. repeat split; auto.
  intros Hpast. rewrite Hempty; [reflexivity|].
  rewrite length_sort_by. nia.
Qed.

(** A limit of 0 is no limit for the store and a division by zero for
    the pagination block: every page holds every matching document and
    [totalPages] is [Infinity]. *)
Example getExpenses_zero_limit :
  let q := mkListQuery (Some 3) (Some 0) None None None None None None
             None None in
  let st := mkStore [alice_doc] [coffee] in
  getExpenses (mkListRequest (as_user alice) q) st
  = success 200 None
      (DataExpenses [populate st coffee] (mkPagination 3 Infinity 1 0)).
Proof. reflexivity. Qed.




(** ** Admin login (C8) *)

(** C8.  Nobody has logged in as admin yet, and Mallory registers with
    the operator's email: [POST /register] answers 201 and stores her with
    role user.  The operator's credentials are then submitted to
    [POST /admin-login]: the handler looks the user up by the email alone,
    finds Mallory, and answers 200 "Admin login successful" with a token
    for her; her role is still user and the store holds no admin.  Where
    the lookup finds nobody the handler creates the user with role admin,
    which is what the found branch does not see to. *)
Theorem admin_login_serves_a_user :
  let registered :=
    post_register has_at lowercase sample_hash june_2024 mallory_body
      (mkStore [] []) in
  let answered :=
    post_admin_login has_at lowercase sample_hash sample_config
      a_moment_later admin_body (snd registered) in
  status (fst registered) = 201
  /\ a_email admin_body = Some (ADMIN_EMAIL sample_config)
  /\ a_password admin_body = Some (ADMIN_PASSWORD sample_config)
  /\ (exists u st2,
        answered
        = (success 200 (Some "Admin login successful")
             (DataAuth (view u true) (generateToken (User._id u))), st2)
        /\ User.name u = "Mallory"
        /\ User.role u = RoleUser
        /\ v_role (view u true) = RoleUser
        /\ users st2 = [u])
  /\ (exists u st2,
        post_admin_login has_at lowercase sample_hash sample_config
          a_moment_later admin_body (mkStore [alice_doc] [])
        = (success 200 (Some "Admin login successful")
             (DataAuth (view u true) (generateToken (User._id u))), st2)
        /\ User.role u = RoleAdmin
        /\ users st2 = [alice_doc; u]).
Proof.
  cbv zeta. split; [reflexivity|]. split; [reflexivity|].
  split; [reflexivity|]. split; do 2 eexists; repeat split.
Qed.

(** The credentials are compared after the validation chain has
    normalized the email: with an operator's email that is not in
    normalized form, the very credentials of the configuration are
    answered 401. *)
Example post_admin_login_mixed_case :
  let cfg := mkConfig "Admin@ExpenseEase.com" "admin123456" in
  let b := mkAuthBody None (Some "Admin@ExpenseEase.com")
             (Some "admin123456") None None in
  let st := mkStore [root_doc] [] in
  a_email b = Some (ADMIN_EMAIL cfg)
  /\ a_password b = Some (ADMIN_PASSWORD cfg)
  /\ post_admin_login has_at lowercase sample_hash cfg june_2024 b st
     = (failure 401 "Invalid admin credentials", st).
Proof. repeat split. Qed.

(** On the branch that creates the admin, the handler sets no [lastLogin];
    what the new document holds there is the schema's. *)
Example adminLogin_created_branch :
  let st := mkStore [alice_doc] [] in
  exists u' st',
    adminLogin has_at sample_hash sample_config june_2024 admin_body st
    = (success 200 (Some "Admin login successful")
         (DataAuth (view u' true) (generateToken (User._id u'))), st')
    /\ User.role u' = RoleAdmin
    /\ User.lastLogin u' = None
    /\ users st' = [alice_doc; u'].
Proof. intros st. do 2 eexists. repeat split. Qed.

(** A request without one of the two fields is answered 400, before the
    credentials are looked at. *)
Lemma adminLogin_missing_field (isEmail : string -> bool)
    (hashPassword : string -> string) (cfg : Config) (env : Env)
    (b : AuthBody) (st : Store) :
  truthy (a_email b) = false \/ truthy (a_password b) = false ->
  adminLogin isEmail hashPassword cfg env b st
  = (failure 400 "Please provide email and password", st).
Proof.
  unfold adminLogin.
  destruct (a_email b) as [e|], (a_password b) as [p|]; try reflexivity.
  intros [-> | ->]; [reflexivity|]. now rewrite orb_true_r.
Qed.

Section AdminLogin.

Variable isEmail : string -> bool.
Variable hashPassword : string -> string.

(** The outcomes of the handler on the body the validation chain hands
    it, with both fields given: unless both equal the configured
    credentials the answer is 401 "Invalid admin credentials" and the
    store is untouched; when they do and a user with the configured email
    exists, that user's [lastLogin] becomes the current time, everything
    else of the document stays, and the token is issued for it; when no
    such user exists and the create goes through, the new user has role
    admin and the token is issued for it. *)
Lemma adminLogin_outcomes (cfg : Config) (env : Env) (b : AuthBody)
    (st : Store) (e p : string) :
  a_email b = Some e ->
  a_password b = Some p ->
  e <> EmptyString ->
  p <> EmptyString ->
  unique_ids st ->
  (e <> ADMIN_EMAIL cfg \/ p <> ADMIN_PASSWORD cfg ->
   adminLogin isEmail hashPassword cfg env b st
   = (failure 401 "Invalid admin credentials", st))
  /\ (e = ADMIN_EMAIL cfg -> p = ADMIN_PASSWORD cfg ->
      forall u, User_findOne st (ADMIN_EMAIL cfg) = Some u ->
      exists st',
        let u' := User.set_lastLogin u (now env) in
        adminLogin isEmail hashPassword cfg env b st
        = (success 200 (Some "Admin login successful")
             (DataAuth (view u' true) (generateToken (User._id u))), st')
        /\ User_findOne st' (ADMIN_EMAIL cfg) = Some u'
        /\ User.role u' = User.role u
        /\ User.lastLogin u' = Some (now env)
        /\ expenses st' = expenses st)
  /\ (e = ADMIN_EMAIL cfg -> p = ADMIN_PASSWORD cfg ->
      User_findOne st (ADMIN_EMAIL cfg) = None ->
      forall u st',
        User_create isEmail hashPassword env st
          (mkNewUser (Some "Admin") (Some (ADMIN_EMAIL cfg))
             (Some (ADMIN_PASSWORD cfg)) (Some RoleAdmin) 0 "USD")
        = Ok (u, st') ->
        adminLogin isEmail hashPassword cfg env b st
        = (success 200 (Some "Admin login successful")
             (DataAuth (view u true) (generateToken (User._id u))), st')
        /\ User.role u = RoleAdmin
        /\ User_findOne st' (ADMIN_EMAIL cfg) = Some u
        /\ expenses st' = expenses st).
Proof.
  intros He Hp Hne Hnp Hids.
  unfold adminLogin. rewrite He, Hp, (truthy_Some e Hne), (truthy_Some p Hnp).
  cbn [negb orb]. split; [|split].
  - intros [H|H]; apply String.eqb_neq in H; rewrite H;
      [reflexivity | now rewrite orb_true_r].
  - intros -> -> u Hu. rewrite !String.eqb_refl. cbn [negb orb]. rewrite Hu.
    destruct (User_save_found st (ADMIN_EMAIL cfg) u
                (User.set_lastLogin u (now env)))
      as (st' & Hs & Hf' & Hex & _); auto.
    rewrite Hs. exists st'. repeat split; auto.
  - intros -> -> Hnone u st' Hc. rewrite !String.eqb_refl. cbn [negb orb].
    rewrite Hnone, Hc.
    apply User_create_ok in Hc as (Hem & Hn & _ & Hr & ->).
    simpl in Hem, Hr. injection Hem as Hem.
    repeat split; auto.
    unfold User_findOne. simpl. rewrite Hem. now apply find_email_app_new.
Qed.

Variable normalizeEmail : string -> string.

(** Through the route: credentials that differ from the configured ones,
    the email taken as the validation chain normalizes it, are answered
    401 and nothing is written. *)
Lemma post_admin_login_mismatch (cfg : Config) (env : Env) (b : AuthBody)
    (st : Store) (e p : string) :
  a_email b = Some e ->
  a_password b = Some p ->
  normalizeEmail e <> EmptyString ->
  p <> EmptyString ->
  normalizeEmail e <> ADMIN_EMAIL cfg \/ p <> ADMIN_PASSWORD cfg ->
  post_admin_login isEmail normalizeEmail hashPassword cfg env b st
  = (failure 401 "Invalid admin credentials", st).
Proof.
  intros He Hp Hne Hnp Hbad. unfold post_admin_login, adminLogin.
  cbn [loginValidation fst a_email a_password]. rewrite He, Hp.
  cbn [sanitized].
  rewrite (truthy_Some _ Hne), (truthy_Some _ Hnp). cbn [negb orb].
  destruct Hbad as [H|H]; apply String.eqb_neq in H; rewrite H;
    [reflexivity | now rewrite orb_true_r].
Qed.

End AdminLogin.

Lemma adminLogin_outcomes_witness :
  let st := mkStore [alice_doc; root_doc] [] in
  unique_ids st
  /\ User_findOne st (ADMIN_EMAIL sample_config) = Some root_doc
  /\ exists st',
       let u' := User.set_lastLogin root_doc (now june_2024) in
       adminLogin has_at sample_hash sample_config june_2024 admin_body st
       = (success 200 (Some "Admin login successful")
            (DataAuth (view u' true) (generateToken (User._id root_doc))), st')
       /\ User_findOne st' (ADMIN_EMAIL sample_config) = Some u'
       /\ User.role u' = User.role root_doc
       /\ User.lastLogin u' = Some (now june_2024)
       /\ expenses st' = expenses st.
Proof.
  intros st.
  assert (Hids : unique_ids st).
  { unfold unique_ids. simpl. repeat constructor; simpl; intuition discriminate. }
  split; [exact Hids|]. split; [reflexivity|].
  destruct (adminLogin_outcomes has_at sample_hash sample_config june_2024
              admin_body st "admin@expenseease.com" "admin123456")
    as (_ & Hfound & _); try reflexivity; try discriminate; try exact Hids.
  apply (Hfound eq_refl eq_refl root_doc eq_refl).
Defined.

(** ** Deleting a user (C9) *)

(** C9.  Whatever the outcome of the self-service [deleteAccount] and of
    the admin [deleteUser], the expense collection afterwards is the one
    before; the user collection is either the one before or the one before
    without the documents that carry the deleted user's [_id]. *)
Theorem delete_user_keeps_expenses (comparePassword : string -> string -> bool)
    (caller : ReqUser.t) (password : option string) (target : string)
    (st : Store) :
  let own := deleteAccount comparePassword caller password st in
  let other := deleteUser caller target st in
  expenses (snd own) = expenses st
  /\ (snd own = st
      \/ exists u,
           User_findById st (ReqUser.id caller) = Ok (Some u)
           /\ status (fst own) = 200
           /\ users (snd own)
              = filter (fun x => negb (oid_eqb (User._id x) (User._id u)))
                  (users st))
  /\ expenses (snd other) = expenses st
  /\ (snd other = st
      \/ exists u,
           User_findById st target = Ok (Some u)
           /\ status (fst other) = 200
           /\ users (snd other)
              = filter (fun x => negb (oid_eqb (User._id x) (User._id u)))
                  (users st)).
Proof.
  cbv zeta. unfold deleteAccount, deleteUser.
  split; [|split; [|split]].
  - destruct password as [p|]; [|reflexivity].
    destruct (negb (truthy (Some p))); [reflexivity|].
    destruct (User_findById st (ReqUser.id caller)) as [[u|]|]; try reflexivity.
    destruct (negb (comparePassword p (User.password u))); reflexivity.
  - destruct password as [p|]; [|now left].
    destruct (negb (truthy (Some p))); [now left|].
    destruct (User_findById st (ReqUser.id caller)) as [[u|]|];
      try (now left).
    destruct (negb (comparePassword p (User.password u))); [now left|].
    right. exists u. repeat split.
  - destruct (User_findById st target) as [[u|]|]; try reflexivity.
    destruct (String.eqb _ _); reflexivity.
  - destruct (User_findById st target) as [[u|]|]; try (now left).
    destruct (String.eqb _ _); [now left|].
    right. exists u. repeat split.
Qed.

(** ** Route order (C10) *)

Lemma match_literal (s : string) (path : list string)
    (ps : list (string * string)) :
  match_path [Lit s] path = Some ps ->
  exists x, path = [x] /\ lowercase s = lowercase x.
Proof.
  destruct path as [|x [|y rest]]; simpl; try discriminate.
  - destruct (String.eqb (lowercase s) (lowercase x)) eqn:E; [|discriminate].
    apply String.eqb_eq in E. eauto.
  - destruct (String.eqb (lowercase s) (lowercase x)); discriminate.
Qed.

Lemma match_parameter (n x : string) :
  x <> EmptyString -> match_path [Param n] [x] = Some [(n, x)].
Proof.
  intros H. simpl. apply String.eqb_neq in H. now rewrite H.
Qed.

Lemma dispatch_inline_never_stats (m : Method) (path : list string) :
  match dispatch (routes Inline) m path with
  | Some (r, _) => r_handler r <> H_stats
  | None => True
  end.
Proof.
  destruct m; cbn -[match_path];
    repeat match goal with
           | |- context [match match_path ?p path with _ => _ end] =>
               destruct (match_path p path) eqn:?
           end;
    cbn; try exact I; try discriminate.
  exfalso.
  match goal with
  | H : match_path [Lit _] path = Some _ |- _ =>
      apply match_literal in H as (x & -> & Hx)
  end.
  assert (Hne : x <> EmptyString) by (intros ->; discriminate).
  match goal with
  | H : match_path [Param _] [x] = None |- _ =>
      rewrite (match_parameter _ x Hne) in H; discriminate
  end.
Qed.

(** C10.  In the older router a GET of [/stats] matches the route of
    [/:id], which binds [id] to "stats"; for an authenticated caller the
    get-by-id handler answers it, and what it answers is the cast error of
    the value "stats"; no request reaches the statistics handler.  In
    routes/expense.js the same request is answered by the statistics
    handler; the two routers answer it differently. *)
Theorem stats_route_shadowed :
  dispatch (routes Inline) GET ["stats"]
  = Some (mkRoute GET [Param "id"] false H_getById, [("id", "stats")])
  /\ (forall env u b q st,
        serve Inline env (mkHttpRequest GET ["stats"] (Some u) b q) st
        = Some (getExpense (mkRequest u "stats" b) st, st))
  /\ (forall u b st,
        getExpense (mkRequest u "stats" b) st
        = caught "Failed to get expense" (CastError "stats"))
  /\ (forall m path,
        match dispatch (routes Inline) m path with
        | Some (r, _) => r_handler r <> H_stats
        | None => True
        end)
  /\ (forall env u b q st,
        serve Controller env (mkHttpRequest GET ["stats"] (Some u) b q) st
        = Some (getExpenseStats env
                  (mkStatsRequest u (q_startDate q) (q_endDate q)) st, st))
  /\ (exists env h st, serve Inline env h st <> serve Controller env h st).
Proof.
  split; [reflexivity|]. split; [reflexivity|]. split; [reflexivity|].
  split; [exact dispatch_inline_never_stats|].
  split; [reflexivity|].
  exists june_2024,
    (mkHttpRequest GET ["stats"] (Some (as_user alice)) no_body no_query),
    (mkStore [alice_doc] [coffee]).
  discriminate.
Qed.

(** * Further properties of the handlers *)

(** ** Creating an expense *)

Lemma trim_left_head (s : string) :
  match trim_left s with
  | EmptyString => True
  | String c _ => is_space c = false
  end.
Proof.
  induction s as [|c r IH]; simpl; [exact I|].
  destruct (is_space c) eqn:E; [exact IH | exact E].
Qed.

Lemma trim_right_again (s : string) : trim_right (trim_right s) = trim_right s.
Proof.
  induction s as [|c r IH]; simpl; [reflexivity|].
  destruct (trim_right r) as [|c' t] eqn:E.
  - destruct (is_space c) eqn:Ec; simpl; [reflexivity | now rewrite Ec].
  - simpl in *. now rewrite IH.
Qed.

Lemma trim_left_kept (s : string) :
  match s with
  | EmptyString => True
  | String c _ => is_space c = false
  end ->
  trim_left (trim_right s) = trim_right s.
Proof.
  destruct s as [|c r]; simpl; [reflexivity|]. intros Hc.
  destruct (trim_right r); [|simpl; now rewrite Hc].
  rewrite Hc. simpl. now rewrite Hc.
Qed.

(** Trimming a trimmed string changes nothing: the schema's [trim] after
    the validation chain's [trim()] is the identity. *)
Lemma trim_trim (s : string) : trim (trim s) = trim s.
Proof.
  unfold trim. rewrite (trim_left_kept (trim_left s) (trim_left_head s)).
  apply trim_right_again.
Qed.

Lemma len_zero (s : string) : (len s <? 1) = String.eqb s EmptyString.
Proof.
  destruct s as [|c r]; [reflexivity|].
  unfold len. cbn [String.length String.eqb].
  apply Z.ltb_ge. lia.
Qed.

(** The findings of the validation chains on a body without the optional
    fields. *)
Lemma expenseValidation_clean (b : ExpenseBody) :
  core_only b ->
  snd (expenseValidation b) = [] <->
  (exists t, b_title b = Some t /\ trim t <> EmptyString
             /\ len (trim t) <= 100)
  /\ (exists a, b_amount b = Some a /\ 0 <= a)
  /\ (exists c, b_category b = Some c /\ mem_string c category_enum = true).
Proof.
  intros (_ & Hd & Hpm & Hl & Htg & Hr & Hs & _).
  unfold expenseValidation. cbn [snd].
  rewrite Hd, Hpm, Hl, Htg, Hr, Hs.
  cbn [option_map finding_max finding_enum app]. rewrite app_nil_r.
  unfold sanitized. split.
  - intros H. apply app_eq_nil in H as [Ht H].
    apply app_eq_nil in H as [Ha Hc].
    destruct (b_amount b) as [a|]; [|discriminate].
    destruct (b_category b) as [c|]; [|discriminate].
    rewrite len_zero in Ht.
    destruct (b_title b) as [t|]; [|discriminate].
    destruct (String.eqb (trim t) EmptyString) eqn:E1; [discriminate|].
    destruct (100 <? len (trim t)) eqn:E2; [discriminate|].
    destruct (a <? 0) eqn:E3; [discriminate|].
    destruct (mem_string c category_enum) eqn:E4; [|discriminate].
    apply String.eqb_neq in E1.
    repeat split; eexists; repeat split; try reflexivity; try assumption; lia.
  - intros ((t & -> & Hne & Hlen) & (a & -> & Ha) & (c & -> & Hc)).
    rewrite len_zero, Hc.
    apply String.eqb_neq in Hne. rewrite Hne.
    replace (100 <? len (trim t)) with false by lia.
    replace (a <? 0) with false by lia. reflexivity.
Qed.

Lemma validate_optional_core (b : ExpenseBody) :
  core_only b -> validate_optional (fst (expenseValidation b)) = Ok tt.
Proof.
  intros (_ & Hd & Hpm & Hl & Htg & Hr & Hs & _).
  unfold validate_optional, expenseValidation.
  cbn [fst b_description b_paymentMethod b_location b_tags b_recurringType
       b_status].
  now rewrite Hd, Hpm, Hl, Htg, Hr, Hs.
Qed.



(** ** Looking up what was created or deleted *)

Lemma to_lower_again (c : ascii) : to_lower (to_lower c) = to_lower c.
Proof.
  destruct c as [[] [] [] [] [] [] [] []]; reflexivity.
Qed.

Lemma to_lower_hex (c : ascii) :
  is_hex_digit c = true -> is_hex_digit (to_lower c) = true.
Proof.
  destruct c as [[] [] [] [] [] [] [] []]; intros H; try discriminate H;
    reflexivity.
Qed.

Lemma lowercase_again (s : string) : lowercase (lowercase s) = lowercase s.
Proof.
  induction s as [|c r IH]; simpl; [reflexivity|].
  now rewrite to_lower_again, IH.
Qed.

Lemma lowercase_length (s : string) :
  String.length (lowercase s) = String.length s.
Proof. induction s as [|c r IH]; simpl; congruence. Qed.

Lemma lowercase_hex (s : string) :
  all_hex s = true -> all_hex (lowercase s) = true.
Proof.
  induction s as [|c r IH]; simpl; [reflexivity|].
  intros H. apply andb_true_iff in H as [Hc Hr].
  now rewrite (to_lower_hex c Hc), (IH Hr).
Qed.

(** The identifier a cast yields casts to itself. *)
Lemma castObjectId_canonical (s : string) (o : ObjectId) :
  castObjectId s = Ok o -> castObjectId (toString o) = Ok o.
Proof.
  unfold castObjectId.
  destruct (Nat.eqb (String.length s) 24 && all_hex s)%bool eqn:E;
    [|discriminate].
  intros [= <-]. simpl. apply andb_true_iff in E as [El Eh].
  now rewrite lowercase_length, El, (lowercase_hex s Eh), lowercase_again.
Qed.

Lemma find_expense_app_new (i : ObjectId) (l : list Expense.t)
    (e : Expense.t) :
  find_expense i l = None -> Expense._id e = i ->
  find_expense i (l ++ [e]) = Some e.
Proof.
  intros Hn Hi. induction l as [|x r IH]; simpl in *.
  - now rewrite Hi, oid_eqb_refl.
  - destruct (oid_eqb (Expense._id x) i); [discriminate | auto].
Qed.

(** An identifier a create accepted is in canonical form and new to the
    collection. *)
Lemma new_id_fresh (env : Env) (st : Store) (v : option string)
    (i : ObjectId) :
  castObjectId (toString (freshId env)) = Ok (freshId env) ->
  find_expense (freshId env) (expenses st) = None ->
  new_id env st v = Ok i ->
  castObjectId (toString i) = Ok i
  /\ find_expense i (expenses st) = None
  /\ (v = None -> i = freshId env).
Proof.
  intros Hfresh Hnew. unfold new_id. destruct v as [s|].
  - destruct (castObjectId s) as [o|] eqn:Ho; cbn [bindE]; [|discriminate].
    destruct (find_expense o (expenses st)) eqn:Hf; [discriminate|].
    intros [= <-]. repeat split; auto.
    + exact (castObjectId_canonical s o Ho).
    + discriminate.
  - intros [= <-]. auto.
Qed.

Lemma createExpense_created (env : Env) (req : Request) (st st' : Store)
    (r : Response) :
  createExpense env req st = (r, st') ->
  status r = 201 ->
  exists e owner,
    castObjectId (ReqUser.id (user req)) = Ok owner
    /\ r = success 201 (Some "Expense created successfully") (DataExpense e)
    /\ new_id env st (b__id (body req)) = Ok (Expense._id e)
    /\ Expense.user e = owner
    /\ 0 <= Expense.amount e
    /\ mem_string (Expense.category e) category_enum = true
    /\ st' = mkStore (users st) (expenses st ++ [e]).
Proof.
  unfold createExpense, Expense_create.
  destruct (castObjectId (ReqUser.id (user req))) as [owner|]; cbn [bindE].
  2:{ intros [= <- <-]. discriminate. }
  destruct (validate_title _) as [t|]; cbn [bindE].
  2:{ intros [= <- <-]. discriminate. }
  destruct (validate_amount _) as [a|] eqn:Ea; cbn [bindE].
  2:{ intros [= <- <-]. discriminate. }
  destruct (validate_category _) as [c|] eqn:Ec; cbn [bindE].
  2:{ intros [= <- <-]. discriminate. }
  destruct (validate_optional _); cbn [bindE].
  2:{ intros [= <- <-]. discriminate. }
  destruct (cast_date _ _) as [d|]; cbn [bindE].
  2:{ intros [= <- <-]. discriminate. }
  destruct (new_id _ _ _) as [i|] eqn:Ei; cbn [bindE].
  2:{ intros [= <- <-]. discriminate. }
  intros [= <- <-] _. do 2 eexists. repeat split; cbn.
  - unfold validate_amount in Ea. destruct (b_amount (body req)) as [z|];
      [|discriminate]. destruct (z <? 0) eqn:Ez; [discriminate|].
    injection Ea as <-. lia.
  - unfold validate_category in Ec.
    destruct (b_category (body req)) as [s|]; [|discriminate].
    destruct (String.eqb s EmptyString); [discriminate|].
    destruct (mem_string s category_enum) eqn:Em; [|discriminate].
    now injection Ec as <-.
Qed.

(** An expense that was created is served back under its identifier (the
    one the driver generated, unless the body named one): to its owner
    with the owner's name and email, and with 403 to every other caller
    who is not an admin. *)
Theorem create_then_get (env : Env) (req : Request) (st st' : Store)
    (r : Response) (doc : User.t) :
  castObjectId (ReqUser.id (user req)) = Ok (ReqUser._id (user req)) ->
  castObjectId (toString (freshId env)) = Ok (freshId env) ->
  find_expense (freshId env) (expenses st) = None ->
  find_user (ReqUser._id (user req)) (users st) = Some doc ->
  createExpense env req st = (r, st') ->
  status r = 201 ->
  exists e,
    data r = DataExpense e
    /\ Expense.user e = ReqUser._id (user req)
    /\ (b__id (body req) = None -> Expense._id e = freshId env)
    /\ (forall b,
          getExpense (mkRequest (user req) (toString (Expense._id e)) b) st'
          = success 200 None
              (DataPopulated
                 (mkPopulated e
                    (Some (mkOwner (User._id doc) (User.name doc)
                             (User.email doc))))))
    /\ (forall other b,
          ReqUser.id other <> ReqUser.id (user req) ->
          ReqUser.role other <> RoleAdmin ->
          getExpense (mkRequest other (toString (Expense._id e)) b) st'
          = failure 403 "Not authorized to access this expense").
Proof.
  intros Hcaller Hfresh Hnew Hdoc Hcreate H201.
  destruct (createExpense_created env req st st' r Hcreate H201)
    as (e & owner & Hcast & -> & Hid & Hown & _ & _ & ->).
  rewrite Hcaller in Hcast. injection Hcast as <-.
  destruct (new_id_fresh env st _ _ Hfresh Hnew Hid)
    as (Hcanon & Habsent & Hdriver).
  exists e. split; [reflexivity|]. split; [exact Hown|].
  split; [exact Hdriver|].
  assert (Hfound : forall who b,
            Expense_findById (mkStore (users st) (expenses st ++ [e]))
              (params_id (mkRequest who (toString (Expense._id e)) b))
            = Ok (Some e)).
  { intros who b. unfold Expense_findById. cbn [params_id].
    rewrite Hcanon. cbn [bindE expenses].
    now rewrite (find_expense_app_new (Expense._id e) (expenses st) e
                   Habsent eq_refl). }
  assert (Hu : find_user (Expense.user e)
                 (users (mkStore (users st) (expenses st ++ [e]))) = Some doc).
  { now rewrite Hown. }
  split.
  - intros b.
    rewrite (getExpense_owner_present _ _ e (Hfound (user req) b) doc Hu).
    unfold not_authorized. cbn [user]. rewrite Hown.
    unfold ReqUser.id. rewrite String.eqb_refl. cbn [negb andb].
    unfold populate. now rewrite Hu.
  - intros other b Hne Hrole.
    apply (getExpense_forbidden _ _ e (Hfound other b) doc Hu); cbn [user].
    + rewrite Hown. intros E. apply Hne. now rewrite <- E.
    + exact Hrole.
Qed.

Lemma find_expense_removed (i : ObjectId) (l : list Expense.t) :
  find_expense i
    (filter (fun x => negb (oid_eqb (Expense._id x) i)) l) = None.
Proof.
  induction l as [|x r IH]; simpl; [reflexivity|].
  destruct (oid_eqb (Expense._id x) i) eqn:E; simpl; [exact IH|].
  now rewrite E.
Qed.

Lemma find_expense_kept (i j : ObjectId) (l : list Expense.t) :
  i <> j ->
  find_expense j
    (filter (fun x => negb (oid_eqb (Expense._id x) i)) l)
  = find_expense j l.
Proof.
  intros Hne. induction l as [|x r IH]; simpl; [reflexivity|].
  destruct (oid_eqb (Expense._id x) i) eqn:E; simpl.
  - apply oid_eqb_eq in E.
    destruct (oid_eqb (Expense._id x) j) eqn:E'; [|exact IH].
    apply oid_eqb_eq in E'. congruence.
  - now rewrite IH.
Qed.

(** After a delete that succeeded, the identifier answers 404 to every
    caller, every other identifier finds what it found before, and the
    user collection is as it was. *)
Theorem delete_then_get (req : Request) (st st' : Store) (r : Response) :
  deleteExpense req st = (r, st') ->
  status r = 200 ->
  (forall who b,
     getExpense (mkRequest who (params_id req) b) st'
     = failure 404 "Expense not found")
  /\ (forall j gone other,
        castObjectId (params_id req) = Ok gone ->
        castObjectId j = Ok other ->
        other <> gone ->
        Expense_findById st' j = Expense_findById st j)
  /\ users st' = users st.
Proof.
  unfold deleteExpense, Expense_findById.
  destruct (castObjectId (params_id req)) as [o|] eqn:Ho; cbn [bindE].
  2:{ intros [= <- <-]. discriminate. }
  destruct (find_expense o (expenses st)) as [e|] eqn:He.
  2:{ intros [= <- <-]. discriminate. }
  destruct (not_authorized e (user req)).
  { intros [= <- <-]. discriminate. }
  intros [= <- <-] _.
  destruct (find_expense_In _ _ _ He) as [_ Hid].
  unfold Expense_deleteOne. rewrite Hid. repeat split.
  - intros who b. unfold getExpense, Expense_findById. cbn [params_id].
    rewrite Ho. cbn [bindE expenses]. now rewrite find_expense_removed.
  - intros j gone other [= <-] Hj Hne. rewrite Hj. cbn [bindE expenses].
    rewrite find_expense_kept; auto.
Qed.

Lemma create_then_get_witness :
  let st := mkStore [alice_doc; bob_doc] [] in
  let req := mkRequest (as_user alice) EmptyString
               (plain_body (Some "Coffee") (Some 5)
                  (Some "Food & Dining") None) in
  let e := Expense.mk (freshId june_2024) alice "Coffee" 5 "Food & Dining"
             (now june_2024) in
  exists st',
    createExpense june_2024 req st
    = (success 201 (Some "Expense created successfully") (DataExpense e), st')
    /\ getExpense (mkRequest (as_user alice) (toString (freshId june_2024))
                     no_body) st'
       = success 200 None
           (DataPopulated
              (mkPopulated e
                 (Some (mkOwner alice "Alice" "alice@example.com"))))
    /\ getExpense (mkRequest (as_user bob) (toString (freshId june_2024))
                     no_body) st'
       = failure 403 "Not authorized to access this expense".
Proof.
  intros st req e.
  destruct (createExpense june_2024 req st) as [r st'] eqn:Hc.
  assert (Hr : r = success 201 (Some "Expense created successfully")
                     (DataExpense e)).
  { vm_compute in Hc. now injection Hc as <- <-. }
  destruct (create_then_get june_2024 req st st' r alice_doc
              eq_refl eq_refl eq_refl eq_refl Hc)
    as (e' & He' & _ & _ & Hown & Hother).
  { now rewrite Hr. }
  rewrite Hr in He'. injection He' as <-.
  exists st'. rewrite Hr. split; [reflexivity|]. split.
  - exact (Hown no_body).
  - apply (Hother (as_user bob) no_body); discriminate.
Defined.

Lemma delete_then_get_witness :
  let st := mkStore [alice_doc] [coffee; new_years_eve_lunch] in
  let req := mkRequest (as_user alice) "111111111111111111111111" no_body in
  exists r st',
    deleteExpense req st = (r, st')
    /\ status r = 200
    /\ getExpense (mkRequest (as_admin root) (params_id req) no_body) st'
       = failure 404 "Expense not found"
    /\ Expense_findById st' "222222222222222222222222"
       = Ok (Some new_years_eve_lunch).
Proof.
  intros st req.
  destruct (deleteExpense req st) as [r st'] eqn:Hd.
  assert (H200 : status r = 200).
  { vm_compute in Hd. now injection Hd as <- <-. }
  destruct (delete_then_get req st st' r Hd H200) as (Hgone & Hkept & _).
  exists r, st'. repeat split; auto.
  rewrite (Hkept "222222222222222222222222" coffee_id lunch_id);
    try reflexivity. discriminate.
Defined.

(** ** What an update and a request of a stranger leave alone *)

Lemma replace_expense_shape (o : ObjectId) (e e' : Expense.t)
    (l : list Expense.t) :
  find_expense o l = Some e ->
  Expense._id e' = Expense._id e ->
  map Expense._id (replace_expense e' l) = map Expense._id l
  /\ (Expense.user e' = Expense.user e ->
      map Expense.user (replace_expense e' l) = map Expense.user l).
Proof.
  intros Hf Hid. induction l as [|y r IH]; simpl in *; [discriminate|].
  destruct (oid_eqb (Expense._id y) o) eqn:E.
  - injection Hf as ->. rewrite Hid, oid_eqb_refl. simpl.
    rewrite Hid. split; [reflexivity|]. now intros ->.
  - destruct (find_expense_In _ _ _ Hf) as [_ He].
    replace (oid_eqb (Expense._id y) (Expense._id e')) with false
      by (now rewrite Hid, He, E).
    simpl. destruct (IH Hf) as [-> Hu]. split; [reflexivity|].
    intros Hown. now rewrite Hu.
Qed.

(** What an update sets: never the identifier, and the owner only when
    the body names one. *)
Lemma apply_update_ids (b : ExpenseBody) (e e' : Expense.t) :
  apply_update b e = Ok e' ->
  Expense._id e' = Expense._id e
  /\ match b_user b with
     | Some s => castObjectId s = Ok (Expense.user e')
     | None => Expense.user e' = Expense.user e
     end.
Proof.
  unfold apply_update.
  destruct (match b_user b with
            | Some s => castObjectId s
            | None => Ok (Expense.user e)
            end) as [u|] eqn:Hu; cbn [bindE]; [|discriminate].
  destruct (present _ _ _); cbn [bindE]; [|discriminate].
  destruct (present _ _ _); cbn [bindE]; [|discriminate].
  destruct (present _ _ _); cbn [bindE]; [|discriminate].
  destruct (validate_optional _); cbn [bindE]; [|discriminate].
  destruct (cast_date _ _); cbn [bindE]; [|discriminate].
  destruct (keep_id _ _); cbn [bindE]; [|discriminate].
  intros [= <-]. cbn [Expense._id Expense.user]. split; [reflexivity|].
  destruct (b_user b); [exact Hu | now injection Hu].
Qed.

Lemma replace_found (o : ObjectId) (e e' : Expense.t) (l : list Expense.t) :
  find_expense o l = Some e ->
  Expense._id e' = Expense._id e ->
  find_expense o (replace_expense e' l) = Some e'
  /\ forall x, In x l -> x <> e -> In x (replace_expense e' l).
Proof.
  intros Hf Hid. induction l as [|y r IH]; simpl in *; [discriminate|].
  destruct (oid_eqb (Expense._id y) o) eqn:E.
  - injection Hf as ->. apply oid_eqb_eq in E.
    rewrite Hid, oid_eqb_refl. simpl. rewrite Hid, E, oid_eqb_refl.
    split; [reflexivity|]. intros x [->|Hx] Hne; [congruence | now right].
  - destruct (find_expense_In _ _ _ Hf) as [_ He].
    replace (oid_eqb (Expense._id y) (Expense._id e')) with false
      by (now rewrite Hid, He, E).
    simpl. rewrite E. destruct (IH Hf) as [-> Hrest].
    split; [reflexivity|]. intros x [->|Hx] Hne; [now left|].
    right. now apply Hrest.
Qed.

(** An update never changes an identifier and never adds or drops a
    document: position by position the collection keeps its identifiers,
    the user collection is untouched, and an answer other than 200 leaves
    the whole store as it was.  After a 200 the identifier finds the
    document that was answered.  The owner is not kept in the same way:
    the body is the update, so a body that names a [user] hands the
    expense to that user, and only without one do the owners stay. *)
Theorem update_keeps_identity (req : Request) (st st' : Store)
    (r : Response) :
  updateExpense req st = (r, st') ->
  users st' = users st
  /\ map Expense._id (expenses st') = map Expense._id (expenses st)
  /\ (status r <> 200 -> st' = st)
  /\ (status r = 200 ->
      exists e', Expense_findById st' (params_id req) = Ok (Some e')
                 /\ data r = DataPopulated (populate st' e')
                 /\ match b_user (body req) with
                    | Some s => castObjectId s = Ok (Expense.user e')
                    | None =>
                        map Expense.user (expenses st')
                        = map Expense.user (expenses st)
                    end).
Proof.
  unfold updateExpense, Expense_findByIdAndUpdate, Expense_findById.
  destruct (castObjectId (params_id req)) as [o|] eqn:Ho; cbn [bindE].
  2:{ intros [= <- <-]. repeat split; auto. discriminate. }
  destruct (find_expense o (expenses st)) as [e|] eqn:He.
  2:{ intros [= <- <-]. repeat split; auto. discriminate. }
  destruct (not_authorized e (user req)).
  { intros [= <- <-]. repeat split; auto. discriminate. }
  destruct (apply_update (body req) e) as [e'|] eqn:Hup; cbn [bindE].
  2:{ intros [= <- <-]. repeat split; auto. discriminate. }
  intros [= <- <-].
  destruct (apply_update_ids _ _ _ Hup) as [Hid Hown].
  destruct (find_expense_In _ _ _ He) as [Hin Heo].
  destruct (replace_found o e e' (expenses st) He Hid) as [Hfound _].
  destruct (replace_expense_shape o e e' (expenses st) He Hid)
    as [Hids Howners].
  cbn [users expenses]. repeat split; auto.
  - intros Hn. exfalso. now apply Hn.
  - intros _. exists e'. rewrite Hfound. repeat split.
    destruct (b_user (body req)); [exact Hown | now apply Howners].
Qed.

Lemma update_keeps_identity_witness :
  let st := mkStore [alice_doc; bob_doc] [coffee; new_years_eve_lunch] in
  let handover :=
    mkExpenseBody (Some "Coffee") (Some 7) (Some "Food & Dining") None None
      (Some (toString bob)) None None None None None None in
  let req := mkRequest (as_user alice) (toString coffee_id) handover in
  status (fst (updateExpense req st)) = 200
  /\ map Expense._id (expenses (snd (updateExpense req st)))
     = [coffee_id; lunch_id]
  /\ map Expense.user (expenses (snd (updateExpense req st)))
     = [bob; alice].
Proof.
  intros st handover req.
  destruct (updateExpense req st) as [r st'] eqn:Hrun.
  destruct (update_keeps_identity req st st' r Hrun) as (_ & Hids & _).
  cbn [fst snd]. rewrite Hids.
  vm_compute in Hrun. injection Hrun as <- <-.
  repeat split.
Defined.

Lemma same_id_same_expense (st : Store) (a b : Expense.t) :
  unique_expense_ids st ->
  In a (expenses st) -> In b (expenses st) ->
  Expense._id a = Expense._id b -> a = b.
Proof.
  unfold unique_expense_ids. induction (expenses st) as [|x l IH]; simpl;
    [tauto|].
  intros Hnd Ha Hb Hid. inversion Hnd as [|? ? Hx Hl]; subst.
  destruct Ha as [->|Ha], Hb as [->|Hb]; auto.
  - exfalso. apply Hx. rewrite Hid. now apply in_map.
  - exfalso. apply Hx. rewrite <- Hid. now apply in_map.
Qed.

Lemma owner_of_authorized (e : Expense.t) (u : ReqUser.t) :
  not_authorized e u = false ->
  ReqUser.role u <> RoleAdmin ->
  toString (Expense.user e) = ReqUser.id u.
Proof.
  unfold not_authorized, is_admin. intros H Hr.
  destruct (String.eqb (toString (Expense.user e)) (ReqUser.id u)) eqn:E.
  - now apply String.eqb_eq.
  - destruct (ReqUser.role u); [discriminate | congruence].
Qed.

Section Strangers.

Variables (u : ReqUser.t) (st : Store) (e : Expense.t).
Hypothesis not_admin : ReqUser.role u <> RoleAdmin.
Hypothesis present_before : In e (expenses st).
Hypothesis of_another : toString (Expense.user e) <> ReqUser.id u.

Lemma updateExpense_spares (i : string) (b : ExpenseBody) :
  In e (expenses (snd (updateExpense (mkRequest u i b) st))).
Proof.
  unfold updateExpense, Expense_findByIdAndUpdate, Expense_findById.
  cbn [params_id user body].
  destruct (castObjectId i) as [o|]; cbn [bindE]; [|assumption].
  destruct (find_expense o (expenses st)) as [e0|] eqn:He; [|assumption].
  destruct (not_authorized e0 u) eqn:Hauth; [assumption|].
  destruct (apply_update b e0) as [e'|] eqn:Hup; cbn [bindE]; [|assumption].
  cbn [snd expenses].
  destruct (apply_update_ids _ _ _ Hup) as [Hid _].
  destruct (replace_found o e0 e' (expenses st) He Hid) as [_ Hrest].
  apply Hrest; [assumption|]. intros ->.
  apply of_another. now apply owner_of_authorized.
Qed.

Lemma deleteExpense_spares (i : string) (b : ExpenseBody) :
  unique_expense_ids st ->
  In e (expenses (snd (deleteExpense (mkRequest u i b) st))).
Proof.
  intros Huniq. unfold deleteExpense, Expense_findById.
  cbn [params_id user].
  destruct (castObjectId i) as [o|]; cbn [bindE]; [|assumption].
  destruct (find_expense o (expenses st)) as [e0|] eqn:He; [|assumption].
  destruct (not_authorized e0 u) eqn:Hauth; [assumption|].
  cbn [snd]. unfold Expense_deleteOne. cbn [expenses].
  apply filter_In. split; [assumption|].
  destruct (oid_eqb (Expense._id e) (Expense._id e0)) eqn:E; [|reflexivity].
  exfalso. apply oid_eqb_eq in E.
  destruct (find_expense_In _ _ _ He) as [Hin0 _].
  rewrite (same_id_same_expense st e e0 Huniq present_before Hin0 E)
    in of_another.
  apply of_another. now apply owner_of_authorized.
Qed.

End Strangers.

(** No request of a caller who is not an admin changes or removes an
    expense of another user: whatever the method, the path, the body and
    the router, every expense owned by someone else is in the store
    afterwards exactly as it was before. *)
Theorem strangers_expenses_survive (v : Version) (env : Env)
    (h : HttpRequest) (u : ReqUser.t) (st st' : Store) (r : Response)
    (e : Expense.t) :
  h_user h = Some u ->
  ReqUser.role u <> RoleAdmin ->
  unique_expense_ids st ->
  serve v env h st = Some (r, st') ->
  In e (expenses st) ->
  toString (Expense.user e) <> ReqUser.id u ->
  In e (expenses st').
Proof.
  intros Hu Hrole Huniq Hserve Hin Hother.
  unfold serve, protect in Hserve. rewrite Hu in Hserve.
  destruct (dispatch (routes v) (h_method h) (h_path h)) as [[rt ps]|];
    [|discriminate].
  injection Hserve as Hrun.
  replace st' with (snd (r, st')) by reflexivity. rewrite <- Hrun.
  clear Hrun. unfold run.
  destruct (r_handler rt); cbn [snd]; try assumption.
  - unfold createExpense.
    destruct (Expense_create _ _ _ _) as [[e0 st0]|] eqn:Hc; cbn [snd];
      [|assumption].
    unfold Expense_create in Hc.
    destruct (castObjectId _); cbn [bindE] in Hc; [|discriminate].
    destruct (validate_title _); cbn [bindE] in Hc; [|discriminate].
    destruct (validate_amount _); cbn [bindE] in Hc; [|discriminate].
    destruct (validate_category _); cbn [bindE] in Hc; [|discriminate].
    destruct (validate_optional _); cbn [bindE] in Hc; [|discriminate].
    destruct (cast_date _ _); cbn [bindE] in Hc; [|discriminate].
    destruct (new_id _ _ _); cbn [bindE] in Hc; [|discriminate].
    injection Hc as _ <-. cbn [expenses]. apply in_or_app. now left.
  - now apply updateExpense_spares.
  - now apply deleteExpense_spares.
Qed.

Lemma strangers_expenses_survive_witness :
  let st := mkStore [alice_doc; bob_doc] [coffee] in
  let h := mkHttpRequest DELETE ["111111111111111111111111"]
             (Some (as_user bob)) no_body no_query in
  unique_expense_ids st
  /\ exists r st',
       serve Controller june_2024 h st = Some (r, st')
       /\ status r = 403
       /\ In coffee (expenses st').
Proof.
  intros st h.
  assert (Huniq : unique_expense_ids st).
  { unfold unique_expense_ids. simpl. repeat constructor. simpl. tauto. }
  split; [exact Huniq|].
  destruct (serve Controller june_2024 h st) as [[r st']|] eqn:Hs;
    [|vm_compute in Hs; discriminate].
  exists r, st'. split; [reflexivity|]. split.
  - vm_compute in Hs. now injection Hs as <- <-.
  - apply (strangers_expenses_survive Controller june_2024 h (as_user bob)
             st st' r coffee); try reflexivity; try discriminate; auto.
    simpl. now left.
Defined.

(** ** The routers *)

Lemma dispatch_found (rs : list Route) (m : Method) (path : list string)
    (r : Route) (ps : list (string * string)) :
  dispatch rs m path = Some (r, ps) ->
  In r rs /\ r_method r = m /\ match_path (r_path r) path = Some ps.
Proof.
  induction rs as [|x l IH]; simpl; [discriminate|].
  destruct (method_eqb (r_method x) m) eqn:Em.
  - destruct (match_path (r_path x) path) as [ps'|] eqn:Ep.
    + intros [= <- <-]. repeat split; auto.
      destruct (r_method x), m; (reflexivity || discriminate).
    + intros H. destruct (IH H) as (? & ? & ?). auto.
  - intros H. destruct (IH H) as (? & ? & ?). auto.
Qed.

Lemma updateExpense_users (req : Request) (st : Store) :
  users (snd (updateExpense req st)) = users st.
Proof.
  unfold updateExpense, Expense_findByIdAndUpdate, Expense_findById.
  destruct (castObjectId (params_id req)); cbn [bindE]; [|reflexivity].
  destruct (find_expense _ _); [|reflexivity].
  destruct (not_authorized _ _); [reflexivity|].
  destruct (apply_update _ _); reflexivity.
Qed.

(** The expense routers never write the user collection, and a GET writes
    nothing at all. *)
Theorem expense_router_frame (v : Version) (env : Env) (h : HttpRequest)
    (st st' : Store) (r : Response) :
  serve v env h st = Some (r, st') ->
  users st' = users st /\ (h_method h = GET -> st' = st).
Proof.
  unfold serve, protect.
  destruct (h_user h) as [u|].
  2:{ intros [= <- <-]. auto. }
  destruct (dispatch (routes v) (h_method h) (h_path h)) as [[rt ps]|] eqn:Hd;
    [|discriminate].
  apply dispatch_found in Hd as (Hin & Hm & _).
  intros [= Hrun]. split.
  - clear Hin Hm. unfold run in Hrun.
    destruct (r_handler rt).
    + unfold createExpense, Expense_create in Hrun.
      destruct (castObjectId _); cbn [bindE] in Hrun;
        [|now injection Hrun as _ <-].
      destruct (validate_title _); cbn [bindE] in Hrun;
        [|now injection Hrun as _ <-].
      destruct (validate_amount _); cbn [bindE] in Hrun;
        [|now injection Hrun as _ <-].
      destruct (validate_category _); cbn [bindE] in Hrun;
        [|now injection Hrun as _ <-].
      destruct (validate_optional _); cbn [bindE] in Hrun;
        [|now injection Hrun as _ <-].
      destruct (cast_date _ _); cbn [bindE] in Hrun;
        [|now injection Hrun as _ <-].
      destruct (new_id _ _ _); cbn [bindE] in Hrun;
        now injection Hrun as _ <-.
    + now injection Hrun as _ <-.
    + now injection Hrun as _ <-.
    + apply (f_equal snd) in Hrun. cbn [snd] in Hrun. rewrite <- Hrun.
      apply updateExpense_users.
    + unfold deleteExpense in Hrun.
      destruct (Expense_findById _ _) as [[e|]|];
        try (now injection Hrun as _ <-).
      destruct (not_authorized _ _); now injection Hrun as _ <-.
    + now injection Hrun as _ <-.
  - intros Hget. rewrite Hget in Hm.
    destruct v; simpl in Hin;
      repeat (destruct Hin as [<-|Hin]; try discriminate Hm;
              try (unfold run in Hrun; cbn in Hrun;
                   now injection Hrun as _ <-));
      contradiction.
Qed.

Lemma expense_router_frame_witness :
  let st := mkStore [alice_doc] [coffee] in
  let h := mkHttpRequest GET [] (Some (as_user alice)) no_body no_query in
  exists r,
    serve Inline june_2024 h st = Some (r, st)
    /\ status r = 200
    /\ users st = users st /\ (h_method h = GET -> st = st).
Proof.
  intros st h.
  destruct (serve Inline june_2024 h st) as [[r st']|] eqn:Hs;
    [|vm_compute in Hs; discriminate].
  destruct (expense_router_frame Inline june_2024 h st st' r Hs) as [Hu Hget].
  rewrite (Hget eq_refl) in *. exists r. repeat split; auto.
  vm_compute in Hs. now injection Hs as <-.
Defined.

Lemma dispatch_agree (m : Method) (path : list string) :
  m <> GET \/ (forall x, path = [x] -> lowercase x <> "stats") ->
  dispatch (routes Inline) m path = dispatch (routes Controller) m path.
Proof.
  intros H. destruct m; try reflexivity.
  destruct H as [H|H]; [congruence|].
  destruct path as [|x [|y rest]]; try reflexivity.
  - cbn -[String.eqb lowercase].
    change (lowercase "stats") with "stats".
    destruct (String.eqb "stats" (lowercase x)) eqn:E.
    + apply String.eqb_eq in E. exfalso. now apply (H x).
    + destruct (String.eqb x EmptyString); reflexivity.
  - cbn -[String.eqb lowercase].
    destruct (String.eqb x EmptyString),
             (String.eqb (lowercase "stats") (lowercase x)); reflexivity.
Qed.

(** The two routers answer every request alike, except a GET of a single
    segment that reads "stats" in any mix of cases. *)
Theorem routers_agree_but_for_stats (env : Env) (h : HttpRequest)
    (st : Store) :
  h_method h <> GET
  \/ (forall x, h_path h = [x] -> lowercase x <> "stats") ->
  serve Inline env h st = serve Controller env h st.
Proof.
  intros H. unfold serve.
  rewrite <- (dispatch_agree (h_method h) (h_path h) H).
  destruct (protect h) as [|u]; [reflexivity|].
  pose proof (dispatch_inline_never_stats (h_method h) (h_path h)) as Hn.
  destruct (dispatch (routes Inline) (h_method h) (h_path h)) as [[rt ps]|];
    [|reflexivity].
  unfold run. destruct (r_handler rt); try reflexivity. congruence.
Qed.

Lemma routers_agree_but_for_stats_witness :
  let st := mkStore [alice_doc] [coffee] in
  let h := mkHttpRequest GET ["111111111111111111111111"]
             (Some (as_user alice)) no_body no_query in
  (forall x, h_path h = [x] -> lowercase x <> "stats")
  /\ serve Inline june_2024 h st = serve Controller june_2024 h st.
Proof.
  intros st h.
  assert (Hp : forall x, h_path h = [x] -> lowercase x <> "stats").
  { intros x [= <-]. discriminate. }
  split; [exact Hp|].
  apply (routers_agree_but_for_stats june_2024 h st). now right.
Defined.

(** ** Lists of expenses: scope, order and pages *)

Lemma insert_by_perm {A} (le : A -> A -> bool) (x : A) (l : list A) :
  Permutation (insert_by le x l) (x :: l).
Proof.
  induction l as [|y r IH]; simpl; [reflexivity|].
  destruct (le x y); [reflexivity|].
  rewrite IH. apply perm_swap.
Qed.

(** Sorting rearranges and neither adds nor drops. *)
Lemma sort_by_perm {A} (le : A -> A -> bool) (l : list A) :
  Permutation (sort_by le l) l.
Proof.
  induction l as [|x r IH]; simpl; [reflexivity|].
  unfold sort_by in *. simpl. rewrite insert_by_perm. now constructor.
Qed.

Lemma insert_by_ordered {A} (le : A -> A -> bool) (x : A) (l : list A) :
  (forall a b, le a b = true \/ le b a = true) ->
  ordered le l -> ordered le (insert_by le x l).
Proof.
  intros Htotal. induction l as [|y r IH]; simpl; [auto|].
  intros [Hy Hr]. destruct (le x y) eqn:E.
  - simpl. auto.
  - specialize (IH Hr). destruct (Htotal x y) as [H|H]; [congruence|].
    destruct r as [|z r']; simpl in *.
    + auto.
    + destruct (le x z); simpl; auto.
Qed.

(** With a total comparison the sort puts neighbours in order. *)
Lemma sort_by_ordered {A} (le : A -> A -> bool) (l : list A) :
  (forall a b, le a b = true \/ le b a = true) ->
  ordered le (sort_by le l).
Proof.
  intros Htotal. induction l as [|x r IH]; [exact I|].
  unfold sort_by in *. simpl. now apply insert_by_ordered.
Qed.

Lemma ordered_tail {A} (le : A -> A -> bool) (x : A) (l : list A) :
  ordered le (x :: l) -> ordered le l.
Proof. simpl. tauto. Qed.

Lemma ordered_skipn {A} (le : A -> A -> bool) (n : nat) (l : list A) :
  ordered le l -> ordered le (skipn n l).
Proof.
  revert l. induction n as [|n IH]; intros l H; [exact H|].
  destruct l as [|x r]; [exact I|]. simpl. apply IH.
  now apply ordered_tail in H.
Qed.

Lemma ordered_firstn {A} (le : A -> A -> bool) (n : nat) (l : list A) :
  ordered le l -> ordered le (firstn n l).
Proof.
  revert l. induction n as [|n IH]; intros l H; [exact I|].
  destruct l as [|x r]; [exact I|].
  change (firstn (S n) (x :: r)) with (x :: firstn n r).
  pose proof (IH r (ordered_tail le x r H)) as Hr.
  destruct r as [|y r']; [destruct n; simpl; auto|].
  destruct n as [|n']; [simpl; auto|].
  simpl in *. tauto.
Qed.

Lemma skip_limit_part {A} (skip limit : Z) (l page : list A) :
  skip_limit skip limit l = Ok page ->
  exists front back, l = front ++ page ++ back.
Proof.
  unfold skip_limit. destruct (skip <? 0); [discriminate|].
  intros [= <-]. exists (firstn (Z.to_nat skip) l).
  destruct (limit =? 0).
  - exists []. now rewrite app_nil_r, firstn_skipn.
  - exists (skipn (Z.to_nat (Z.abs limit)) (skipn (Z.to_nat skip) l)).
    now rewrite !firstn_skipn.
Qed.

Lemma skip_limit_ordered {A} (le : A -> A -> bool) (skip limit : Z)
    (l page : list A) :
  ordered le l -> skip_limit skip limit l = Ok page -> ordered le page.
Proof.
  unfold skip_limit. intros Hl. destruct (skip <? 0); [discriminate|].
  intros [= <-]. destruct (limit =? 0).
  - now apply ordered_skipn.
  - now apply ordered_firstn, ordered_skipn.
Qed.

Lemma sort_le_total (q : ListQuery) (a b : Expense.t) :
  sort_le q a b = true \/ sort_le q b a = true.
Proof.
  unfold sort_le.
  destruct (match q_sortOrder q with
            | Some o => String.eqb o "desc"
            | None => true
            end);
    repeat match goal with
           | |- context [if String.eqb ?x ?y then _ else _] =>
               destruct (String.eqb x y)
           end;
    try (left; reflexivity);
    try apply String.leb_total;
    rewrite !Z.leb_le; lia.
Qed.

(** What a list answer holds: documents of the store, each owned by the
    caller and passing the filter of the query, with their owners
    populated; and when the query sorts by the date (as it does unless it
    says otherwise), the amount, the title, the category, the identifier
    or the owner, neighbours are in the order the query asks for. *)
Theorem list_holds_own_expenses (req : ListRequest) (st : Store)
    (p : Populated) :
  In p (items_of (getExpenses req st)) ->
  In (p_expense p) (expenses st)
  /\ castObjectId (ReqUser.id (l_user req)) = Ok (Expense.user (p_expense p))
  /\ list_filter (Expense.user (p_expense p)) (l_query req) (p_expense p)
     = true
  /\ p = populate st (p_expense p)
  /\ (In (sort_field (l_query req)) sort_fields ->
      ordered (sort_le (l_query req))
        (map p_expense (items_of (getExpenses req st)))).
Proof.
  unfold getExpenses.
  destruct (castObjectId (ReqUser.id (l_user req))) as [owner|] eqn:Ho;
    [|intros []].
  destruct (skip_limit _ _ _) as [page|] eqn:Hs; [|intros []].
  cbn [items_of data success]. intros Hin.
  apply in_map_iff in Hin as (e & <- & He). cbn [p_expense populate].
  destruct (skip_limit_part _ _ _ _ Hs) as (front & back & Hl).
  assert (Hsorted : In e (sort_by (sort_le (l_query req))
                            (filter (list_filter owner (l_query req))
                               (expenses st)))).
  { rewrite Hl. apply in_or_app. right. apply in_or_app. now left. }
  apply (Permutation_in _ (sort_by_perm _ _)) in Hsorted.
  apply filter_In in Hsorted as [Hstore Hf].
  assert (Hown : Expense.user e = owner).
  { unfold list_filter in Hf. repeat (apply andb_true_iff in Hf as [Hf _]).
    now apply oid_eqb_eq. }
  rewrite Hown. repeat split; auto.
  intros _. rewrite map_map. cbn [p_expense populate]. rewrite map_id.
  eapply skip_limit_ordered; [|exact Hs].
  apply sort_by_ordered, sort_le_total.
Qed.

Lemma list_holds_own_expenses_witness :
  let st := mkStore [alice_doc; bob_doc]
              [coffee; Expense.mk lunch_id bob "Lunch" 20 "Food & Dining"
                         1735646400000] in
  let req := mkListRequest (as_user alice) no_query in
  let p := populate st coffee in
  In p (items_of (getExpenses req st))
  /\ In (p_expense p) (expenses st)
  /\ items_of (getExpenses req st) = [p].
Proof.
  intros st req p.
  assert (Hin : In p (items_of (getExpenses req st))) by (simpl; now left).
  destruct (list_holds_own_expenses req st p Hin) as (Hstore & _).
  repeat split; auto.
Defined.

(** *** One order only, when nothing ties *)

Lemma string_compare_trans (a b c : string) :
  String.compare a b <> Gt -> String.compare b c <> Gt ->
  String.compare a c <> Gt.
Proof.
  revert b c. induction a as [|x a IH]; intros [|y b] [|z c]; simpl;
    try congruence.
  unfold Ascii.compare.
  destruct (N.compare_spec (N_of_ascii x) (N_of_ascii y)) as [Hxy|Hxy|Hxy];
    destruct (N.compare_spec (N_of_ascii y) (N_of_ascii z)) as [Hyz|Hyz|Hyz];
    destruct (N.compare_spec (N_of_ascii x) (N_of_ascii z)) as [Hxz|Hxz|Hxz];
    try congruence; try lia.
  apply IH.
Qed.

Lemma string_leb_trans (a b c : string) :
  String.leb a b = true -> String.leb b c = true -> String.leb a c = true.
Proof.
  unfold String.leb. intros Hab Hbc.
  pose proof (string_compare_trans a b c) as H.
  destruct (String.compare a b), (String.compare b c),
    (String.compare a c); try reflexivity; try discriminate;
    exfalso; apply H; congruence.
Qed.

Lemma sort_le_trans (q : ListQuery) (a b c : Expense.t) :
  sort_le q a b = true -> sort_le q b c = true -> sort_le q a c = true.
Proof.
  unfold sort_le, oid_leb.
  destruct (match q_sortOrder q with
            | Some o => String.eqb o "desc"
            | None => true
            end);
    repeat match goal with
           | |- context [if String.eqb ?x ?y then _ else _] =>
               destruct (String.eqb x y)
           end;
    try (intros; reflexivity);
    try (rewrite !Z.leb_le; lia);
    intros H1 H2; eapply string_leb_trans; eassumption.
Qed.

Lemma insert_by_in_order (q : ListQuery) (x : Expense.t)
    (l : list Expense.t) :
  in_order (sort_le q) l -> in_order (sort_le q) (insert_by (sort_le q) x l).
Proof.
  induction l as [|y r IH]; simpl; [tauto|].
  intros [Hy Hr]. destruct (sort_le q x y) eqn:E; simpl.
  - split; [|auto]. intros z [<-|Hz]; [exact E|].
    apply (sort_le_trans q x y z E). now apply Hy.
  - split; [|now apply IH]. intros z Hz.
    apply (Permutation_in _ (insert_by_perm _ _ _)) in Hz.
    destruct Hz as [<-|Hz]; [|now apply Hy].
    destruct (sort_le_total q x y) as [H|H]; congruence.
Qed.

Lemma sort_by_in_order (q : ListQuery) (l : list Expense.t) :
  in_order (sort_le q) (sort_by (sort_le q) l).
Proof.
  induction l as [|x r IH]; [exact I|].
  unfold sort_by in *. simpl. now apply insert_by_in_order.
Qed.

(** Two arrangements of the same documents, both in order, are one and
    the same when no two documents tie. *)
Lemma one_order_without_ties (q : ListQuery) (l1 l2 : list Expense.t) :
  (forall a b, In a l1 -> In b l1 ->
     sort_le q a b = true -> sort_le q b a = true -> a = b) ->
  Permutation l1 l2 ->
  in_order (sort_le q) l1 -> in_order (sort_le q) l2 -> l1 = l2.
Proof.
  revert l2. induction l1 as [|x r1 IH]; intros l2 Hties Hperm H1 H2.
  - now apply Permutation_nil in Hperm.
  - destruct l2 as [|y r2].
    { apply Permutation_sym, Permutation_nil in Hperm. discriminate. }
    destruct H1 as [Hx Hr1], H2 as [Hy Hr2].
    assert (Hxy : x = y).
    { assert (Hin_x : In x (y :: r2))
        by (apply (Permutation_in _ Hperm); now left).
      assert (Hin_y : In y (x :: r1))
        by (apply (Permutation_in _ (Permutation_sym Hperm)); now left).
      destruct Hin_x as [->|Hin_x]; [reflexivity|].
      destruct Hin_y as [->|Hin_y]; [reflexivity|].
      apply Hties; [now left | now right | now apply Hx | now apply Hy]. }
    subst y. f_equal. apply IH; auto.
    + intros a b Ha Hb. apply Hties; now right.
    + now apply Permutation_cons_inv in Hperm.
Qed.

Lemma firstn_then_firstn {A} (a b : nat) (l : list A) :
  firstn a l ++ firstn b (skipn a l) = firstn (a + b) l.
Proof.
  revert l. induction a as [|a IH]; intros l; [reflexivity|].
  destruct l as [|x r]; simpl; [now destruct b|].
  now rewrite IH.
Qed.

(** Walking the pages never repeats and never skips, when the query
    sorts by a field of [sort_fields] on which no two of the caller's
    matching expenses tie.  The store then has one order to return: every
    arrangement of the matching expenses that is in the order of the query
    is the same list.  For a limit of at least 1 the items of the pages 1
    to [n], one after the other, are the first [n * limit] of that list;
    once [n * limit] reaches its length, they are all the matching
    expenses, each once. *)
Theorem pages_cover_matching (req : ListRequest) (st : Store)
    (owner : ObjectId) (n : nat) :
  castObjectId (ReqUser.id (l_user req)) = Ok owner ->
  1 <= limit_of (l_query req) ->
  In (sort_field (l_query req)) sort_fields ->
  (forall a b,
     In a (filter (list_filter owner (l_query req)) (expenses st)) ->
     In b (filter (list_filter owner (l_query req)) (expenses st)) ->
     sort_le (l_query req) a b = true ->
     sort_le (l_query req) b a = true -> a = b) ->
  let matching := filter (list_filter owner (l_query req)) (expenses st) in
  let sorted := sort_by (sort_le (l_query req)) matching in
  (forall arranged,
     Permutation arranged matching ->
     in_order (sort_le (l_query req)) arranged -> arranged = sorted)
  /\ pages_up_to req st n
     = map (populate st)
         (firstn (n * Z.to_nat (limit_of (l_query req))) sorted)
  /\ (Z.of_nat (List.length matching)
      <= Z.of_nat n * limit_of (l_query req) ->
      Permutation (map p_expense (pages_up_to req st n)) matching).
Proof.
  intros Ho Hl _ Hties matching sorted.
  split.
  { intros arranged Hperm Harranged. symmetry.
    apply (one_order_without_ties (l_query req)).
    - intros a b Ha Hb. apply Hties;
        apply (Permutation_in _ (sort_by_perm (sort_le (l_query req)) _));
        assumption.
    - etransitivity; [apply sort_by_perm | now apply Permutation_sym].
    - apply sort_by_in_order.
    - exact Harranged. }
  assert (Hpages : pages_up_to req st n
                   = map (populate st)
                       (firstn (n * Z.to_nat (limit_of (l_query req)))
                          sorted)).
  { induction n as [|k IH]; [reflexivity|].
    cbn [pages_up_to]. rewrite IH. unfold getExpenses.
    cbn [l_user l_query]. rewrite Ho.
    change (limit_of (with_page (l_query req) (Z.of_nat (S k))))
      with (limit_of (l_query req)).
    change (page_of (with_page (l_query req) (Z.of_nat (S k))))
      with (Z.of_nat (S k)).
    change (filter (list_filter owner
                      (with_page (l_query req) (Z.of_nat (S k))))
              (expenses st)) with matching.
    change (sort_by (sort_le (with_page (l_query req) (Z.of_nat (S k))))
              matching) with sorted.
    unfold skip_limit.
    assert (Hskip : ((Z.of_nat (S k) - 1) * limit_of (l_query req) <? 0)
                    = false) by (apply Z.ltb_ge; nia).
    rewrite Hskip.
    replace (limit_of (l_query req) =? 0) with false by lia.
    cbn [items_of data success].
    rewrite <- map_app. f_equal.
    replace (Z.of_nat (S k) - 1) with (Z.of_nat k) by lia.
    rewrite Z2Nat.inj_mul, Nat2Z.id by lia.
    replace (Z.to_nat (Z.abs (limit_of (l_query req))))
      with (Z.to_nat (limit_of (l_query req))) by lia.
    rewrite firstn_then_firstn. f_equal. lia. }
  split; [exact Hpages|].
  intros Hall. rewrite Hpages, map_map. cbn [p_expense populate].
  rewrite map_id, firstn_all2.
  - apply sort_by_perm.
  - unfold sorted. rewrite length_sort_by. nia.
Qed.

Lemma pages_cover_matching_witness :
  let st := mkStore [alice_doc] [coffee; new_years_eve_lunch] in
  let q := mkListQuery None (Some 1) None None None None None None None None in
  let req := mkListRequest (as_user alice) q in
  1 <= limit_of q
  /\ pages_up_to req st 2
     = [populate st new_years_eve_lunch; populate st coffee]
  /\ Permutation (map p_expense (pages_up_to req st 2))
       [coffee; new_years_eve_lunch].
Proof.
  intros st q req.
  assert (Hl : 1 <= limit_of (l_query req)) by (unfold req, q, limit_of; simpl; lia).
  assert (Hfield : In (sort_field (l_query req)) sort_fields)
    by (simpl; now left).
  assert (Hties : forall a b,
            In a (filter (list_filter alice (l_query req)) (expenses st)) ->
            In b (filter (list_filter alice (l_query req)) (expenses st)) ->
            sort_le (l_query req) a b = true ->
            sort_le (l_query req) b a = true -> a = b).
  { intros a b [<-|[<-|[]]] [<-|[<-|[]]]; try reflexivity;
      intros H1 H2; vm_compute in H1, H2; discriminate. }
  destruct (pages_cover_matching req st alice 2 eq_refl Hl Hfield Hties)
    as (_ & Hpages & Hperm).
  split; [exact Hl|]. split.
  - rewrite Hpages. reflexivity.
  - apply Hperm. unfold req, q, limit_of. simpl. lia.
Defined.

(** ** Grouping *)

Section Grouping.

Variable K : Type.
Variable eqb : K -> K -> bool.
Hypothesis eqb_ok : forall a b, eqb a b = true <-> a = b.
Variable key : Expense.t -> K.

Lemma eqb_same (k : K) : eqb k k = true.
Proof. now apply eqb_ok. Qed.

Lemma eqb_other (a b : K) : a <> b -> eqb a b = false.
Proof.
  intros H. destruct (eqb a b) eqn:E; [|reflexivity].
  apply eqb_ok in E. contradiction.
Qed.

Lemma row_of_add (k k' : K) (a : Z) (gs : list (Group K)) :
  row_of eqb k' (add_to_group eqb k a gs)
  = if eqb k k' then bump (row_of eqb k' gs) a else row_of eqb k' gs.
Proof.
  induction gs as [|g r IH]; simpl.
  - destruct (eqb k k'); reflexivity.
  - destruct (eqb (g_id g) k) eqn:E; simpl.
    + apply eqb_ok in E. subst k.
      destruct (eqb (g_id g) k'); reflexivity.
    + rewrite IH. destruct (eqb (g_id g) k') eqn:E'; [|reflexivity].
      apply eqb_ok in E'. subst k'.
      destruct (eqb k (g_id g)) eqn:E''; [|reflexivity].
      apply eqb_ok in E''. subst k. now rewrite eqb_same in E.
Qed.

Lemma keys_of_add (k : K) (a : Z) (gs : list (Group K)) :
  map g_id (add_to_group eqb k a gs)
  = if existsb (fun g => eqb (g_id g) k) gs then map g_id gs
    else map g_id gs ++ [k].
Proof.
  induction gs as [|g r IH]; simpl; [reflexivity|].
  destruct (eqb (g_id g) k) eqn:E; simpl.
  - apply eqb_ok in E. now rewrite E.
  - rewrite IH. now destruct (existsb _ r).
Qed.

Lemma keys_distinct_add (k : K) (a : Z) (gs : list (Group K)) :
  NoDup (map g_id gs) -> NoDup (map g_id (add_to_group eqb k a gs)).
Proof.
  intros H. rewrite keys_of_add.
  destruct (existsb (fun g => eqb (g_id g) k) gs) eqn:E; [exact H|].
  apply NoDup_snoc; [exact H|]. intros Hin.
  apply in_map_iff in Hin as (g & Hg & Hin).
  assert (existsb (fun g => eqb (g_id g) k) gs = true).
  { apply existsb_exists. exists g. split; [exact Hin|]. now apply eqb_ok. }
  congruence.
Qed.

Lemma sum_totals_add (k : K) (a : Z) (gs : list (Group K)) :
  sum_totals (add_to_group eqb k a gs) = sum_totals gs + a
  /\ sum_counts (add_to_group eqb k a gs) = sum_counts gs + 1.
Proof.
  induction gs as [|g r [IHt IHc]]; simpl; [split; lia|].
  destruct (eqb (g_id g) k); simpl; split; lia.
Qed.

Lemma fold_groups (l : list Expense.t) (gs : list (Group K)) :
  let out := fold_left
               (fun gs e => add_to_group eqb (key e) (Expense.amount e) gs)
               l gs in
  (forall k, row_of eqb k out = row_after (row_of eqb k gs) (matching_key eqb key k l))
  /\ (NoDup (map g_id gs) -> NoDup (map g_id out))
  /\ sum_totals out = sum_totals gs + sum_amount l
  /\ sum_counts out = sum_counts gs + Z.of_nat (List.length l).
Proof.
  revert gs. induction l as [|e r IH]; intros gs; cbn zeta.
  - simpl. repeat split; auto; lia.
  - cbn [fold_left].
    destruct (IH (add_to_group eqb (key e) (Expense.amount e) gs))
      as (Hrow & Hnd & Ht & Hc).
    destruct (sum_totals_add (key e) (Expense.amount e) gs) as [Ht1 Hc1].
    repeat split.
    + intros k. rewrite Hrow, row_of_add. unfold matching_key.
      cbn [filter]. destruct (eqb (key e) k).
      * destruct (row_of eqb k gs) as [[t c]|];
          destruct (filter _ r) as [|x xs]; cbn -[Z.of_nat Z.add];
          apply f_equal, pair_equal_spec; split; lia.
      * reflexivity.
    + intros H. apply Hnd. now apply keys_distinct_add.
    + rewrite Ht, Ht1. cbn [sum_amount fold_right]. fold (sum_amount r). lia.
    + rewrite Hc, Hc1. cbn [List.length]. lia.
Qed.

Lemma row_of_member (gs : list (Group K)) (g : Group K) :
  NoDup (map g_id gs) -> In g gs ->
  row_of eqb (g_id g) gs = Some (total g, count g).
Proof.
  induction gs as [|x r IH]; simpl; [tauto|].
  intros Hnd [->|Hin].
  - now rewrite eqb_same.
  - inversion Hnd as [|? ? Hx Hr]; subst.
    destruct (eqb (g_id x) (g_id g)) eqn:E; [|now apply IH].
    apply eqb_ok in E. exfalso. apply Hx. rewrite E. now apply in_map.
Qed.

Lemma row_of_key (gs : list (Group K)) (k : K) :
  row_of eqb k gs <> None <-> In k (map g_id gs).
Proof.
  induction gs as [|x r IH]; simpl; [tauto|].
  destruct (eqb (g_id x) k) eqn:E.
  - apply eqb_ok in E. split; [auto | discriminate].
  - rewrite IH. split; [auto|]. intros [H|H]; [|exact H].
    subst k. now rewrite eqb_same in E.
Qed.

(** What [$group] computes: one row for each key that occurs, holding the
    sum and the number of the documents with that key. *)
Lemma group_by_rows (l : list Expense.t) :
  NoDup (map g_id (group_by eqb key l))
  /\ (forall g, In g (group_by eqb key l) ->
        matching_key eqb key (g_id g) l <> []
        /\ total g = sum_amount (matching_key eqb key (g_id g) l)
        /\ count g = Z.of_nat (List.length (matching_key eqb key (g_id g) l)))
  /\ (forall e, In e l -> In (key e) (map g_id (group_by eqb key l)))
  /\ sum_totals (group_by eqb key l) = sum_amount l
  /\ sum_counts (group_by eqb key l) = Z.of_nat (List.length l).
Proof.
  unfold group_by.
  destruct (fold_groups l []) as (Hrow & Hnd & Ht & Hc). cbn zeta in *.
  specialize (Hnd (NoDup_nil _)).
  repeat split; auto.
  - intros E.
    pose proof (row_of_member _ g Hnd H) as Hg.
    rewrite Hrow, E in Hg. discriminate.
  - pose proof (row_of_member _ g Hnd H) as Hg. rewrite Hrow in Hg.
    simpl in Hg. destruct (matching_key eqb key (g_id g) l); [discriminate|].
    now injection Hg.
  - pose proof (row_of_member _ g Hnd H) as Hg. rewrite Hrow in Hg.
    simpl in Hg. destruct (matching_key eqb key (g_id g) l); [discriminate|].
    now injection Hg.
  - intros e He. apply row_of_key. rewrite Hrow. simpl.
    assert (Hin : In e (matching_key eqb key (key e) l)).
    { apply filter_In. split; [exact He | apply eqb_same]. }
    destruct (matching_key eqb key (key e) l); [destruct Hin | discriminate].
Qed.

End Grouping.

(** ** Calendar *)

Lemma year_of_era_bounds (doe : Z) :
  0 <= doe <= 146096 ->
  let yoe := (doe - doe / 1460 + doe / 36524 - doe / 146096) / 365 in
  let doy := doe - (365 * yoe + yoe / 4 - yoe / 100) in
  0 <= yoe <= 399
  /\ 0 <= doy
  /\ (doy <= 364
      \/ (doy = 365 /\ (yoe + 1) mod 4 = 0
          /\ ((yoe + 1) mod 100 <> 0 \/ yoe = 399))).
Proof.
  intros H. cbv zeta. Z.div_mod_to_equations. lia.
Qed.

Lemma january_first (y : Z) :
  days_from_civil y 1 1
  = (y - 1) / 400 * 146097
    + ((y - 1 - (y - 1) / 400 * 400) * 365
       + (y - 1 - (y - 1) / 400 * 400) / 4
       - (y - 1 - (y - 1) / 400 * 400) / 100 + 306) - 719468.
Proof. reflexivity. Qed.

(** A day lies in the year [civil_from_days] gives it: on or after that
    year's first of January and before the next one. *)
Lemma civil_year_window (z : Z) :
  days_from_civil (fst (civil_from_days z)) 1 1 <= z
  < days_from_civil (fst (civil_from_days z) + 1) 1 1.
Proof.
  rewrite !january_first.
  unfold civil_from_days. cbv zeta. cbn [fst].
  set (z' := z + 719468).
  set (era := z' / 146097).
  set (doe := z' - era * 146097).
  assert (Hdoe : 0 <= doe <= 146096).
  { unfold doe, era. Z.div_mod_to_equations. lia. }
  pose proof (year_of_era_bounds doe Hdoe) as Hb. cbv zeta in Hb.
  set (yoe := (doe - doe / 1460 + doe / 36524 - doe / 146096) / 365) in *.
  set (doy := doe - (365 * yoe + yoe / 4 - yoe / 100)) in *.
  set (mp := (5 * doy + 2) / 153).
  assert (Hz : z = era * 146097 + doe - 719468) by (unfold doe, z'; lia).
  assert (Hd : doe = 365 * yoe + yoe / 4 - yoe / 100 + doy)
    by (unfold doy; lia).
  clearbody doy yoe doe era. clear z'.
  destruct Hb as (Hy & Hdoy0 & Hleap).
  assert (Hmp : mp < 10 <-> doy < 306).
  { unfold mp. Z.div_mod_to_equations. lia. }
  assert (Hmp0 : 0 <= mp <= 11).
  { unfold mp. Z.div_mod_to_equations. lia. }
  clearbody mp.
  destruct (mp <? 10) eqn:E1;
    [apply Z.ltb_lt in E1 | apply Z.ltb_ge in E1].
  - replace (mp + 3 <=? 2) with false by lia.
    subst z. Z.div_mod_to_equations. lia.
  - replace (mp - 9 <=? 2) with true by lia.
    subst z. Z.div_mod_to_equations. lia.
Qed.

(** [$month] yields a month. *)
Lemma month_range (d : Z) : 1 <= month d <= 12.
Proof.
  unfold month, civil_from_days. cbv zeta. cbn [snd].
  set (z' := d / ms_per_day + 719468).
  set (era := z' / 146097).
  set (doe := z' - era * 146097).
  assert (Hdoe : 0 <= doe <= 146096).
  { unfold doe, era. Z.div_mod_to_equations. lia. }
  pose proof (year_of_era_bounds doe Hdoe) as Hb. cbv zeta in Hb.
  set (yoe := (doe - doe / 1460 + doe / 36524 - doe / 146096) / 365) in *.
  set (doy := doe - (365 * yoe + yoe / 4 - yoe / 100)) in *.
  set (mp := (5 * doy + 2) / 153).
  assert (Hmp : 0 <= mp <= 11).
  { destruct Hb as (_ & Hdoy0 & Hleap). unfold mp.
    clearbody doy. Z.div_mod_to_equations. lia. }
  clearbody mp. destruct (mp <? 10) eqn:E; lia.
Qed.

(** The current instant is always inside the half-open window of the
    current year, and inside the inclusive one only up to the midnight
    that opens 31 December: what is recorded during the last day of a year
    is outside the window of the controllers' monthly pipelines while that
    day lasts. *)
Theorem now_in_current_year (env : Env) :
  100 <= getFullYear env ->
  window_half_open env (now env) = true
  /\ (window_inclusive env (now env) = true
      <-> now env <= new_Date env (getFullYear env) 11 31).
Proof.
  intros Hy.
  pose proof (civil_year_window ((now env + tzOffset env) / ms_per_day))
    as Hw.
  fold (getFullYear env) in Hw.
  assert (Hlo : new_Date env (getFullYear env) 0 1 <= now env).
  { unfold new_Date.
    replace ((0 <=? getFullYear env) && (getFullYear env <=? 99))%bool
      with false by lia.
    change (0 + 1) with 1. unfold ms_per_day in *.
    Z.div_mod_to_equations. lia. }
  assert (Hhi : now env < new_Date env (getFullYear env + 1) 0 1).
  { unfold new_Date.
    replace ((0 <=? getFullYear env + 1)
             && (getFullYear env + 1 <=? 99))%bool with false by lia.
    change (0 + 1) with 1. unfold ms_per_day in *.
    Z.div_mod_to_equations. lia. }
  unfold window_half_open, window_inclusive, in_half_open, in_range.
  split.
  - apply andb_true_iff. split; [apply Z.leb_le | apply Z.ltb_lt]; lia.
  - rewrite andb_true_iff, !Z.leb_le. tauto.
Qed.

Lemma now_in_current_year_witness :
  100 <= getFullYear june_2024
  /\ window_half_open june_2024 (now june_2024) = true
  /\ (window_inclusive june_2024 (now june_2024) = true
      <-> now june_2024 <= new_Date june_2024 (getFullYear june_2024) 11 31).
Proof.
  assert (Hy : 100 <= getFullYear june_2024) by (vm_compute; discriminate).
  split; [exact Hy|]. exact (now_in_current_year june_2024 Hy).
Defined.

(** ** The admin dashboard *)

Lemma string_eqb_ok (a b : string) : String.eqb a b = true <-> a = b.
Proof. apply String.eqb_eq. Qed.

Lemma z_eqb_ok (a b : Z) : Z.eqb a b = true <-> a = b.
Proof. apply Z.eqb_eq. Qed.

Lemma sum_totals_perm {K} (a b : list (Group K)) :
  Permutation a b ->
  sum_totals a = sum_totals b /\ sum_counts a = sum_counts b.
Proof.
  induction 1 as [|x l l' _ [IHt IHc]|x y l|l l' l'' _ [IH1 IH1'] _ [IH2 IH2']];
    simpl; split; lia.
Qed.

Lemma group_all_total (l : list Expense.t) :
  first_or_zero (group_all l)
  = mkGroup tt (sum_amount l) (Z.of_nat (List.length l)).
Proof. destruct l; reflexivity. Qed.

(** The rows of a sorted grouping: one row for each key that occurs, with
    the sum and the number of the documents of that key, the rows adding
    up to the whole. *)
Lemma sorted_rows {K} (eqb : K -> K -> bool) (key : Expense.t -> K)
    (le : Group K -> Group K -> bool) (l : list Expense.t) :
  (forall a b, eqb a b = true <-> a = b) ->
  let rows := sort_by le (group_by eqb key l) in
  NoDup (map g_id rows)
  /\ (forall g, In g rows ->
        1 <= count g
        /\ total g = sum_amount (matching_key eqb key (g_id g) l)
        /\ count g
           = Z.of_nat (List.length (matching_key eqb key (g_id g) l)))
  /\ (forall e, In e l -> In (key e) (map g_id rows))
  /\ sum_totals rows = sum_amount l
  /\ sum_counts rows = Z.of_nat (List.length l).
Proof.
  intros Hok rows.
  destruct (group_by_rows K eqb Hok key l) as (Hnd & Hrows & Hkeys & Ht & Hc).
  pose proof (sort_by_perm le (group_by eqb key l)) as Hperm. fold rows in Hperm.
  destruct (sum_totals_perm _ _ Hperm) as [Hst Hsc].
  repeat split.
  - eapply Permutation_NoDup; [|exact Hnd].
    apply Permutation_map, Permutation_sym, Hperm.
  - apply (Permutation_in _ Hperm) in H.
    destruct (Hrows g H) as (Hne & _ & Hcount). rewrite Hcount.
    destruct (matching_key eqb key (g_id g) l); [congruence|].
    cbn [List.length]. lia.
  - apply (Permutation_in _ Hperm) in H. now destruct (Hrows g H) as (_ & ? & _).
  - apply (Permutation_in _ Hperm) in H. now destruct (Hrows g H) as (_ & _ & ?).
  - intros e He.
    eapply Permutation_in; [|exact (Hkeys e He)].
    apply Permutation_map, Permutation_sym, Hperm.
  - congruence.
  - congruence.
Qed.

(** ** The two windows of the monthly pipelines (C7) *)

Lemma by_month_counts (l : list Expense.t) :
  sum_counts (by_month l) = Z.of_nat (List.length l).
Proof.
  unfold by_month.
  now destruct (sorted_rows Z.eqb (fun e => month (Expense.date e))
                  (fun a b => g_id a <=? g_id b) l z_eqb_ok)
    as (_ & _ & _ & _ & ?).
Qed.

(** A selection that admits all that another admits, and one document
    more, has more documents. *)
Lemma wider_selection_longer (narrow wide : Expense.t -> bool)
    (l : list Expense.t) :
  (forall x, narrow x = true -> wide x = true) ->
  (List.length (filter narrow l) <= List.length (filter wide l))%nat
  /\ (forall e, In e l -> wide e = true -> narrow e = false ->
        (List.length (filter narrow l) < List.length (filter wide l))%nat).
Proof.
  intros Hsub. induction l as [|x r [IHle IHlt]]; simpl.
  - split; [lia | intros e []].
  - destruct (narrow x) eqn:En.
    + rewrite (Hsub x En). simpl. split; [lia|].
      intros e [->|He] Hw Hn; [congruence|].
      specialize (IHlt e He Hw Hn). lia.
    + destruct (wide x) eqn:Ew; simpl.
      * split; [lia|]. intros e _ _ _. lia.
      * split; [exact IHle|].
        intros e [->|He] Hw Hn; [congruence|]. now apply (IHlt e).
Qed.



Lemma sum_in_order_from (l : list Expense.t) (a : Z) :
  fold_left (fun acc e => acc + Expense.amount e) l a = a + sum_amount l.
Proof.
  revert a. induction l as [|e r IH]; intros a; simpl; [lia|].
  rewrite IH. unfold sum_amount. lia.
Qed.

Lemma sum_in_order_amount (l : list Expense.t) :
  sum_in_order l = sum_amount l.
Proof. unfold sum_in_order. now rewrite sum_in_order_from. Qed.

(** The expense figures of the dashboard.  The grand count is the number
    of all expenses; the category rows are one for each category in use,
    each counting the expenses of its category, the counts adding up to
    the grand count, the rows with the larger total first.  For amounts on
    which the sums are exact, the grand total is the sum of all amounts
    and the total of a row the sum of the amounts of its category, each
    accumulated in the order of the collection. *)
Theorem dashboard_breakdown (v : Version) (env : Env) (st : Store) :
  let d := getDashboardStats v env st in
  let of_category c :=
    filter (fun e => String.eqb (Expense.category e) c) (expenses st) in
  count (d_totalExpenses d) = Z.of_nat (List.length (expenses st))
  /\ sum_counts (d_expensesByCategory d) = count (d_totalExpenses d)
  /\ NoDup (map g_id (d_expensesByCategory d))
  /\ (forall g, In g (d_expensesByCategory d) ->
        1 <= count g
        /\ count g = Z.of_nat (List.length (of_category (g_id g))))
  /\ (forall e, In e (expenses st) ->
        In (Expense.category e) (map g_id (d_expensesByCategory d)))
  /\ ordered (fun a b => total b <=? total a) (d_expensesByCategory d)
  /\ (exact_sums (expenses st) ->
      total (d_totalExpenses d) = sum_in_order (expenses st)
      /\ forall g, In g (d_expensesByCategory d) ->
           total g = sum_in_order (of_category (g_id g))).
Proof.
  cbv zeta. cbn [getDashboardStats d_totalExpenses d_expensesByCategory].
  rewrite group_all_total. cbn [total count]. unfold by_category.
  destruct (sorted_rows String.eqb Expense.category
              (fun a b => total b <=? total a) (expenses st) string_eqb_ok)
    as (Hnd & Hrows & Hkeys & Ht & Hc).
  repeat split; auto; try (now apply Hrows).
  - apply sort_by_ordered. intros a b. rewrite !Z.leb_le. lia.
  - now rewrite sum_in_order_amount.
  - intros g Hg. rewrite sum_in_order_amount. now apply Hrows.
Qed.

(** The monthly rows of both dashboards: months between 1 and 12, each
    once, in ascending order, each row counting the expenses of its month
    inside the window of that dashboard, the counts adding up to the
    number of expenses inside the window; and, for amounts on which the
    sums are exact, the total of a row is the sum of the amounts of its
    month, accumulated in the order of the collection. *)
Theorem dashboard_months (v : Version) (env : Env) (st : Store) :
  let window := match v with
                | Controller => window_inclusive env
                | Inline => window_half_open env
                end in
  let inside := filter (fun e => window (Expense.date e)) (expenses st) in
  let of_month m := filter (fun e => month (Expense.date e) =? m) inside in
  let rows := d_monthlyExpenses (getDashboardStats v env st) in
  NoDup (map g_id rows)
  /\ ordered (fun a b => g_id a <=? g_id b) rows
  /\ (forall g, In g rows ->
        1 <= g_id g <= 12
        /\ 1 <= count g
        /\ count g = Z.of_nat (List.length (of_month (g_id g))))
  /\ (forall e, In e inside -> In (month (Expense.date e)) (map g_id rows))
  /\ sum_counts rows = Z.of_nat (List.length inside)
  /\ (exact_sums inside ->
      forall g, In g rows -> total g = sum_in_order (of_month (g_id g))).
Proof.
  cbv zeta. cbn [getDashboardStats d_monthlyExpenses].
  set (window := match v with
                 | Controller => window_inclusive env
                 | Inline => window_half_open env
                 end).
  replace (match v with
           | Inline => router_dashboard_monthly env st
           | Controller => dashboard_monthly env st
           end)
    with (by_month (filter (fun e => window (Expense.date e)) (expenses st)))
    by (destruct v; reflexivity).
  unfold by_month.
  destruct (sorted_rows Z.eqb (fun e => month (Expense.date e))
              (fun a b => g_id a <=? g_id b)
              (filter (fun e => window (Expense.date e)) (expenses st))
              z_eqb_ok)
    as (Hnd & Hrows & Hkeys & Ht & Hc).
  assert (Hmonth : forall g,
            In g (sort_by (fun a b => g_id a <=? g_id b)
                    (group_by Z.eqb (fun e => month (Expense.date e))
                       (filter (fun e => window (Expense.date e))
                          (expenses st)))) ->
            1 <= g_id g <= 12).
  { intros g Hg. destruct (Hrows g Hg) as (Hcount & _ & Hlen).
    unfold matching_key in Hlen.
    destruct (filter (fun e => month (Expense.date e) =? g_id g) _)
      as [|e r] eqn:Hf; [cbn in Hlen; lia|].
    assert (He : In e (e :: r)) by now left.
    rewrite <- Hf in He. apply filter_In in He as [_ He].
    apply Z.eqb_eq in He. rewrite <- He. apply month_range. }
  repeat split; auto; try (now apply Hrows); try (now apply Hmonth).
  - apply sort_by_ordered. intros a b. rewrite !Z.leb_le. lia.
  - intros g Hg. rewrite sum_in_order_amount. now apply Hrows.
Qed.

Lemma users_by_role (l : list User.t) :
  (List.length (filter is_user l)
   + List.length (filter (fun u => role_eqb (User.role u) RoleAdmin) l)
   = List.length l)%nat
  /\ (List.length (filter (fun u => (is_user u && User.isActive u)%bool) l)
      + List.length
          (filter (fun u => (is_user u && negb (User.isActive u))%bool) l)
      = List.length (filter is_user l))%nat.
Proof.
  unfold is_user.
  induction l as [|u l [IH1 IH2]]; simpl; [split; reflexivity|].
  destruct (User.role u), (User.isActive u); simpl; split; lia.
Qed.

(** The user figures of the dashboard.  The users are the documents of
    role user: together with the admins they are the whole collection, so
    an admin is never counted.  The active users are the users whose
    account is active: with the deactivated users they are all the users.
    The recent users are users of role user, five of them or all when
    there are fewer, newest first. *)
Theorem dashboard_users (v : Version) (env : Env) (st : Store) :
  let d := getDashboardStats v env st in
  let admins :=
    filter (fun u => role_eqb (User.role u) RoleAdmin) (users st) in
  let deactivated :=
    filter (fun u => (role_eqb (User.role u) RoleUser
                      && negb (User.isActive u))%bool) (users st) in
  totalUsers d + Z.of_nat (List.length admins)
  = Z.of_nat (List.length (users st))
  /\ activeUsers d + Z.of_nat (List.length deactivated) = totalUsers d
  /\ Z.of_nat (List.length (recentUsers d)) = Z.min 5 (totalUsers d)
  /\ (forall r, In r (recentUsers d) ->
        exists u, In u (users st) /\ User.role u = RoleUser
                  /\ r = select_recent_user u)
  /\ ordered (fun a b => ru_createdAt b <=? ru_createdAt a) (recentUsers d).
Proof.
  cbv zeta. cbn [getDashboardStats activeUsers totalUsers recentUsers].
  pose proof (users_by_role (users st)) as [Hroles Hactive].
  unfold is_user in *.
  set (members := filter (fun u => role_eqb (User.role u) RoleUser)
                    (users st)) in *.
  set (sorted := sort_by (fun a b => User.createdAt b <=? User.createdAt a)
                   members).
  assert (Hord : ordered (fun a b => User.createdAt b <=? User.createdAt a)
                   (firstn 5 sorted)).
  { apply ordered_firstn, sort_by_ordered. intros a b.
    rewrite !Z.leb_le. lia. }
  repeat split; try lia.
  - rewrite length_map, length_firstn. unfold sorted.
    rewrite length_sort_by. lia.
  - intros r Hr. apply in_map_iff in Hr as (u & <- & Hu).
    assert (Hs : In u sorted).
    { rewrite <- (firstn_skipn 5 sorted). apply in_or_app. now left. }
    apply (Permutation_in _ (sort_by_perm _ _)) in Hs.
    apply filter_In in Hs as [Hin Hrole]. exists u. repeat split; auto.
    now destruct (User.role u).
  - clear -Hord. induction (firstn 5 sorted) as [|a l IH]; [exact I|].
    destruct l as [|b l']; simpl in *; tauto.
Qed.

(** The two dashboards answer alike unless an expense is dated after the
    midnight that opens 31 December and before the new year. *)
Theorem dashboards_agree_outside_gap (env : Env) (st : Store) :
  100 <= getFullYear env ->
  (forall e, In e (expenses st) ->
     ~ (new_Date env (getFullYear env) 11 31 < Expense.date e
        < new_Date env (getFullYear env + 1) 0 1)) ->
  getDashboardStats Inline env st = getDashboardStats Controller env st.
Proof.
  intros Hy Hgap. unfold getDashboardStats. f_equal.
  unfold router_dashboard_monthly, dashboard_monthly. f_equal.
  apply filter_ext_in. intros e He. specialize (Hgap e He).
  pose proof (new_Date_december_31 env (getFullYear env) Hy) as Hday.
  unfold window_half_open, window_inclusive, in_half_open, in_range.
  unfold ms_per_day in Hday.
  destruct (new_Date env (getFullYear env) 0 1 <=? Expense.date e);
    cbn [andb]; [|reflexivity].
  destruct (Expense.date e <=? new_Date env (getFullYear env) 11 31) eqn:E.
  - apply Z.leb_le in E. apply Z.ltb_lt. lia.
  - apply Z.leb_gt in E. apply Z.ltb_ge. lia.
Qed.

Lemma dashboards_agree_outside_gap_witness :
  let st := mkStore [alice_doc] [coffee] in
  100 <= getFullYear june_2024
  /\ getDashboardStats Inline june_2024 st
     = getDashboardStats Controller june_2024 st.
Proof.
  intros st.
  assert (Hy : 100 <= getFullYear june_2024) by (vm_compute; discriminate).
  split; [exact Hy|].
  apply (dashboards_agree_outside_gap june_2024 st Hy).
  intros e [<-|[]]. vm_compute. intros [H _]. discriminate H.
Defined.

(** ** Accounts: what follows a registration, a password change, a delete *)

Lemma find_email_unique (l : list User.t) (u : User.t) :
  NoDup (map User.email l) -> In u l ->
  find_email (User.email u) l = Some u.
Proof.
  induction l as [|x r IH]; simpl; [tauto|].
  intros Hnd [->|Hin].
  - now rewrite String.eqb_refl.
  - inversion Hnd as [|? ? Hx Hr]; subst.
    destruct (String.eqb (User.email x) (User.email u)) eqn:E; [|auto].
    apply String.eqb_eq in E. exfalso. apply Hx. rewrite E. now apply in_map.
Qed.

Lemma find_user_None_notin (i : ObjectId) (l : list User.t) :
  find_user i l = None -> ~ In i (map User._id l).
Proof.
  induction l as [|x r IH]; simpl; [tauto|].
  destruct (oid_eqb (User._id x) i) eqn:E; [discriminate|].
  intros Hn [H|H]; [|now apply IH].
  rewrite H, oid_eqb_refl in E. discriminate.
Qed.

Lemma find_email_removed (l : list User.t) (u : User.t) :
  NoDup (map User.email l) -> In u l ->
  find_email (User.email u)
    (filter (fun x => negb (oid_eqb (User._id x) (User._id u))) l) = None.
Proof.
  intros Hnd Hin.
  destruct (find_email (User.email u) (filter _ l)) as [x|] eqn:E;
    [|reflexivity].
  exfalso. apply find_email_In in E as [Hx He].
  apply filter_In in Hx as [Hxl Hid].
  assert (x = u).
  { pose proof (find_email_unique l x Hnd Hxl) as H1.
    pose proof (find_email_unique l u Hnd Hin) as H2.
    rewrite He in H1. congruence. }
  subst x. now rewrite oid_eqb_refl in Hid.
Qed.

Section AccountsInSequence.

Variable isEmail : string -> bool.
Variable hashPassword : string -> string.
Variable comparePassword : string -> string -> bool.

(** What bcrypt promises: a password verifies against its own hash. *)
Hypothesis verifies : forall p, comparePassword p (hashPassword p) = true.

Lemma register_document (env : Env) (b : AuthBody) (st st1 : Store)
    (r : Response) :
  register isEmail hashPassword env b st = (r, st1) ->
  status r = 201 ->
  exists e p u,
    a_email b = Some e /\ a_password b = Some p
    /\ isEmail e = true /\ p <> EmptyString
    /\ User.email u = e /\ User.password u = hashPassword p
    /\ User.isActive u = true /\ User._id u = freshId env
    /\ User.role u = RoleUser
    /\ find_email e (users st) = None
    /\ st1 = mkStore (users st ++ [u]) (expenses st)
    /\ r = success 201 (Some "User registered successfully")
             (DataAuth (view u false) (generateToken (User._id u))).
Proof.
  unfold register, register_after_lookup, User_create.
  destruct (register_lookup b st) eqn:Hl.
  { intros [= <- <-]. discriminate. }
  cbn [n_name n_email n_password n_role n_monthlyBudget n_currency].
  destruct (a_name b) as [n|].
  2:{ intros [= <- <-]. discriminate. }
  destruct (a_email b) as [e|] eqn:He.
  2:{ intros [= <- <-]. discriminate. }
  destruct (a_password b) as [p|].
  2:{ intros [= <- <-]. discriminate. }
  destruct (_ || _)%bool.
  { intros [= <- <-]. discriminate. }
  destruct (isEmail e) eqn:Ee; cbn [negb].
  2:{ intros [= <- <-]. discriminate. }
  destruct (String.eqb p EmptyString) eqn:Ep.
  { intros [= <- <-]. discriminate. }
  destruct (_ <? 0).
  { intros [= <- <-]. discriminate. }
  destruct (negb (mem_string _ _)).
  { intros [= <- <-]. discriminate. }
  unfold register_lookup, User_findOne in Hl. rewrite He in Hl. rewrite Hl.
  intros [= <- <-] _. apply String.eqb_neq in Ep.
  do 3 eexists. repeat split; try reflexivity; auto.
Qed.

(** Whoever registered can log in: with the email and the password of a
    registration that succeeded, the next login succeeds and its token
    carries the identifier the registration's token carried. *)
Theorem register_then_login (env env2 : Env) (b : AuthBody)
    (st st1 : Store) (r : Response) :
  isEmail EmptyString = false ->
  unique_ids st ->
  find_user (freshId env) (users st) = None ->
  register isEmail hashPassword env b st = (r, st1) ->
  status r = 201 ->
  exists u st2,
    r = success 201 (Some "User registered successfully")
          (DataAuth (view u false) (generateToken (User._id u)))
    /\ login comparePassword env2 b st1
       = (success 200 (Some "Login successful")
            (DataAuth (view (User.set_lastLogin u (now env2)) true)
               (generateToken (User._id u))), st2)
    /\ expenses st2 = expenses st.
Proof.
  intros Hempty Hids Hfresh Hreg H201.
  destruct (register_document env b st st1 r Hreg H201)
    as (e & p & u & He & Hp & Hmail & Hpne & Hue & Hup & Hact & Hid & _
        & Hnone & -> & ->).
  assert (Hene : e <> EmptyString) by (intros ->; congruence).
  assert (Hids1 : unique_ids (mkStore (users st ++ [u]) (expenses st))).
  { unfold unique_ids in *. cbn [users]. rewrite map_app. cbn [map].
    apply NoDup_snoc; [exact Hids|]. rewrite Hid.
    now apply find_user_None_notin. }
  assert (Hf1 : User_findOne (mkStore (users st ++ [u]) (expenses st)) e
                = Some u).
  { unfold User_findOne. cbn [users]. now apply find_email_app_new. }
  destruct (User_save_found _ e u (User.set_lastLogin u (now env2))
              Hids1 Hf1 eq_refl eq_refl)
    as (st2 & Hsave & _ & Hexp & _).
  exists u, st2. split; [reflexivity|]. split; [|exact Hexp].
  unfold login. rewrite He, Hp, (truthy_Some e Hene), (truthy_Some p Hpne).
  cbn [negb orb]. rewrite Hf1, Hup, verifies, Hact. cbn [negb].
  now rewrite Hsave.
Qed.

(** After a password change that succeeded, the account logs in with the
    new password; and it no longer logs in with a password that does not
    verify against the new hash. *)
Theorem changePassword_then_login (env : Env) (caller : ReqUser.t)
    (cur new : string) (st st1 : Store) (r : Response) (u : User.t) :
  unique_ids st ->
  unique_emails st ->
  User_findById st (ReqUser.id caller) = Ok (Some u) ->
  User.email u <> EmptyString ->
  User.isActive u = true ->
  changePassword hashPassword comparePassword caller (Some cur) (Some new) st
  = (r, st1) ->
  status r = 200 ->
  (exists st2,
     login comparePassword env
       (mkAuthBody None (Some (User.email u)) (Some new) None None) st1
     = (success 200 (Some "Login successful")
          (DataAuth
             (view (User.set_lastLogin
                      (set_password u (hashPassword new)) (now env)) true)
             (generateToken (User._id u))), st2))
  /\ (forall old,
        old <> EmptyString ->
        comparePassword old (hashPassword new) = false ->
        login comparePassword env
          (mkAuthBody None (Some (User.email u)) (Some old) None None) st1
        = (failure 401 "Invalid email or password", st1))
  /\ expenses st1 = expenses st.
Proof.
  intros Hids Hemails Hfind Hene Hact Hchange H200.
  unfold changePassword in Hchange. rewrite Hfind in Hchange.
  destruct (negb (truthy (Some cur)) || negb (truthy (Some new)))%bool eqn:Et.
  { injection Hchange as <- <-. discriminate. }
  destruct (negb (comparePassword cur (User.password u))).
  { injection Hchange as <- <-. discriminate. }
  assert (Hin : In u (users st)).
  { unfold User_findById in Hfind.
    destruct (castObjectId (ReqUser.id caller)); cbn [bindE] in Hfind;
      [|discriminate].
    injection Hfind as Hfind. now apply find_user_In in Hfind. }
  assert (Hf : User_findOne st (User.email u) = Some u)
    by now apply find_email_unique.
  destruct (User_save_found st (User.email u) u
              (set_password u (hashPassword new)) Hids Hf eq_refl eq_refl)
    as (st' & Hsave & Hf' & Hexp & _ & Hids').
  rewrite Hsave in Hchange. injection Hchange as <- <-.
  assert (Hnew : new <> EmptyString).
  { intros ->. cbn in Et. now rewrite orb_true_r in Et. }
  assert (Hids1 : unique_ids st') by (unfold unique_ids; now rewrite Hids').
  split; [|split; [|exact Hexp]].
  - destruct (User_save_found st' (User.email u)
                (set_password u (hashPassword new))
                (User.set_lastLogin (set_password u (hashPassword new))
                   (now env)) Hids1 Hf' eq_refl eq_refl)
      as (st2 & Hsave2 & _).
    exists st2. unfold login. cbn [a_email a_password].
    rewrite (truthy_Some _ Hene), (truthy_Some _ Hnew). cbn [negb orb].
    rewrite Hf'. cbn [set_password User.password User.isActive].
    rewrite verifies, Hact. cbn [negb]. now rewrite Hsave2.
  - intros old Hone Hbad. unfold login. cbn [a_email a_password].
    rewrite (truthy_Some _ Hene), (truthy_Some _ Hone). cbn [negb orb].
    rewrite Hf'. cbn [set_password User.password]. now rewrite Hbad.
Qed.

(** After a self-service delete that succeeded, no login with the email
    of the deleted account goes through, whatever the password, and the
    identifier finds no user. *)
Theorem deleteAccount_then_login (env : Env) (caller : ReqUser.t)
    (password : option string) (st st1 : Store) (r : Response) :
  unique_emails st ->
  deleteAccount comparePassword caller password st = (r, st1) ->
  status r = 200 ->
  exists u,
    User_findById st (ReqUser.id caller) = Ok (Some u)
    /\ User_findById st1 (ReqUser.id caller) = Ok None
    /\ (forall p name budget currency,
          let b := mkAuthBody name (Some (User.email u)) p budget currency in
          fst (login comparePassword env b st1)
          = failure 401 "Invalid email or password"
          \/ fst (login comparePassword env b st1)
             = failure 400 "Please provide email and password")
    /\ expenses st1 = expenses st.
Proof.
  intros Hemails Hdel H200. unfold deleteAccount in Hdel.
  destruct password as [p|]; [|injection Hdel as <- <-; discriminate].
  destruct (negb (truthy (Some p)));
    [injection Hdel as <- <-; discriminate|].
  destruct (User_findById st (ReqUser.id caller)) as [[u|]|] eqn:Hfind;
    try (injection Hdel as <- <-; discriminate).
  destruct (negb (comparePassword p (User.password u)));
    [injection Hdel as <- <-; discriminate|].
  injection Hdel as <- <-.
  unfold User_findById in *.
  destruct (castObjectId (ReqUser.id caller)) as [o|]; cbn [bindE] in *;
    [|discriminate].
  injection Hfind as Hfind. destruct (find_user_In _ _ _ Hfind) as [Hin Hid].
  exists u. split; [reflexivity|]. split; [|split; [|reflexivity]].
  - f_equal. unfold User_deleteOne. cbn [users]. rewrite Hid.
    clear. induction (users st) as [|x l IH]; simpl; [reflexivity|].
    destruct (oid_eqb (User._id x) o) eqn:E; simpl; [exact IH|].
    now rewrite E.
  - intros q name budget currency. unfold login. cbn [a_email a_password].
    destruct q as [q|]; [|now right].
    destruct (_ || _)%bool; [now right|]. left.
    unfold User_findOne, User_deleteOne. cbn [users].
    now rewrite (find_email_removed (users st) u Hemails Hin).
Qed.

End AccountsInSequence.

Lemma sample_verifies (p : string) : sample_compare p (sample_hash p) = true.
Proof. unfold sample_compare. apply String.eqb_refl. Qed.

Lemma register_then_login_witness :
  let st := mkStore [alice_doc] [] in
  exists r st1 u st2,
    register has_at sample_hash june_2024 carol_body st = (r, st1)
    /\ status r = 201
    /\ login sample_compare a_moment_later carol_body st1
       = (success 200 (Some "Login successful")
            (DataAuth (view (User.set_lastLogin u (now a_moment_later)) true)
               (generateToken (User._id u))), st2)
    /\ User._id u = freshId june_2024.
Proof.
  intros st.
  destruct (register has_at sample_hash june_2024 carol_body st)
    as [r st1] eqn:Hreg.
  assert (H201 : status r = 201).
  { vm_compute in Hreg. now injection Hreg as <- <-. }
  assert (Hids : unique_ids st).
  { unfold unique_ids. simpl. repeat constructor. simpl. tauto. }
  destruct (register_then_login has_at sample_hash sample_compare
              sample_verifies june_2024 a_moment_later carol_body st st1 r
              eq_refl Hids eq_refl Hreg H201)
    as (u & st2 & Hr & Hlogin & _).
  exists r, st1, u, st2. repeat split; auto.
  rewrite Hr in Hreg. vm_compute in Hreg.
  injection Hreg as Hu _. vm_compute. congruence.
Defined.

Lemma changePassword_then_login_witness :
  let st := mkStore [alice_doc; bob_doc] [coffee] in
  exists r st1 st2,
    changePassword sample_hash sample_compare (as_user alice)
      (Some "wonderland") (Some "looking-glass") st = (r, st1)
    /\ status r = 200
    /\ login sample_compare june_2024
         (mkAuthBody None (Some "alice@example.com") (Some "looking-glass")
            None None) st1
       = (success 200 (Some "Login successful")
            (DataAuth
               (view (User.set_lastLogin
                        (set_password alice_doc (sample_hash "looking-glass"))
                        (now june_2024)) true)
               (generateToken alice)), st2)
    /\ login sample_compare june_2024
         (mkAuthBody None (Some "alice@example.com") (Some "wonderland")
            None None) st1
       = (failure 401 "Invalid email or password", st1).
Proof.
  intros st.
  destruct (changePassword sample_hash sample_compare (as_user alice)
              (Some "wonderland") (Some "looking-glass") st)
    as [r st1] eqn:Hc.
  assert (H200 : status r = 200).
  { vm_compute in Hc. now injection Hc as <- <-. }
  assert (Hids : unique_ids st).
  { unfold unique_ids. simpl. repeat constructor; simpl; intuition discriminate. }
  assert (Hem : unique_emails st).
  { unfold unique_emails. simpl. repeat constructor; simpl; intuition discriminate. }
  destruct (changePassword_then_login sample_hash sample_compare
              sample_verifies june_2024 (as_user alice) "wonderland"
              "looking-glass" st st1 r alice_doc Hids Hem eq_refl)
    as ((st2 & Hnew) & Hold & _); auto; try discriminate.
  exists r, st1, st2. repeat split; auto.
  apply Hold; [discriminate | reflexivity].
Defined.

Lemma deleteAccount_then_login_witness :
  let st := mkStore [alice_doc; bob_doc] [coffee] in
  exists r st1,
    deleteAccount sample_compare (as_user alice) (Some "wonderland") st
    = (r, st1)
    /\ status r = 200
    /\ User_findById st1 (ReqUser.id (as_user alice)) = Ok None
    /\ expenses st1 = [coffee].
Proof.
  intros st.
  destruct (deleteAccount sample_compare (as_user alice) (Some "wonderland")
              st) as [r st1] eqn:Hd.
  assert (H200 : status r = 200).
  { vm_compute in Hd. now injection Hd as <- <-. }
  assert (Hem : unique_emails st).
  { unfold unique_emails. simpl. repeat constructor; simpl; intuition discriminate. }
  destruct (deleteAccount_then_login sample_compare june_2024
              (as_user alice) (Some "wonderland") st st1 r Hem Hd H200)
    as (u & _ & Hgone & _ & Hexp).
  exists r, st1. repeat split; auto.
Defined.

(** ** The user administration *)

(** An admin cannot delete the account the request is made with, however
    the identifier in the path is spelled: the answer is 400 and the store
    is as it was. *)
Theorem deleteUser_not_oneself (caller : ReqUser.t) (target : string)
    (st : Store) (u : User.t) :
  castObjectId target = Ok (ReqUser._id caller) ->
  find_user (ReqUser._id caller) (users st) = Some u ->
  deleteUser caller target st
  = (failure 400 "Cannot delete your own account", st).
Proof.
  intros Hcast Hfind. unfold deleteUser, User_findById.
  rewrite Hcast. cbn [bindE]. rewrite Hfind.
  apply find_user_In in Hfind as [_ ->].
  unfold ReqUser.id. now rewrite String.eqb_refl.
Qed.

Lemma deleteUser_not_oneself_witness :
  let st := mkStore [alice_doc; root_doc] [coffee] in
  castObjectId "DDDDDDDDDDDDDDDDDDDDDDDD" = Ok (ReqUser._id (as_admin root))
  /\ deleteUser (as_admin root) "DDDDDDDDDDDDDDDDDDDDDDDD" st
     = (failure 400 "Cannot delete your own account", st).
Proof.
  intros st. split; [reflexivity|].
  apply (deleteUser_not_oneself (as_admin root) "DDDDDDDDDDDDDDDDDDDDDDDD"
           st root_doc); reflexivity.
Defined.

Section ProfileUpdates.

Variable User_findByIdAndUpdate :
  Store -> string -> UserUpdate -> Except (option User.t * Store).

Lemma email_taken_by_other (st : Store) (e i : string) (o : ObjectId)
    (other : User.t) :
  e <> EmptyString ->
  castObjectId i = Ok o ->
  In other (users st) ->
  User.email other = e ->
  User._id other <> o ->
  exists x, email_taken st (Some e) i = Ok (Some x).
Proof.
  intros Hne Hcast Hin Hmail Hid. unfold email_taken, find_other_with_email.
  rewrite (truthy_Some e Hne), Hcast. cbn [bindE].
  destruct (find _ (users st)) as [x|] eqn:E; [eauto|].
  exfalso. apply (find_none _ _ E) in Hin.
  rewrite Hmail, String.eqb_refl in Hin. cbn [andb] in Hin.
  destruct (oid_eqb (User._id other) o) eqn:Eo; [|discriminate].
  apply oid_eqb_eq in Eo. contradiction.
Qed.

Lemma email_taken_own (st : Store) (e i : string) (o : ObjectId) :
  unique_emails st ->
  castObjectId i = Ok o ->
  (forall x, In x (users st) -> User.email x = e -> User._id x = o) ->
  email_taken st (Some e) i = Ok None.
Proof.
  intros _ Hcast Hown. unfold email_taken, find_other_with_email.
  destruct (truthy (Some e)); [|reflexivity].
  rewrite Hcast. cbn [bindE].
  destruct (find _ (users st)) as [x|] eqn:E; [|reflexivity].
  exfalso. apply find_some in E as [Hin Hx].
  apply andb_true_iff in Hx as [He Hid]. apply String.eqb_eq in He.
  rewrite (Hown x Hin He), oid_eqb_refl in Hid. discriminate.
Qed.

(** The email check of the two update handlers and the reach of
    [updateProfile].  An email that another user holds is answered 400 and
    the store is not touched, whatever else the body carries; and what
    [updateProfile] does never depends on a role or an active flag in the
    body, so nobody promotes or reactivates themself through it. *)
Theorem profile_update_guards (caller : ReqUser.t) (target : string)
    (b : UserUpdate) (st : Store) :
  (forall e o other,
     up_email b = Some e -> e <> EmptyString ->
     In other (users st) -> User.email other = e ->
     (castObjectId (ReqUser.id caller) = Ok o -> User._id other <> o ->
      updateProfile User_findByIdAndUpdate caller b st
      = (mkReply 400 (Some "Email is already taken") None, st))
     /\ (castObjectId target = Ok o -> User._id other <> o ->
         updateUser User_findByIdAndUpdate target b st
         = (mkReply 400 (Some "Email is already taken") None, st)))
  /\ (forall role active,
        updateProfile User_findByIdAndUpdate caller
          (mkUserUpdate (up_name b) (up_email b) role (up_monthlyBudget b)
             (up_currency b) active) st
        = updateProfile User_findByIdAndUpdate caller b st).
Proof.
  split.
  - intros e o other He Hne Hin Hmail. split; intros Hcast Hid.
    + unfold updateProfile. rewrite He.
      destruct (email_taken_by_other st e (ReqUser.id caller) o other
                  Hne Hcast Hin Hmail Hid) as [x ->].
      reflexivity.
    + unfold updateUser. rewrite He.
      destruct (email_taken_by_other st e target o other
                  Hne Hcast Hin Hmail Hid) as [x ->].
      reflexivity.
  - intros role active. reflexivity.
Qed.

End ProfileUpdates.

Section ListedUsers.

Variable regex_i : string -> option (string -> bool).

(** What the admin's user list holds: documents of the store without their
    passwords, newest first, at most [limit] of them for a positive limit;
    each has the role the query names; and under an [isActive] parameter
    each is active exactly when the parameter reads "true", so that any
    other value ("false", "1", "yes") lists the deactivated accounts. *)
Theorem listed_users (q : UserQuery) (st : Store)
    (items : list PublicUser) (pg : Pagination) :
  getAllUsers regex_i q st = mkReply 200 None (Some (items, pg)) ->
  (forall p, In p items ->
     (exists u, In u (users st) /\ p = without_password u)
     /\ (forall s, uq_isActive q = Some s ->
           pu_isActive p = String.eqb s "true")
     /\ (forall r, uq_role q = Some r -> r <> EmptyString ->
           role_name (pu_role p) = r))
  /\ ordered (fun a b => pu_createdAt b <=? pu_createdAt a) items
  /\ (1 <= user_limit q -> Z.of_nat (List.length items) <= user_limit q)
  /\ totalItems pg <= Z.of_nat (List.length (users st)).
Proof.
  unfold getAllUsers.
  destruct (users_filter regex_i q) as [f|] eqn:Hf; [|discriminate].
  destruct (skip_limit _ _ _) as [page|] eqn:Hs; [|discriminate].
  intros [= <- <-].
  assert (Hsorted : ordered (fun a b => User.createdAt b <=? User.createdAt a)
                      page).
  { eapply skip_limit_ordered; [|exact Hs].
    apply sort_by_ordered. intros a b. rewrite !Z.leb_le. lia. }
  destruct (skip_limit_part _ _ _ _ Hs) as (front & back & Hl).
  repeat split.
  - apply in_map_iff in H as (u & <- & Hu). exists u. split; [|reflexivity].
    assert (Hin : In u (sort_by
                          (fun a b => User.createdAt b <=? User.createdAt a)
                          (filter f (users st)))).
    { rewrite Hl. apply in_or_app. right. apply in_or_app. now left. }
    apply (Permutation_in _ (sort_by_perm _ _)) in Hin.
    now apply filter_In in Hin.
  - intros s Hq. apply in_map_iff in H as (u & <- & Hu).
    assert (Hin : In u (sort_by
                          (fun a b => User.createdAt b <=? User.createdAt a)
                          (filter f (users st)))).
    { rewrite Hl. apply in_or_app. right. apply in_or_app. now left. }
    apply (Permutation_in _ (sort_by_perm _ _)) in Hin.
    apply filter_In in Hin as [_ Hfu].
    unfold users_filter in Hf.
    destruct (if truthy (uq_search q) then _ else _) as [g|];
      cbn [bindE] in Hf; [|discriminate].
    injection Hf as <-. rewrite Hq in Hfu.
    apply andb_true_iff in Hfu as [_ Hfu]. cbn [without_password pu_isActive].
    now apply Bool.eqb_prop in Hfu.
  - intros r Hq Hne. apply in_map_iff in H as (u & <- & Hu).
    assert (Hin : In u (sort_by
                          (fun a b => User.createdAt b <=? User.createdAt a)
                          (filter f (users st)))).
    { rewrite Hl. apply in_or_app. right. apply in_or_app. now left. }
    apply (Permutation_in _ (sort_by_perm _ _)) in Hin.
    apply filter_In in Hin as [_ Hfu].
    unfold users_filter in Hf.
    destruct (if truthy (uq_search q) then _ else _) as [g|];
      cbn [bindE] in Hf; [|discriminate].
    injection Hf as <-. rewrite Hq, (truthy_Some r Hne) in Hfu.
    apply andb_true_iff in Hfu as [Hfu _].
    apply andb_true_iff in Hfu as [_ Hfu].
    cbn [without_password pu_role]. now apply String.eqb_eq.
  - clear -Hsorted. induction page as [|a l IH]; [exact I|].
    destruct l as [|b l']; simpl in *; tauto.
  - intros Hlim. rewrite length_map.
    unfold skip_limit in Hs. destruct (_ <? 0); [discriminate|].
    injection Hs as <-. replace (user_limit q =? 0) with false by lia.
    rewrite length_firstn. lia.
  - cbn [totalItems].
    clear. induction (users st) as [|u l IH]; simpl; [lia|].
    destruct (f u); simpl; lia.
Qed.

End ListedUsers.

Lemma listed_users_witness :
  let q := mkUserQuery None None None None (Some "no") in
  let st := mkStore [alice_doc; bob_doc; root_doc] [] in
  exists pg,
    getAllUsers (fun _ => None) q st
    = mkReply 200 None (Some ([without_password bob_doc], pg))
    /\ pu_isActive (without_password bob_doc) = String.eqb "no" "true".
Proof.
  intros q st.
  destruct (getAllUsers (fun _ => None) q st) as [s m d] eqn:Hg.
  vm_compute in Hg. injection Hg as <- <- <-.
  eexists. split; [reflexivity|].
  match goal with
  | |- context [without_password bob_doc] =>
      destruct (listed_users (fun _ => None) q st [without_password bob_doc]
                  (mkPagination 1 (Num 1) 1 10) eq_refl) as (Hitems & _)
  end.
  destruct (Hitems (without_password bob_doc) (or_introl eq_refl))
    as (_ & Hactive & _).
  now apply Hactive.
Defined.

(** ** Logging in and the statistics' recent expenses *)

Section LoginAnswers.

Variable comparePassword : string -> string -> bool.

(** A login for an email nobody holds and a login with a password that
    does not verify get one and the same answer, and neither writes. *)
Theorem login_does_not_tell (env : Env) (b : AuthBody) (st : Store)
    (e p : string) :
  a_email b = Some e ->
  a_password b = Some p ->
  e <> EmptyString ->
  p <> EmptyString ->
  match User_findOne st e with
  | None => True
  | Some u => comparePassword p (User.password u) = false
  end ->
  login comparePassword env b st
  = (failure 401 "Invalid email or password", st).
Proof.
  intros He Hp Hne Hnp Hbad. unfold login.
  rewrite He, Hp, (truthy_Some e Hne), (truthy_Some p Hnp). cbn [negb orb].
  destruct (User_findOne st e) as [u|]; [|reflexivity].
  now rewrite Hbad.
Qed.

End LoginAnswers.

Lemma login_does_not_tell_witness :
  let st := mkStore [alice_doc] [] in
  login sample_compare june_2024
    (mkAuthBody None (Some "nobody@example.com") (Some "wonderland")
       None None) st
  = (failure 401 "Invalid email or password", st)
  /\ login sample_compare june_2024
       (mkAuthBody None (Some "alice@example.com") (Some "guess") None None)
       st
     = (failure 401 "Invalid email or password", st).
Proof.
  intros st. split.
  - apply (login_does_not_tell sample_compare june_2024 _ st
             "nobody@example.com" "wonderland"); try reflexivity;
      try discriminate; exact I.
  - apply (login_does_not_tell sample_compare june_2024 _ st
             "alice@example.com" "guess"); try reflexivity;
      try discriminate.
Defined.

(** The recent expenses of [getExpenseStats] are read through [find]: at
    most five, the caller's own, inside the date range of the request,
    newest first, and all of the caller's expenses in the range when these
    are no more than five. *)
Theorem stats_recent_expenses (env : Env) (req : StatsRequest) (st : Store)
    (s : Stats) (recent : list Recent) :
  data (getExpenseStats env req st) = DataStats s ->
  recentExpenses s = Some recent ->
  exists owner mine,
    castObjectId (ReqUser.id (s_user req)) = Ok owner
    /\ mine = filter (fun e => (oid_eqb (Expense.user e) owner
                               && in_range (s_startDate req) (s_endDate req)
                                    (Expense.date e))%bool) (expenses st)
    /\ Z.of_nat (List.length recent) = Z.min 5 (Z.of_nat (List.length mine))
    /\ (forall r, In r recent ->
          exists e, In e mine /\ r = select_recent e)
    /\ ordered (fun a b => r_date b <=? r_date a) recent.
Proof.
  unfold getExpenseStats.
  destruct (castObjectId (ReqUser.id (s_user req))) as [owner|];
    [|discriminate].
  unfold success. cbv beta iota delta [data]. intros Hd Hr.
  apply (f_equal (fun d => match d with
                           | DataStats x => recentExpenses x
                           | _ => None
                           end)) in Hd.
  cbv beta iota in Hd. rewrite Hr in Hd.
  cbv beta iota delta [recentExpenses] in Hd.
  apply (f_equal (fun o => match o with Some l => l | None => [] end)) in Hd.
  cbv beta iota in Hd. subst recent. clear Hr.
  exists owner. eexists. split; [reflexivity|]. split; [reflexivity|].
  set (mine := filter _ (expenses st)).
  set (sorted := sort_by (fun a b => Expense.date b <=? Expense.date a) mine).
  repeat split.
  - rewrite length_map, length_firstn. unfold sorted.
    rewrite length_sort_by. lia.
  - intros r Hr. apply in_map_iff in Hr as (e & <- & He). exists e.
    split; [|reflexivity].
    assert (Hs : In e sorted).
    { rewrite <- (firstn_skipn 5 sorted). apply in_or_app. now left. }
    exact (Permutation_in _ (sort_by_perm _ _) Hs).
  - assert (Hord : ordered (fun a b => Expense.date b <=? Expense.date a)
                     (firstn 5 sorted)).
    { apply ordered_firstn, sort_by_ordered. intros a b.
      rewrite !Z.leb_le. lia. }
    clear -Hord. induction (firstn 5 sorted) as [|a l IH]; [exact I|].
    destruct l as [|b l']; simpl in *; tauto.
Qed.

Lemma stats_recent_expenses_witness :
  let st := mkStore [alice_doc] [coffee; new_years_eve_lunch] in
  let req := mkStatsRequest (as_user alice) None None in
  exists s,
    data (getExpenseStats june_2024 req st) = DataStats s
    /\ recentExpenses s
       = Some [select_recent new_years_eve_lunch; select_recent coffee].
Proof.
  intros st req.
  destruct (data (getExpenseStats june_2024 req st)) as [| | | |s|] eqn:Hd;
    try (vm_compute in Hd; discriminate).
  exists s. split; [reflexivity|].
  assert (Hr : recentExpenses s
               = Some [select_recent new_years_eve_lunch;
                       select_recent coffee]).
  { vm_compute in Hd. injection Hd as <-. reflexivity. }
  destruct (stats_recent_expenses june_2024 req st s _ Hd Hr)
    as (owner & mine & _).
  exact Hr.
Defined.

(** ** The admin's list of expenses *)

(** What [getAllExpenses] lists: documents of the store with their owners
    populated; under a [userId] parameter only that user's, under a
    category only that category's; in the order the query asks for when it
    sorts by a field of [sort_fields]; and the [minAmount] / [maxAmount]
    parameters of the user's list are not read: whatever they are, the
    answer is the same. *)
Theorem admin_list_scope (req : ListRequest) (st : Store) (p : Populated) :
  In p (items_of (getAllExpenses req st)) ->
  In (p_expense p) (expenses st)
  /\ p = populate st (p_expense p)
  /\ (forall s, q_userId (l_query req) = Some s -> s <> EmptyString ->
        castObjectId s = Ok (Expense.user (p_expense p)))
  /\ (forall c, q_category (l_query req) = Some c -> c <> EmptyString ->
        Expense.category (p_expense p) = c)
  /\ (In (sort_field (l_query req)) sort_fields ->
      ordered (sort_le (l_query req))
        (map p_expense (items_of (getAllExpenses req st))))
  /\ (forall lo hi,
        let q := l_query req in
        getAllExpenses
          (mkListRequest (l_user req)
             (mkListQuery (q_page q) (q_limit q) (q_userId q) (q_category q)
                (q_startDate q) (q_endDate q) lo hi (q_sortBy q)
                (q_sortOrder q))) st
        = getAllExpenses req st).
Proof.
  match goal with
  | |- _ -> _ /\ _ /\ _ /\ _ /\ _ /\ ?G =>
      assert (Hamounts : G) by (intros lo hi; reflexivity);
      revert Hamounts; generalize G
  end.
  intros amounts Hamounts. unfold getAllExpenses.
  destruct (if truthy (q_userId (l_query req)) then _ else _)
    as [owner|] eqn:Howner; [|intros []].
  destruct (skip_limit _ _ _) as [page|] eqn:Hs; [|intros []].
  cbn [items_of data success]. intros Hin.
  apply in_map_iff in Hin as (e & <- & He). cbn [p_expense populate].
  destruct (skip_limit_part _ _ _ _ Hs) as (front & back & Hl).
  assert (Hsorted : In e (sort_by (sort_le (l_query req))
                            (filter (admin_filter owner (l_query req))
                               (expenses st)))).
  { rewrite Hl. apply in_or_app. right. apply in_or_app. now left. }
  apply (Permutation_in _ (sort_by_perm _ _)) in Hsorted.
  apply filter_In in Hsorted as [Hstore Hf].
  unfold admin_filter in Hf.
  apply andb_true_iff in Hf as [Hf _].
  apply andb_true_iff in Hf as [Hu Hc].
  repeat split; auto.
  - intros s Hq Hne. rewrite Hq, (truthy_Some s Hne) in Howner.
    destruct (castObjectId s) as [o|]; cbn [bindE] in Howner;
      [|discriminate].
    injection Howner as <-. apply oid_eqb_eq in Hu. now rewrite Hu.
  - intros c Hq Hne. rewrite Hq, (truthy_Some c Hne) in Hc.
    now apply String.eqb_eq.
  - intros _. rewrite map_map. cbn [p_expense populate]. rewrite map_id.
    eapply skip_limit_ordered; [|exact Hs].
    apply sort_by_ordered, sort_le_total.
Qed.

Lemma admin_list_scope_witness :
  let st := mkStore [alice_doc; bob_doc]
              [coffee; Expense.mk lunch_id bob "Lunch" 20 "Food & Dining"
                         1735646400000] in
  let req := mkListRequest (as_admin root)
               (mkListQuery None None (Some (toString alice)) None None None
                  (Some 10) None None None) in
  items_of (getAllExpenses req st) = [populate st coffee]
  /\ castObjectId (toString alice) = Ok (Expense.user coffee).
Proof.
  intros st req. split; [reflexivity|].
  assert (Hin : In (populate st coffee) (items_of (getAllExpenses req st)))
    by (simpl; now left).
  destruct (admin_list_scope req st (populate st coffee) Hin)
    as (_ & _ & Howner & _).
  apply (Howner (toString alice)); [reflexivity | discriminate].
Defined.
